(** * UPS collection client: a shallow embedding of [scripts/ups-client.ts]

    The development follows the TypeScript class [UPSClient]: the smart
    defaults ([getSmartDate], [getSmartEarliestTime]), the session store
    ([ensureBrowser], [updateSession], [reset]), the element resolver
    ([fillField], [selectOption]), the authenticator ([login]) and the three
    booking operations ([fillForm], [submit], [book]).

    Pure code is embedded as Rocq functions.  Code that drives the browser is
    embedded in a state-and-exception monad over a [World] (the files the
    client touches, the three private fields of the client object and the
    trace of calls issued so far); what the browser, the site and the clock
    answer is read from an [Env], a record of functions of that trace. *)

From Stdlib Require Import ZArith Lia List Bool Ascii String DecimalString.
From stdpp Require Import base option gmap strings list.

Local Open Scope string_scope.
Local Open Scope Z_scope.

(** ** JavaScript primitives used by the client *)

Module JS.

(** The double-quote character, as it occurs inside CSS selectors. *)
Definition dq : string := String (ascii_of_nat 34) EmptyString.

(** [quoted s] is [s] between double quotes. *)
Definition quoted (s : string) : string := dq +:+ s +:+ dq.

(** [String(n)] for an integer [n]. *)
Definition String_of_Z (n : Z) : string := NilZero.string_of_int (Z.to_int n).

(** Truthiness of an optional string: [undefined] and the empty string are
    falsy. *)
Definition truthy (o : option string) : bool :=
  match o with
  | Some s => negb (String.eqb s "")
  | None => false
  end.

(** Truthiness of an optional integer: [undefined] and [0] are falsy. *)
Definition truthyZ (o : option Z) : bool :=
  match o with
  | Some n => negb (n =? 0)%Z
  | None => false
  end.

(** [a || b] where [b] is a string that is always there. *)
Definition orElse (a : option string) (b : string) : string :=
  match a with
  | Some s => if String.eqb s "" then b else s
  | None => b
  end.

(** [a || b] on integers. *)
Definition orElseZ (a : option Z) (b : Z) : Z :=
  match a with
  | Some n => if (n =? 0)%Z then b else n
  | None => b
  end.

(** ASCII lower-casing, the part of [toLowerCase] the label variants need. *)
Definition lowerAscii (c : ascii) : ascii :=
  let n := nat_of_ascii c in
  if (Nat.leb 65 n && Nat.leb n 90)%bool then ascii_of_nat (n + 32) else c.

Fixpoint toLowerCase (s : string) : string :=
  match s with
  | EmptyString => EmptyString
  | String c r => String (lowerAscii c) (toLowerCase r)
  end.

Definition isSpace (c : ascii) : bool :=
  let n := nat_of_ascii c in
  (Nat.eqb n 32 || (Nat.leb 9 n && Nat.leb n 13))%bool.

(** [s.replace(/\s+/g, '')]. *)
Fixpoint stripSpaces (s : string) : string :=
  match s with
  | EmptyString => EmptyString
  | String c r => if isSpace c then stripSpaces r else String c (stripSpaces r)
  end.

(** [s.split(c)[0]]: the part of [s] before the first [c]. *)
Fixpoint beforeChar (c : ascii) (s : string) : string :=
  match s with
  | EmptyString => EmptyString
  | String d r => if Ascii.eqb c d then EmptyString else String d (beforeChar c r)
  end.

End JS.

(** ** Dates

    A [Date] is its time value: milliseconds since the epoch, in UTC.  The
    local-time getters and setters of a [Date] go through the time zone of
    the process, here a fixed offset [tz] (local time minus UTC, in
    milliseconds); [toISOString] does not: it always renders UTC. *)

Module JSDate.

Definition msPerDay : Z := 86400000.
Definition msPerHour : Z := 3600000.
Definition msPerMinute : Z := 60000.
Definition msPerSecond : Z := 1000.

(** The reading of a wall clock, as [toLocaleString("en-US", ...)] renders
    it: month/day/year, hours, minutes, seconds. *)
Record WallClock := {
  wcYear : Z;
  wcMonth : Z;
  wcDay : Z;
  wcHour : Z;
  wcMinute : Z;
  wcSecond : Z;
}.

(** Day number (days since 1970-01-01) of a calendar date, and back. *)
Definition daysFromCivil (y m d : Z) : Z :=
  let y' := if m <=? 2 then y - 1 else y in
  let era := y' / 400 in
  let yoe := y' - era * 400 in
  let mp := if 2 <? m then m - 3 else m + 9 in
  let doy := (153 * mp + 2) / 5 + d - 1 in
  let doe := yoe * 365 + yoe / 4 - yoe / 100 + doy in
  era * 146097 + doe - 719468.

Definition civilFromDays (n : Z) : Z * Z * Z :=
  let z := n + 719468 in
  let era := z / 146097 in
  let doe := z - era * 146097 in
  let yoe := (doe - doe / 1460 + doe / 36524 - doe / 146096) / 365 in
  let doy := doe - (365 * yoe + yoe / 4 - yoe / 100) in
  let mp := (5 * doy + 2) / 153 in
  let d := doy - (153 * mp + 2) / 5 + 1 in
  let m := if mp <? 10 then mp + 3 else mp - 9 in
  let y := yoe + era * 400 in
  (if m <=? 2 then y + 1 else y, m, d).

Definition Day (t : Z) : Z := t / msPerDay.
Definition TimeWithinDay (t : Z) : Z := t mod msPerDay.
Definition WeekDay (t : Z) : Z := (Day t + 4) mod 7.
Definition HourFromTime (t : Z) : Z := (t / msPerHour) mod 24.
Definition MinFromTime (t : Z) : Z := (t / msPerMinute) mod 60.
Definition SecFromTime (t : Z) : Z := (t / msPerSecond) mod 60.
Definition msFromTime (t : Z) : Z := t mod msPerSecond.

Definition MakeTime (h m s ms : Z) : Z :=
  h * msPerHour + m * msPerMinute + s * msPerSecond + ms.
Definition MakeDay (y m d : Z) : Z := daysFromCivil y m 1 + d - 1.
Definition MakeDate (day time : Z) : Z := day * msPerDay + time.

Section Zone.

Variable tz : Z.

Definition LocalTime (t : Z) : Z := t + tz.
Definition UTC (t : Z) : Z := t - tz.

(** [new Date(s)] for a string [s] without a zone: the fields are read as a
    local time of the process. *)
Definition parseLocal (c : WallClock) : Z :=
  UTC (MakeDate (MakeDay (wcYear c) (wcMonth c) (wcDay c))
                (MakeTime (wcHour c) (wcMinute c) (wcSecond c) 0)).

Definition getHours (t : Z) : Z := HourFromTime (LocalTime t).
Definition getDay (t : Z) : Z := WeekDay (LocalTime t).
Definition getDate (t : Z) : Z := snd (civilFromDays (Day (LocalTime t))).

(** [d.setDate(n)]: the local calendar day of the month becomes [n] (which
    may overflow into the next month), the local time of day is kept. *)
Definition setDate (t : Z) (n : Z) : Z :=
  let lt := LocalTime t in
  let '(y, m, _) := civilFromDays (Day lt) in
  UTC (MakeDate (MakeDay y m n) (TimeWithinDay lt)).

End Zone.

Definition pad (width : nat) (n : Z) : string :=
  let s := JS.String_of_Z n in
  let fix zeros (k : nat) : string :=
    match k with O => "" | S k' => "0" +:+ zeros k' end in
  zeros (width - String.length s)%nat +:+ s.

Definition isoYear (y : Z) : string :=
  if (0 <=? y) && (y <=? 9999) then pad 4 y
  else (if y <? 0 then "-" else "+") +:+ pad 6 (Z.abs y).

(** The calendar part [YYYY-MM-DD] of a day number. *)
Definition isoDate (day : Z) : string :=
  let '(y, m, d) := civilFromDays day in
  isoYear y +:+ "-" +:+ pad 2 m +:+ "-" +:+ pad 2 d.

(** [d.toISOString()]: always UTC. *)
Definition toISOString (t : Z) : string :=
  isoDate (Day t) +:+ "T" +:+ pad 2 (HourFromTime t) +:+ ":" +:+
  pad 2 (MinFromTime t) +:+ ":" +:+ pad 2 (SecFromTime t) +:+ "." +:+
  pad 3 (msFromTime t) +:+ "Z".

End JSDate.

Import JSDate.

(** ** Smart defaults *)

(** [getSmartDate()].  [tz] is the zone offset of the process, [uk] the
    Europe/London wall clock that [toLocaleString] rendered.  The [while]
    loop that skips the weekend runs on fuel; it ends within two rounds, so
    that the fuel is never used up (see [skipWeekend_fuel]). *)
Fixpoint skipWeekend (tz : Z) (fuel : nat) (targetDate : Z) : Z :=
  match fuel with
  | O => targetDate
  | S fuel' =>
      if (getDay tz targetDate =? 0) || (getDay tz targetDate =? 6)
      then skipWeekend tz fuel' (setDate tz targetDate (getDate tz targetDate + 1))
      else targetDate
  end.

Definition getSmartDate (tz : Z) (uk : WallClock) : string :=
  let ukTime := parseLocal tz uk in
  let hour := getHours tz ukTime in
  let targetDate :=
    if 13 <=? hour then setDate tz ukTime (getDate tz ukTime + 1) else ukTime in
  let targetDate := skipWeekend tz 7 targetDate in
  JS.beforeChar "T" (toISOString targetDate).

(** [getSmartEarliestTime()]. *)
Definition getSmartEarliestTime (tz : Z) (uk : WallClock) : string :=
  let ukTime := parseLocal tz uk in
  let hour := getHours tz ukTime in
  if (12 <=? hour) && (hour <? 17) then JS.String_of_Z (hour + 1) +:+ ":00"
  else "12:00".

(** ** Constants of the client *)

Definition SESSION_PATH : string := "/tmp/ups-session.json".
Definition SCREENSHOT_DIR : string := "/home/USER/biz/.playwright-mcp".
Definition USER_DATA_DIR : string := "/tmp/ups-browser-profile".

Definition UPS_LOGIN_URL : string :=
  "https://www.ups.com/lasso/login?loc=en_GB&returnto=https://wwwapps.ups.com/pickup/schedule?loc=en_GB".
Definition UPS_FORM_URL : string :=
  "https://wwwapps.ups.com/pickup/schedule?loc=en_GB".

Module DEFAULTS.
Definition company : string := "YOUR_COMPANY".
Definition address : string :=
  "YOUR_WAREHOUSE_ADDRESS_LINE_1, YOUR_WAREHOUSE_ADDRESS_LINE_2".
Definition city : string := "YOUR_CITY".
Definition postalCode : string := "YOUR_POSTCODE".
Definition telephone : string := "YOUR_PHONE_NUMBER".
Definition collectFrom : string := "Front Door".
Definition email : string := "YOUR_LOGISTICS_EMAIL".
Definition paymentAccount : string := "YOUR_UPS_ACCOUNT".
End DEFAULTS.

(** ** Data model *)

Record SessionInfo := {
  wsEndpoint : string;
  createdAt : string;
  formFilled : bool;
  loggedIn : bool;
}.

(** [Partial<SessionInfo>], the argument of [updateSession]. *)
Record SessionUpdate := {
  updWsEndpoint : option string;
  updCreatedAt : option string;
  updFormFilled : option bool;
  updLoggedIn : option bool;
}.

Record Config := {
  username : string;
  password : string;
}.

Module FillFormOptions.
Record t := {
  date : option string;
  packages : option Z;
  weight : option Z;
  earliestTime : option string;
  latestTime : option string;
  doorCode : option string;
  specialInstructions : option string;
}.
End FillFormOptions.

Module ScreenshotOptions.
Record t := {
  filename : option string;
  fullPage : option bool;
}.
End ScreenshotOptions.

Module FormState.
Record t := {
  date : string;
  packages : Z;
  weight : Z;
  earliestTime : string;
  latestTime : string;
  specialInstructions : option string;
  company : string;
  address : string;
  city : string;
  postalCode : string;
}.
End FormState.

(** What the script of [extractConfirmation] builds in the page: three
    nullable fields and the first 3000 characters of the page text. *)
Record Extracted := {
  confirmationNumber : option string;
  totalCharges : option string;
  collectionDate : option string;
  pageText : string;
}.

(** What [extractConfirmation] hands back: that record, or the fallback
    object, which has a text only. *)
Inductive Confirmation :=
| Details (e : Extracted)
| TextOnly (text : string).

(** The value of a call as its caller sees it, for the functions whose
    declared result is [void]. *)
Inductive JSValue :=
| JSUndefined
| JSBoolean (b : bool).

(** The object literals the operations return.  A key that the literal does
    not have is [None] (or [false] for the two discriminators). *)
Record BookingResult := {
  success : bool;
  error : bool;
  message : option string;
  screenshot : option string;
  reviewScreenshot : option string;
  fillScreenshot : option string;
  confirmationScreenshot : option string;
  errorScreenshot : option string;
  formState : option FormState.t;
  confirmation : option Confirmation;
}.

Definition present {A : Type} (o : option A) : bool :=
  match o with Some _ => true | None => false end.

(** A result carries a screenshot reference when one of its screenshot keys
    is there. *)
Definition hasScreenshot (r : BookingResult) : bool :=
  present (screenshot r) || present (reviewScreenshot r) ||
  present (fillScreenshot r) || present (confirmationScreenshot r) ||
  present (errorScreenshot r).

(** ** The world the client runs in *)

(** Handles of the browser library. *)
Definition Page := nat.
Definition Element := nat.

Record Context := {
  pages : list Page;
}.

(** A browser handle: the contexts it reports and what the optional call
    [wsEndpoint?.()] evaluates to. *)
Record Browser := {
  contexts : list Context;
  browserWsEndpoint : option string;
}.

(** The scripts handed to [page.evaluate], by what they do, with the
    arguments passed in from the client. *)
Inductive Script :=
| RemoveOverlays
| RemoveRemainingOverlays
| ClickDifferentAddressByLabel
| SelectDateOption (date : string)
| SelectDayAndMonth (date : string)
| SelectEarliestHour (hour : string)
| ScrollToBottom
| ClickNextButton
| ClickSubmitButton
| ExtractConfirmation.

(** Every call the client issues to the file system or to the browser. *)
Inductive Event :=
| EvMkdir (path : string)
| EvUnlink (path : string)
| EvWriteFile (path : string)
| EvConnectOverCDP (endpoint : string)
| EvLaunch
| EvNewContext
| EvNewPage
| EvBrowserClose
| EvGoto (p : Page) (url : string)
| EvWaitForTimeout (p : Page) (ms : Z)
| EvWaitForLoadState (p : Page) (state : string)
| EvWaitForLogin (p : Page)
| EvEvaluate (p : Page) (script : Script)
| EvQuery (p : Page) (selector : string)
| EvWaitForSelector (p : Page) (selector : string) (timeout : Z)
| EvScreenshot (p : Page) (path : string) (fullPage : bool)
| EvElementQuery (el : Element) (selector : string)
| EvGetAttribute (el : Element) (name : string)
| EvIsVisible (el : Element)
| EvScrollIntoView (el : Element)
| EvClick (el : Element)
| EvFill (el : Element) (value : string)
| EvSelectOption (el : Element) (label : string).

(** The calls that reach the page: everything but the file system and the
    life cycle of the browser. *)
Definition isPageInteraction (e : Event) : bool :=
  match e with
  | EvMkdir _ | EvUnlink _ | EvWriteFile _ | EvConnectOverCDP _
  | EvLaunch | EvNewContext | EvNewPage | EvBrowserClose => false
  | _ => true
  end.

(** A file is a directory, a JSON session descriptor, or bytes that
    [JSON.parse] rejects (a lock file, a truncated descriptor). *)
Inductive FileData :=
| Dir
| Bytes
| Json (s : SessionInfo).

Record World := {
  fs : gmap string FileData;
  config : Config;
  this_browser : option Browser;
  this_context : option Context;
  this_page : option Page;
  trace : list Event;
}.

Definition setFs (f : gmap string FileData) (w : World) : World :=
  {| fs := f; config := config w; this_browser := this_browser w;
     this_context := this_context w; this_page := this_page w; trace := trace w |}.
Definition setBrowser (b : option Browser) (w : World) : World :=
  {| fs := fs w; config := config w; this_browser := b;
     this_context := this_context w; this_page := this_page w; trace := trace w |}.
Definition setContext (c : option Context) (w : World) : World :=
  {| fs := fs w; config := config w; this_browser := this_browser w;
     this_context := c; this_page := this_page w; trace := trace w |}.
Definition setPage (p : option Page) (w : World) : World :=
  {| fs := fs w; config := config w; this_browser := this_browser w;
     this_context := this_context w; this_page := p; trace := trace w |}.
Definition setTrace (t : list Event) (w : World) : World :=
  {| fs := fs w; config := config w; this_browser := this_browser w;
     this_context := this_context w; this_page := this_page w; trace := t |}.

(** A call joins the trace at its end. *)
Definition record (e : Event) (w : World) : World :=
  setTrace (trace w ++ [e])%list w.

(** The outcome of a call: a value, or a thrown error with its message. *)
Inductive Res (A : Type) :=
| Ok (a : A)
| Throw (msg : string).
Arguments Ok {A} a.
Arguments Throw {A} msg.

(** What the outside answers.  Each answer is a function of the calls issued
    so far, the last of which is the call being answered; the two clocks are
    read without a call. *)
Record Env := {
  envTz : Z;
  envNow : list Event -> Z;
  envUK : list Event -> WallClock;
  envBrowser : list Event -> Res Browser;
  envContext : list Event -> Res Context;
  envPage : list Event -> Res Page;
  envUnit : list Event -> Res unit;
  envElement : list Event -> Res (option Element);
  envAttribute : list Event -> Res (option string);
  envBool : list Event -> Res bool;
  envExtracted : list Event -> Res Extracted;
}.

(** ** The monad of client code *)

Definition M (A : Type) : Type := World -> Res A * World.

Definition ret {A : Type} (a : A) : M A := fun w => (Ok a, w).

Definition throw {A : Type} (msg : string) : M A := fun w => (Throw msg, w).

Definition bind {A B : Type} (m : M A) (f : A -> M B) : M B :=
  fun w =>
    match m w with
    | (Ok a, w') => f a w'
    | (Throw msg, w') => (Throw msg, w')
    end.

(** [try { m } catch (e) { h e.message }]. *)
Definition tryCatch {A : Type} (m : M A) (h : string -> M A) : M A :=
  fun w =>
    match m w with
    | (Ok a, w') => (Ok a, w')
    | (Throw msg, w') => h msg w'
    end.

Declare Scope client_scope.
Delimit Scope client_scope with client.
Notation "x <- m ;; k" := (bind m (fun x => k))
  (at level 100, m at next level, right associativity) : client_scope.
Notation "m ;; k" := (bind m (fun _ => k))
  (at level 100, right associativity) : client_scope.
Local Open Scope client_scope.

Definition get {A : Type} (f : World -> A) : M A := fun w => (Ok (f w), w).
Definition modify (f : World -> World) : M unit := fun w => (Ok tt, f w).
Definition when (b : bool) (m : M unit) : M unit := if b then m else ret tt.

(** Swallow whatever [m] throws: [try { m } catch { }]. *)
Definition ignoreErrors (m : M unit) : M unit := tryCatch m (fun _ => ret tt).

(** The special instructions of [fillForm]: the caller's text when it is
    truthy, else the door code in its frame when that is truthy, else what
    the caller passed (nothing, or the empty text). *)
Definition buildSpecialInstructions (options : FillFormOptions.t) : option string :=
  let specialInstructions := FillFormOptions.specialInstructions options in
  if negb (JS.truthy specialInstructions) && JS.truthy (FillFormOptions.doorCode options)
  then Some ("Door code * " +:+ default "" (FillFormOptions.doorCode options) +:+ " #")
  else specialInstructions.


Section Client.

Variable env : Env.

(** Issue a call: it joins the trace, and the outside answers. *)
Definition perform {A : Type} (answer : Env -> list Event -> Res A) (e : Event) : M A :=
  fun w => let w' := record e w in (answer env (trace w'), w').

Definition DateNow : M Z := get (fun w => envNow env (trace w)).
Definition ukWallClock : M WallClock := get (fun w => envUK env (trace w)).

(** *** File system *)

Definition existsSync (path : string) : M bool :=
  get (fun w => present (fs w !! path)).

Definition mkdirSync (path : string) : M unit :=
  fun w => (Ok tt, setFs (<[path := Dir]> (fs w)) (record (EvMkdir path) w)).

Definition unlinkSync (path : string) : M unit :=
  fun w =>
    let w' := record (EvUnlink path) w in
    match fs w !! path with
    | Some _ => (Ok tt, setFs (delete path (fs w)) w')
    | None => (Throw ("ENOENT: no such file or directory, unlink " +:+ path), w')
    end.

Definition writeSession (path : string) (s : SessionInfo) : M unit :=
  fun w => (Ok tt, setFs (<[path := Json s]> (fs w)) (record (EvWriteFile path) w)).

(** [JSON.parse(readFileSync(path, "utf-8"))]. *)
Definition readSession (path : string) : M SessionInfo :=
  fun w =>
    match fs w !! path with
    | Some (Json s) => (Ok s, w)
    | Some Bytes => (Throw "Unexpected token in JSON", w)
    | Some Dir => (Throw "EISDIR: illegal operation on a directory, read", w)
    | None => (Throw ("ENOENT: no such file or directory, open " +:+ path), w)
    end.

(** *** Session store *)

Definition singletonFiles : list string :=
  ["SingletonLock"; "SingletonSocket"; "SingletonCookie"].

Fixpoint cleanSingletons (files : list string) : M unit :=
  match files with
  | [] => ret tt
  | file :: rest =>
      let filePath := USER_DATA_DIR +:+ "/" +:+ file in
      there <- existsSync filePath ;;
      when there (ignoreErrors (unlinkSync filePath)) ;;
      cleanSingletons rest
  end.

(** The [try] block of [ensureBrowser]: [Some p] is the early [return]. *)
Definition reconnect : M (option Page) :=
  session <- readSession SESSION_PATH ;;
  b <- perform envBrowser (EvConnectOverCDP (wsEndpoint session)) ;;
  modify (setBrowser (Some b)) ;;
  match contexts b with
  | c :: _ =>
      modify (setContext (Some c)) ;;
      match pages c with
      | p :: _ => modify (setPage (Some p)) ;; ret (Some p)
      | [] => ret None
      end
  | [] => ret None
  end.

(** [ensureBrowser] from the clean-up of the singleton files on. *)
Definition freshLaunch : M Page :=
  cleanSingletons singletonFiles ;;
  b <- perform envBrowser EvLaunch ;;
  modify (setBrowser (Some b)) ;;
  c <- perform envContext EvNewContext ;;
  modify (setContext (Some c)) ;;
  p <- perform envPage EvNewPage ;;
  modify (setPage (Some p)) ;;
  match browserWsEndpoint b with
  | Some ws =>
      when (JS.truthy (Some ws))
        (now <- DateNow ;;
         writeSession SESSION_PATH
           {| wsEndpoint := ws; createdAt := toISOString now;
              formFilled := false; loggedIn := false |})
  | None => ret tt
  end ;;
  ret p.

Definition ensureBrowser : M Page :=
  there <- existsSync USER_DATA_DIR ;;
  when (negb there) (mkdirSync USER_DATA_DIR) ;;
  saved <- existsSync SESSION_PATH ;;
  found <-
    (if saved then
       tryCatch reconnect
         (fun _ => ignoreErrors (unlinkSync SESSION_PATH) ;; ret None)
     else ret None) ;;
  match found with
  | Some p => ret p
  | None => freshLaunch
  end.

Definition applyUpdate (u : SessionUpdate) (s : SessionInfo) : SessionInfo :=
  {| wsEndpoint := default (wsEndpoint s) (updWsEndpoint u);
     createdAt := default (createdAt s) (updCreatedAt u);
     formFilled := default (formFilled s) (updFormFilled u);
     loggedIn := default (loggedIn s) (updLoggedIn u) |}.

Definition updateSession (updates : SessionUpdate) : M unit :=
  saved <- existsSync SESSION_PATH ;;
  when saved
    (session <- readSession SESSION_PATH ;;
     writeSession SESSION_PATH (applyUpdate updates session)).

(** *** Calls on the page and on element handles *)

Definition goto (p : Page) (url : string) : M unit := perform envUnit (EvGoto p url).
Definition waitForTimeout (p : Page) (ms : Z) : M unit :=
  perform envUnit (EvWaitForTimeout p ms).
Definition waitForLoadState (p : Page) (state : string) : M unit :=
  perform envUnit (EvWaitForLoadState p state).
Definition evaluate (p : Page) (script : Script) : M unit :=
  perform envUnit (EvEvaluate p script).
Definition query (p : Page) (selector : string) : M (option Element) :=
  perform envElement (EvQuery p selector).
Definition waitForSelector (p : Page) (selector : string) (timeout : Z) : M (option Element) :=
  perform envElement (EvWaitForSelector p selector timeout).
Definition pageScreenshot (p : Page) (path : string) (fullPage : bool) : M unit :=
  perform envUnit (EvScreenshot p path fullPage).
Definition elementQuery (el : Element) (selector : string) : M (option Element) :=
  perform envElement (EvElementQuery el selector).
Definition getAttribute (el : Element) (name : string) : M (option string) :=
  perform envAttribute (EvGetAttribute el name).
Definition isVisible (el : Element) : M bool := perform envBool (EvIsVisible el).
Definition scrollIntoViewIfNeeded (el : Element) : M unit :=
  perform envUnit (EvScrollIntoView el).
Definition click (el : Element) : M unit := perform envUnit (EvClick el).
Definition fill (el : Element) (value : string) : M unit := perform envUnit (EvFill el value).
Definition selectOptionByLabel (el : Element) (label : string) : M unit :=
  perform envUnit (EvSelectOption el label).

(** [`${SCREENSHOT_DIR}/${stem}-${Date.now()}.png`]. *)
Definition stampedPath (stem : string) : M string :=
  now <- DateNow ;;
  ret (SCREENSHOT_DIR +:+ "/" +:+ stem +:+ "-" +:+ JS.String_of_Z now +:+ ".png").

(** *** Consent handler *)

Definition hasText (tag text : string) : string :=
  tag +:+ ":has-text(" +:+ JS.quoted text +:+ ")".

Definition cookieButtonSelectors : list string :=
  [ "#onetrust-accept-btn-handler";
    "#accept-recommended-btn-handler";
    "button[id*=" +:+ JS.quoted "accept" +:+ "]";
    hasText "button" "Accept All";
    hasText "button" "Accept Cookies";
    hasText "button" "Accept";
    hasText "button" "I Agree";
    hasText "button" "Got it" ].

(** The loop over the accept buttons: it stops at the first button that was
    found, clicked and waited for; a throw moves on to the next selector. *)
Fixpoint clickCookieButton (p : Page) (selectors : list string) : M unit :=
  match selectors with
  | [] => ret tt
  | selector :: rest =>
      done <- tryCatch
                (button <- query p selector ;;
                 match button with
                 | Some b => click b ;; waitForTimeout p 500 ;; ret true
                 | None => ret false
                 end)
                (fun _ => ret false) ;;
      if (done : bool) then ret tt else clickCookieButton p rest
  end.

Definition dismissCookieBanners (p : Page) : M unit :=
  waitForTimeout p 2000 ;;
  ignoreErrors (evaluate p RemoveOverlays) ;;
  clickCookieButton p cookieButtonSelectors ;;
  ignoreErrors (evaluate p RemoveRemainingOverlays).

(** *** Authenticator *)

Definition attrIs (tag attr value : string) : string :=
  tag +:+ "[" +:+ attr +:+ "=" +:+ JS.quoted value +:+ "]".
Definition attrHas (tag attr value : string) : string :=
  tag +:+ "[" +:+ attr +:+ "*=" +:+ JS.quoted value +:+ "]".
Definition attrHasI (tag attr value : string) : string :=
  tag +:+ "[" +:+ attr +:+ "*=" +:+ JS.quoted value +:+ " i]".

Definition usernameSelectors : list string :=
  [ attrIs "input" "name" "username";
    attrIs "input" "id" "username";
    attrIs "input" "type" "email";
    attrIs "input" "name" "email";
    "#email";
    attrHas "input" "id" "email";
    attrHasI "input" "placeholder" "email";
    attrHasI "input" "placeholder" "username" ].

Definition passwordSelectors : list string :=
  [ attrIs "input" "type" "password";
    attrIs "input" "name" "password";
    "#password";
    attrHas "input" "id" "password" ].

Definition continueButtonSelector : string :=
  attrIs "button" "type" "submit" +:+ ", " +:+ hasText "button" "Continue" +:+ ", " +:+
  hasText "button" "Next" +:+ ", " +:+ attrIs "input" "type" "submit".

Definition loginButtonSelector : string :=
  attrIs "button" "type" "submit" +:+ ", " +:+ attrIs "input" "type" "submit" +:+ ", " +:+
  hasText "button" "Log In" +:+ ", " +:+ hasText "button" "Sign In" +:+ ", " +:+
  hasText "button" "Continue".

(** The loops over the field selectors: the first selector whose wait hands
    back an element wins; a timeout moves on to the next one. *)
Fixpoint waitForFirst (p : Page) (selectors : list string) (timeout : Z) : M (option Element) :=
  match selectors with
  | [] => ret None
  | selector :: rest =>
      field <- tryCatch (waitForSelector p selector timeout) (fun _ => ret None) ;;
      match field with
      | Some f => ret (Some f)
      | None => waitForFirst p rest timeout
      end
  end.

Definition failWithScreenshot {A : Type} (p : Page) (stem what : string) : M A :=
  errorScreenshot <- stampedPath stem ;;
  pageScreenshot p errorScreenshot true ;;
  throw (what +:+ " See screenshot: " +:+ errorScreenshot).

Definition login : M bool :=
  page <- ensureBrowser ;;
  goto page UPS_LOGIN_URL ;;
  waitForTimeout page 5000 ;;
  dismissCookieBanners page ;;
  loginScreenshot <- stampedPath "ups-login-page" ;;
  pageScreenshot page loginScreenshot true ;;
  usernameField <- waitForFirst page usernameSelectors 10000 ;;
  match usernameField with
  | None =>
      failWithScreenshot page "ups-login-error-no-username" "Could not find username field."
  | Some usernameField =>
      cfg <- get config ;;
      fill usernameField (username cfg) ;;
      continueButton <- query page continueButtonSelector ;;
      match continueButton with
      | Some b => click b ;; waitForTimeout page 2000 ;; dismissCookieBanners page
      | None => ret tt
      end ;;
      passwordField <- waitForFirst page passwordSelectors 15000 ;;
      match passwordField with
      | None =>
          failWithScreenshot page "ups-login-error-no-password" "Could not find password field."
      | Some passwordField =>
          fill passwordField (password cfg) ;;
          loginButton <- query page loginButtonSelector ;;
          match loginButton with
          | Some b => click b
          | None => ret tt
          end ;;
          tryCatch (perform envUnit (EvWaitForLogin page))
            (fun _ => failWithScreenshot page "ups-login-error" "Login failed.") ;;
          updateSession {| updWsEndpoint := None; updCreatedAt := None;
                           updFormFilled := None; updLoggedIn := Some true |} ;;
          ret true
      end
  end.

(** *** Element resolver *)

Definition joinSelectors (l : list string) : string := String.concat ", " l.

Definition byAriaLabel (label : string) : string :=
  joinSelectors [attrHasI "input" "aria-label" label; attrHasI "textarea" "aria-label" label].
Definition byPlaceholder (label : string) : string :=
  joinSelectors [attrHasI "input" "placeholder" label; attrHasI "textarea" "placeholder" label].
Definition byLabelText (label : string) : string := hasText "label" label.
Definition siblingField : string :=
  "xpath=following-sibling::input | following-sibling::textarea | ../input | ../textarea".
Definition nameOf (label : string) : string := JS.stripSpaces (JS.toLowerCase label).
Definition byName (label : string) : string :=
  joinSelectors [attrHasI "input" "name" (nameOf label); attrHasI "textarea" "name" (nameOf label)].

(** Fill [field] when it is there; the result tells whether [fillField]
    returns at this point. *)
Definition fillIfFound (field : option Element) (value : string) : M bool :=
  match field with
  | Some f => fill f value ;; ret true
  | None => ret false
  end.

(** The four strategies of [fillField] for one label variant, the body of
    its [try]. *)
Definition fillByLabel (p : Page) (label value : string) : M bool :=
  field <- query p (byAriaLabel label) ;;
  done <- fillIfFound field value ;;
  if (done : bool) then ret true else
  field <- query p (byPlaceholder label) ;;
  done <- fillIfFound field value ;;
  if (done : bool) then ret true else
  labelEl <- query p (byLabelText label) ;;
  done <-
    match labelEl with
    | Some labelEl =>
        forAttr <- getAttribute labelEl "for" ;;
        done <-
          (if JS.truthy forAttr then
             field <- query p ("#" +:+ default "" forAttr) ;;
             fillIfFound field value
           else ret false) ;;
        if (done : bool) then ret true else
        field <- elementQuery labelEl siblingField ;;
        fillIfFound field value
    | None => ret false
    end ;;
  if (done : bool) then ret true else
  field <- query p (byName label) ;;
  fillIfFound field value.

(** The loop of [fillField] over the label variants; [true] when a variant
    filled the field. *)
Fixpoint fillAny (p : Page) (labelVariants : list string) (value : string) : M bool :=
  match labelVariants with
  | [] => ret false
  | label :: rest =>
      done <- tryCatch (fillByLabel p label value) (fun _ => ret false) ;;
      if (done : bool) then ret true else fillAny p rest value
  end.

(** [fillField]: declared [Promise<void>], so a hit and a miss hand the
    caller the same [undefined]. *)
Definition fillField (p : Page) (labelVariants : list string) (value : string) : M JSValue :=
  fillAny p labelVariants value ;;
  ret JSUndefined.

Definition selectByLabel (p : Page) (label value : string) : M bool :=
  select <- query p (joinSelectors [attrHasI "select" "aria-label" label;
                                    attrHasI "select" "name" (nameOf label)]) ;;
  match select with
  | Some sel => selectOptionByLabel sel value ;; ret true
  | None =>
      radio <- query p (joinSelectors
                          [ "input[type=" +:+ JS.quoted "radio" +:+ "][value*=" +:+
                              JS.quoted value +:+ " i]";
                            hasText "label" value +:+ " " +:+ attrIs "input" "type" "radio" ]) ;;
      match radio with
      | Some r => click r ;; ret true
      | None => ret false
      end
  end.

Fixpoint selectAny (p : Page) (labelVariants : list string) (value : string) : M bool :=
  match labelVariants with
  | [] => ret false
  | label :: rest =>
      done <- tryCatch (selectByLabel p label value) (fun _ => ret false) ;;
      if (done : bool) then ret true else selectAny p rest value
  end.

Definition selectOption (p : Page) (labelVariants : list string) (value : string) : M JSValue :=
  selectAny p labelVariants value ;;
  ret JSUndefined.

(** *** Form filler *)

Definition radioInput : string := attrIs "input" "type" "radio".

Definition differentAddressSelectors : list string :=
  [ radioInput +:+ "[value=" +:+ JS.quoted "NEW" +:+ "]";
    radioInput +:+ "[id*=" +:+ JS.quoted "different" +:+ "]";
    radioInput +:+ "[id*=" +:+ JS.quoted "new" +:+ "]";
    hasText "label" "different collection address" +:+ " " +:+ radioInput;
    hasText "label" "A different collection" +:+ " " +:+ radioInput ].

(** The loop over the radio selectors.  [radioClicked] is the flag of the
    source: it is set right after the click, so it stays set when the wait
    that follows throws and the loop goes on; the second component of a
    round tells whether the round ended in [break]. *)
Fixpoint clickDifferentAddress (p : Page) (selectors : list string) (radioClicked : bool)
  : M bool :=
  match selectors with
  | [] => ret radioClicked
  | selector :: rest =>
      round <- tryCatch
                 (radio <- query p selector ;;
                  match radio with
                  | Some r =>
                      click r ;;
                      tryCatch (waitForTimeout p 1000 ;; ret (true, true))
                               (fun _ => ret (true, false))
                  | None => ret (radioClicked, false)
                  end)
                 (fun _ => ret (radioClicked, false)) ;;
      if (snd round : bool) then ret (fst round)
      else clickDifferentAddress p rest (fst round)
  end.

(** The fields of the form, one resolver call after the other. *)
Definition fillCollectionFields (p : Page) (packages weight : Z)
    (specialInstructions : option string) : M unit :=
  fillField p ["Company"; "Company Name"; "company"] DEFAULTS.company ;;
  fillField p ["Address Line 1"; "Address"; "Street Address"; "addressLine1"] DEFAULTS.address ;;
  fillField p ["City"; "Town"; "city"] DEFAULTS.city ;;
  fillField p ["Postal Code"; "Postcode"; "ZIP"; "postalCode"] DEFAULTS.postalCode ;;
  fillField p ["Telephone"; "Phone"; "Contact Number"; "telephone"] DEFAULTS.telephone ;;
  fillField p ["Package"; "Packages"; "Number of Packages"] (JS.String_of_Z packages) ;;
  fillField p ["Weight"; "Total Weight"] (JS.String_of_Z weight) ;;
  when (JS.truthy specialInstructions)
    (fillField p ["Special Instructions"; "Instructions"; "Notes"]
       (default "" specialInstructions) ;; ret tt) ;;
  selectOption p ["Preferred Collection Location"; "Collect From"; "Collection Location"]
    "Front Door" ;;
  fillField p ["Email"; "Notification Email"; "email"] DEFAULTS.email ;;
  ret tt.

(** The [try] block of [fillForm]. *)
Definition fillFormBody (p : Page) (date earliestTime : string) (packages weight : Z)
    (specialInstructions : option string) : M unit :=
  radioClicked <- clickDifferentAddress p differentAddressSelectors false ;;
  when (negb radioClicked)
    (evaluate p ClickDifferentAddressByLabel ;; waitForTimeout p 1000) ;;
  fillCollectionFields p packages weight specialInstructions ;;
  evaluate p (SelectDateOption date) ;;
  evaluate p (SelectDayAndMonth date) ;;
  waitForTimeout p 500 ;;
  when (JS.truthy (Some earliestTime))
    (evaluate p (SelectEarliestHour (JS.beforeChar ":" earliestTime))).

Definition fillError (msg errorScreenshot : string) : BookingResult :=
  {| success := false; error := true;
     message := Some ("Form fill error: " +:+ msg);
     screenshot := Some errorScreenshot;
     reviewScreenshot := None; fillScreenshot := None;
     confirmationScreenshot := None; errorScreenshot := None;
     formState := None; confirmation := None |}.

Definition fillSuccess (previewScreenshot : string) (state : FormState.t) : BookingResult :=
  {| success := true; error := false;
     message := Some "Form filled successfully. Please review the screenshot before calling submit.";
     screenshot := Some previewScreenshot;
     reviewScreenshot := None; fillScreenshot := None;
     confirmationScreenshot := None; errorScreenshot := None;
     formState := Some state; confirmation := None |}.

Definition fillForm (options : FillFormOptions.t) : M BookingResult :=
  page <- ensureBrowser ;;
  login ;;
  goto page UPS_FORM_URL ;;
  dismissCookieBanners page ;;
  waitForTimeout page 3000 ;;
  uk <- ukWallClock ;;
  let date := JS.orElse (FillFormOptions.date options) (getSmartDate (envTz env) uk) in
  let earliestTime :=
    JS.orElse (FillFormOptions.earliestTime options) (getSmartEarliestTime (envTz env) uk) in
  let packages := JS.orElseZ (FillFormOptions.packages options) 1 in
  let weight := JS.orElseZ (FillFormOptions.weight options) 10 in
  let specialInstructions := buildSpecialInstructions options in
  initialScreenshot <- stampedPath "ups-form-initial" ;;
  pageScreenshot page initialScreenshot true ;;
  failed <- tryCatch
              (fillFormBody page date earliestTime packages weight specialInstructions ;;
               ret None)
              (fun msg =>
                 errorScreenshot <- stampedPath "ups-form-error" ;;
                 pageScreenshot page errorScreenshot true ;;
                 ret (Some (fillError msg errorScreenshot))) ;;
  match failed with
  | Some failure => ret failure
  | None =>
      previewScreenshot <- stampedPath "ups-form-preview" ;;
      pageScreenshot page previewScreenshot true ;;
      updateSession {| updWsEndpoint := None; updCreatedAt := None;
                       updFormFilled := Some true; updLoggedIn := None |} ;;
      ret (fillSuccess previewScreenshot
             {| FormState.date := date;
                FormState.packages := packages;
                FormState.weight := weight;
                FormState.earliestTime := earliestTime;
                FormState.latestTime := JS.orElse (FillFormOptions.latestTime options) "18:00";
                FormState.specialInstructions := specialInstructions;
                FormState.company := DEFAULTS.company;
                FormState.address := DEFAULTS.address;
                FormState.city := DEFAULTS.city;
                FormState.postalCode := DEFAULTS.postalCode |})
  end.

(** *** Screenshots *)

Definition takeScreenshot (options : option ScreenshotOptions.t) : M BookingResult :=
  page <- ensureBrowser ;;
  now <- DateNow ;;
  let filename :=
    JS.orElse (options ≫= ScreenshotOptions.filename)
              ("ups-" +:+ JS.String_of_Z now +:+ ".png") in
  let screenshotPath := SCREENSHOT_DIR +:+ "/" +:+ filename in
  pageScreenshot page screenshotPath (default false (options ≫= ScreenshotOptions.fullPage)) ;;
  ret {| success := true; error := false; message := None;
         screenshot := Some screenshotPath;
         reviewScreenshot := None; fillScreenshot := None;
         confirmationScreenshot := None; errorScreenshot := None;
         formState := None; confirmation := None |}.

(** *** Submission pipeline *)

Definition extractConfirmation (p : Page) : M Confirmation :=
  tryCatch
    (e <- perform envExtracted (EvEvaluate p ExtractConfirmation) ;; ret (Details e))
    (fun _ => ret (TextOnly "Unable to extract confirmation details")).

Definition notFilledError : BookingResult :=
  {| success := false; error := true;
     message := Some "Form has not been filled yet. Call fill-form first.";
     screenshot := None;
     reviewScreenshot := None; fillScreenshot := None;
     confirmationScreenshot := None; errorScreenshot := None;
     formState := None; confirmation := None |}.

Definition nextButtonSelector : string :=
  joinSelectors [hasText "button" "Next"; hasText "button" "Continue";
                 hasText "button" "Review"; attrIs "button" "type" "submit"].

Definition submitButtonSelector : string :=
  joinSelectors [hasText "button" "Submit"; hasText "button" "Confirm";
                 hasText "button" "Schedule"; attrIs "button" "type" "submit"].

(** The [try] block of [submit]. *)
Definition submitBody (page : Page) : M BookingResult :=
  nextButton <- query page nextButtonSelector ;;
  match nextButton with
  | Some b => click b ;; waitForLoadState page "networkidle" ;; waitForTimeout page 2000
  | None => ret tt
  end ;;
  reviewScreenshot <- stampedPath "ups-review" ;;
  pageScreenshot page reviewScreenshot true ;;
  submitButton <- query page submitButtonSelector ;;
  match submitButton with
  | Some b => click b ;; waitForLoadState page "networkidle" ;; waitForTimeout page 3000
  | None => ret tt
  end ;;
  confirmationScreenshot <- stampedPath "ups-confirmation" ;;
  pageScreenshot page confirmationScreenshot true ;;
  confirmation <- extractConfirmation page ;;
  ret {| success := true; error := false;
         message := Some "Collection submitted successfully.";
         screenshot := Some confirmationScreenshot;
         reviewScreenshot := Some reviewScreenshot; fillScreenshot := None;
         confirmationScreenshot := None; errorScreenshot := None;
         formState := None; confirmation := Some confirmation |}.

Definition submit : M BookingResult :=
  page <- ensureBrowser ;;
  saved <- existsSync SESSION_PATH ;;
  notFilled <-
    (if saved then
       session <- readSession SESSION_PATH ;;
       ret (negb (formFilled session))
     else ret false) ;;
  if (notFilled : bool) then ret notFilledError
  else
    tryCatch (submitBody page)
      (fun msg =>
         errorScreenshot <- stampedPath "ups-submit-error" ;;
         pageScreenshot page errorScreenshot true ;;
         ret {| success := false; error := true;
                message := Some ("Submit failed: " +:+ msg);
                screenshot := Some errorScreenshot;
                reviewScreenshot := None; fillScreenshot := None;
                confirmationScreenshot := None; errorScreenshot := None;
                formState := None; confirmation := None |}).

(** *** Session management *)

Definition reset : M BookingResult :=
  tryCatch
    (b <- get this_browser ;;
     match b with
     | Some _ =>
         perform envUnit EvBrowserClose ;;
         modify (setBrowser None) ;;
         modify (setContext None) ;;
         modify (setPage None)
     | None => ret tt
     end ;;
     saved <- existsSync SESSION_PATH ;;
     when saved (unlinkSync SESSION_PATH) ;;
     ret {| success := true; error := false;
            message := Some "Browser session closed and cleared.";
            screenshot := None;
            reviewScreenshot := None; fillScreenshot := None;
            confirmationScreenshot := None; errorScreenshot := None;
            formState := None; confirmation := None |})
    (fun msg =>
       ret {| success := false; error := true;
              message := Some ("Reset failed: " +:+ msg);
              screenshot := None;
              reviewScreenshot := None; fillScreenshot := None;
              confirmationScreenshot := None; errorScreenshot := None;
              formState := None; confirmation := None |}).

(** *** Booking in one step *)

Definition nextSelectors : list string :=
  [ "button.ups-cta_primary" +:+ hasText "" "Next";
    attrHas "button" "class" "primary" +:+ hasText "" "Next";
    hasText "button" "Next" +:+ ":visible";
    "#btnNext";
    hasText "button" "Next" ].

Definition submitSelectors : list string :=
  [ "button.ups-cta_primary" +:+ hasText "" "Schedule";
    attrHas "button" "class" "primary" +:+ hasText "" "Schedule";
    hasText "button" "Schedule Pickup";
    hasText "button" "Submit";
    hasText "button" "Confirm";
    "#btnSubmit" ].

(** The loops of [book] over the button selectors: [true] when a visible
    button was clicked. *)
Fixpoint clickFirstVisible (p : Page) (selectors : list string) : M bool :=
  match selectors with
  | [] => ret false
  | selector :: rest =>
      clicked <- tryCatch
                   (button <- query p selector ;;
                    match button with
                    | Some b =>
                        visible <- isVisible b ;;
                        if (visible : bool)
                        then scrollIntoViewIfNeeded b ;; click b ;; ret true
                        else ret false
                    | None => ret false
                    end)
                   (fun _ => ret false) ;;
      if (clicked : bool) then ret true else clickFirstVisible p rest
  end.

(** The [try] block of [book]. *)
Definition bookBody (page : Page) (fillResult : BookingResult) : M BookingResult :=
  dismissCookieBanners page ;;
  evaluate page ScrollToBottom ;;
  waitForTimeout page 1000 ;;
  clicked <- clickFirstVisible page nextSelectors ;;
  when (negb clicked) (evaluate page ClickNextButton) ;;
  waitForLoadState page "domcontentloaded" ;;
  waitForTimeout page 3000 ;;
  dismissCookieBanners page ;;
  reviewScreenshot <- stampedPath "ups-review" ;;
  pageScreenshot page reviewScreenshot true ;;
  evaluate page ScrollToBottom ;;
  waitForTimeout page 500 ;;
  clicked <- clickFirstVisible page submitSelectors ;;
  when (negb clicked) (evaluate page ClickSubmitButton) ;;
  waitForLoadState page "domcontentloaded" ;;
  waitForTimeout page 5000 ;;
  confirmationScreenshot <- stampedPath "ups-confirmation" ;;
  pageScreenshot page confirmationScreenshot true ;;
  confirmation <- extractConfirmation page ;;
  reset ;;
  ret {| success := true; error := false;
         message := Some "Collection booked successfully.";
         screenshot := None;
         reviewScreenshot := Some reviewScreenshot;
         fillScreenshot := screenshot fillResult;
         confirmationScreenshot := Some confirmationScreenshot;
         errorScreenshot := None;
         formState := formState fillResult;
         confirmation := Some confirmation |}.

Definition book (options : FillFormOptions.t) : M BookingResult :=
  fillResult <- fillForm options ;;
  if error fillResult then ret fillResult
  else
    current <- get this_page ;;
    match current with
    | Some p => waitForTimeout p 2000
    | None => ret tt
    end ;;
    current <- get this_page ;;
    match current with
    | None =>
        ret {| success := false; error := true;
               message := Some "Browser page not available after fill";
               screenshot := None;
               reviewScreenshot := None; fillScreenshot := None;
               confirmationScreenshot := None; errorScreenshot := None;
               formState := None; confirmation := None |}
    | Some page =>
        tryCatch (bookBody page fillResult)
          (fun msg =>
             errorScreenshot <- stampedPath "ups-book-error" ;;
             pageScreenshot page errorScreenshot true ;;
             ret {| success := false; error := true;
                    message := Some ("Booking failed during submit: " +:+ msg);
                    screenshot := None;
                    reviewScreenshot := None;
                    fillScreenshot := screenshot fillResult;
                    confirmationScreenshot := None;
                    errorScreenshot := Some errorScreenshot;
                    formState := None; confirmation := None |})
    end.

End Client.

(** ** Properties of runs, and the inputs of the examples *)

(** The time of day of a wall clock is a time of day. *)
Definition validTime (c : WallClock) : Prop :=
  0 <= wcHour c < 24 /\ 0 <= wcMinute c < 60 /\ 0 <= wcSecond c < 60.

(** The day number of the calendar day a wall clock shows. *)
Definition dayNumber (c : WallClock) : Z := MakeDay (wcYear c) (wcMonth c) (wcDay c).

Definition clockAt (y m d h mi : Z) : WallClock :=
  {| wcYear := y; wcMonth := m; wcDay := d; wcHour := h; wcMinute := mi; wcSecond := 0 |}.

(** British Summer Time: one hour ahead of UTC. *)
Definition BST : Z := msPerHour.

Definition noOptions : FillFormOptions.t :=
  {| FillFormOptions.date := None; FillFormOptions.packages := None;
     FillFormOptions.weight := None; FillFormOptions.earliestTime := None;
     FillFormOptions.latestTime := None; FillFormOptions.doorCode := None;
     FillFormOptions.specialInstructions := None |}.

Definition withPackages (n : option Z) (o : FillFormOptions.t) : FillFormOptions.t :=
  {| FillFormOptions.date := FillFormOptions.date o; FillFormOptions.packages := n;
     FillFormOptions.weight := FillFormOptions.weight o;
     FillFormOptions.earliestTime := FillFormOptions.earliestTime o;
     FillFormOptions.latestTime := FillFormOptions.latestTime o;
     FillFormOptions.doorCode := FillFormOptions.doorCode o;
     FillFormOptions.specialInstructions := FillFormOptions.specialInstructions o |}.

Definition withWeight (n : option Z) (o : FillFormOptions.t) : FillFormOptions.t :=
  {| FillFormOptions.date := FillFormOptions.date o;
     FillFormOptions.packages := FillFormOptions.packages o;
     FillFormOptions.weight := n;
     FillFormOptions.earliestTime := FillFormOptions.earliestTime o;
     FillFormOptions.latestTime := FillFormOptions.latestTime o;
     FillFormOptions.doorCode := FillFormOptions.doorCode o;
     FillFormOptions.specialInstructions := FillFormOptions.specialInstructions o |}.


(** [returns m P]: every value that [m] returns satisfies [P]. *)
Definition returns {A : Type} (m : M A) (P : A -> Prop) : Prop :=
  forall w a w', m w = (Ok a, w') -> P a.

(** [total m]: [m] returns a value from every world; it never throws. *)
Definition total {A : Type} (m : M A) : Prop :=
  forall w, exists a w', m w = (Ok a, w').

(** [mono le m]: every run of [m], thrown or not, ends in a world that is
    [le]-above the one it started in. *)
Definition mono (le : World -> World -> Prop) {A : Type} (m : M A) : Prop :=
  forall w r w', m w = (r, w') -> le w w'.

(** The trace of [w'] is the trace of [w] followed by calls that all satisfy
    [Q]. *)
Definition extendsBy (Q : Event -> Prop) (w w' : World) : Prop :=
  exists evs, trace w' = (trace w ++ evs)%list /\ Forall Q evs.

(** The client does not lose its page. *)
Definition keepsPage (w w' : World) : Prop :=
  is_Some (this_page w) -> is_Some (this_page w').

Definition offPage (e : Event) : Prop := isPageInteraction e = false.

(** A site for the examples.  A browser listens at the endpoint of a saved
    descriptor when [running] is one; a launch hands out [launched]; the
    page shows the fields of the login form when [loginForm] is set, and
    nothing else the client looks for: queries find no element, and without
    the login form the waits for its fields time out; every other call goes
    through.  The process runs under British Summer Time, at half past
    midnight on 2 July 2024. *)
Definition site (running : option Browser) (launched : Browser) (loginForm : bool) : Env :=
  {| envTz := BST;
     envNow := fun _ => 1719876600000;
     envUK := fun _ => clockAt 2024 7 2 0 30;
     envBrowser := fun t =>
       match last t, running with
       | Some EvLaunch, _ => Ok launched
       | _, Some b => Ok b
       | _, None => Throw "connect ECONNREFUSED 127.0.0.1:9222"
       end;
     envContext := fun _ => Ok {| pages := [] |};
     envPage := fun _ => Ok 1%nat;
     envUnit := fun _ => Ok tt;
     envElement := fun t =>
       match last t with
       | Some (EvWaitForSelector _ _ _) =>
           if loginForm then Ok (Some 7%nat)
           else Throw "Timeout exceeded while waiting for selector"
       | _ => Ok None
       end;
     envAttribute := fun _ => Ok None;
     envBool := fun _ => Ok false;
     envExtracted := fun _ =>
       Ok {| confirmationNumber := None; totalCharges := None;
             collectionDate := None; pageText := "" |} |}.

(** No browser is running and the page shows no login form. *)
Definition quietSite (launched : Browser) : Env := site None launched false.

(** A launched browser that reports no endpoint, and one that does. *)
Definition plainBrowser : Browser :=
  {| contexts := []; browserWsEndpoint := None |}.
Definition servedBrowser : Browser :=
  {| contexts := []; browserWsEndpoint := Some "ws://127.0.0.1:9333/devtools/browser/new" |}.

Definition someConfig : Config := {| username := "operator"; password := "secret" |}.

(** A process that has just started, with no file on disk. *)
Definition freshWorld : World :=
  {| fs := ∅; config := someConfig;
     this_browser := None; this_context := None; this_page := None; trace := [] |}.

Definition staleSession : SessionInfo :=
  {| wsEndpoint := "ws://127.0.0.1:9222/devtools/browser/gone";
     createdAt := "2024-07-01T09:00:00.000Z";
     formFilled := false; loggedIn := false |}.

(** The browser of an earlier [fillForm], still running, with its page. *)
Definition runningBrowser : Browser :=
  {| contexts := [ {| pages := [1%nat] |} ]; browserWsEndpoint := None |}.

Definition liveSession : SessionInfo :=
  {| wsEndpoint := "ws://127.0.0.1:9222/devtools/browser/live";
     createdAt := "2024-07-01T09:00:00.000Z";
     formFilled := true; loggedIn := true |}.

(** A process that has just started and finds the descriptor of a session
    that is logged in. *)
Definition loggedInWorld : World :=
  {| fs := {[ SESSION_PATH := Json liveSession ]};
     config := someConfig;
     this_browser := None; this_context := None; this_page := None; trace := [] |}.

(** The path of a lock file of the browser profile. *)
Definition lockPath (file : string) : string := USER_DATA_DIR +:+ "/" +:+ file.

(** The page shows none of the fields [login] takes for the username
    field: no wait for one of its selectors ever hands back an element. *)
Definition noLoginForm (env : Env) : Prop :=
  forall t p selector el,
    envElement env (t ++ [EvWaitForSelector p selector 10000])%list <> Ok (Some el).


(** A process that has just started and finds the descriptor of a browser
    that is gone, and a lock file of that browser. *)
Definition staleWorld : World :=
  {| fs := {[ SESSION_PATH := Json staleSession;
              USER_DATA_DIR +:+ "/SingletonLock" := Bytes ]};
     config := someConfig;
     this_browser := None; this_context := None; this_page := None; trace := [] |}.

Definition anyEvent (e : Event) : Prop := True.

(** The four look-ups that [fillField] issues for a label variant that no
    strategy matches. *)
Definition lookups (p : Page) (label : string) : list Event :=
  [ EvQuery p (byAriaLabel label); EvQuery p (byPlaceholder label);
    EvQuery p (byLabelText label); EvQuery p (byName label) ].

(** No strategy matches any of the label variants: each of the look-ups
    finds no element, whenever it is issued. *)
Definition noMatch (env : Env) (p : Page) (labelVariants : list string) : Prop :=
  forall t label e,
    In label labelVariants -> In e (lookups p label) ->
    envElement env (t ++ [e])%list = Ok None.

(** The first label variant of the fields that [fillForm] always fills. *)
Definition fieldLabels : list string :=
  ["Company"; "Address Line 1"; "City"; "Postal Code"; "Telephone";
   "Package"; "Weight"; "Email"].

(** A site with a login form, on whose pages the selectors listed in
    [found] hand back the elements listed with them, and no other selector
    finds anything.  The process runs in UTC. *)
Definition formSite (found : list (string * Element)) : Env :=
  {| envTz := 0;
     envNow := fun _ => 1719876600000;
     envUK := fun _ => clockAt 2024 7 2 9 30;
     envBrowser := fun _ => Ok plainBrowser;
     envContext := fun _ => Ok {| pages := [] |};
     envPage := fun _ => Ok 1%nat;
     envUnit := fun _ => Ok tt;
     envElement := fun t =>
       match last t with
       | Some (EvQuery _ selector) =>
           Ok (snd <$> List.find (fun entry => String.eqb (fst entry) selector) found)
       | Some (EvWaitForSelector _ _ _) => Ok (Some 7%nat)
       | _ => Ok None
       end;
     envAttribute := fun _ => Ok None;
     envBool := fun _ => Ok false;
     envExtracted := fun _ =>
       Ok {| confirmationNumber := None; totalCharges := None;
             collectionDate := None; pageText := "" |} |}.

(** A page on which only the notification e-mail field can be found, by
    its [aria-label]. *)
Definition emailOnlySite : Env := formSite [(byAriaLabel "Email", 42%nat)].

(** A page on which the package count and the weight can be found. *)
Definition parcelSite : Env :=
  formSite [(byAriaLabel "Package", 5%nat); (byAriaLabel "Weight", 6%nat)].

(** The success result of [reset]. *)
Definition resetDone : BookingResult :=
  {| success := true; error := false;
     message := Some "Browser session closed and cleared.";
     screenshot := None;
     reviewScreenshot := None; fillScreenshot := None;
     confirmationScreenshot := None; errorScreenshot := None;
     formState := None; confirmation := None |}.

(** The world a successful [reset] leaves: the fields of the client are
    cleared if it held a browser, and the descriptor is gone. *)
Definition afterReset (w : World) : World :=
  let w1 :=
    match this_browser w with
    | Some _ => setPage None (setContext None (setBrowser None (record EvBrowserClose w)))
    | None => w
    end in
  match fs w1 !! SESSION_PATH with
  | Some _ => setFs (delete SESSION_PATH (fs w1)) (record (EvUnlink SESSION_PATH) w1)
  | None => w1
  end.

(** A client that holds the browser it launched, with the descriptor of
    that session on disk. *)
Definition busyWorld : World :=
  {| fs := {[ SESSION_PATH := Json liveSession ]};
     config := someConfig;
     this_browser := Some runningBrowser;
     this_context := Some {| pages := [1%nat] |};
     this_page := Some 1%nat;
     trace := [EvLaunch; EvNewContext; EvNewPage; EvWriteFile SESSION_PATH] |}.

(** The parts of [civilFromDays] that depend on the day of the era alone. *)
Definition yearOfEra (doe : Z) : Z := (doe - doe / 1460 + doe / 36524 - doe / 146096) / 365.
Definition dayOfYear (doe : Z) : Z :=
  doe - (365 * yearOfEra doe + yearOfEra doe / 4 - yearOfEra doe / 100).
Definition monthIndex (doe : Z) : Z := (5 * dayOfYear doe + 2) / 153.

(** How many days after the day of the wall clock [getSmartDate] aims at:
    one if it is 13:00 or later, and then past the weekend. *)
Definition daysAhead (hour weekday : Z) : Z :=
  let next := if 13 <=? hour then 1 else 0 in
  let day := (weekday + next) mod 7 in
  next + (if day =? 6 then 2 else if day =? 0 then 1 else 0).

(** Whether the letter T occurs in a text. *)
Fixpoint hasT (s : string) : bool :=
  match s with
  | EmptyString => false
  | String c r => Ascii.eqb "T" c || hasT r
  end.

(** The time of day of a wall clock, in milliseconds. *)
Definition timeOfDay (c : WallClock) : Z :=
  MakeTime (wcHour c) (wcMinute c) (wcSecond c) 0.

(** The files are what they were. *)
Definition sameFiles (w w' : World) : Prop := fs w' = fs w.

(** The client holds the handles it held. *)
Definition sameHandles (w w' : World) : Prop :=
  this_browser w' = this_browser w /\ this_context w' = this_context w /\
  this_page w' = this_page w.

(** The world after the first step of [ensureBrowser], which creates the
    profile directory when it is not there. *)
Definition withProfileDir (w : World) : World :=
  if present (fs w !! USER_DATA_DIR) then w
  else setFs (<[USER_DATA_DIR := Dir]> (fs w)) (record (EvMkdir USER_DATA_DIR) w).

(** A browser answers at an endpoint, whenever the client connects to it. *)
Definition answersAt (env : Env) (endpoint : string) (b : Browser) : Prop :=
  forall t, envBrowser env (t ++ [EvConnectOverCDP endpoint])%list = Ok b.

(** The first page of the first context of a browser, as the [try] block of
    [ensureBrowser] picks it. *)
Definition firstPage (b : Browser) : option Page :=
  match contexts b with
  | c :: _ => match pages c with p :: _ => Some p | [] => None end
  | [] => None
  end.

(** A descriptor exists and carries the two flags. *)
Definition flagged (w : World) (filled logged : bool) : Prop :=
  exists s, fs w !! SESSION_PATH = Some (Json s) /\
            formFilled s = filled /\ loggedIn s = logged.


Definition onlyLoggedIn : SessionUpdate :=
  {| updWsEndpoint := None; updCreatedAt := None;
     updFormFilled := None; updLoggedIn := Some true |}.

Definition onlyFormFilled : SessionUpdate :=
  {| updWsEndpoint := None; updCreatedAt := None;
     updFormFilled := Some true; updLoggedIn := None |}.

(** ** The command line

    [cli.ts]: the handlers of the five commands, as they pass the parsed
    arguments on to the client.  The parsing and validation of the arguments
    belongs to a library of its own and is not modelled: [Args] is what a
    handler receives. *)

Module Cli.

Record Args := {
  date : option string;
  packages : option Z;
  weight : option Z;
  earliestTime : option string;
  latestTime : option string;
  doorCode : option string;
  specialInstructions : option string;
  filename : option string;
  fullPage : option bool;
}.

(** The options that the handlers of [fill-form] and [book] build. *)
Definition formOptions (args : Args) : FillFormOptions.t :=
  {| FillFormOptions.date := date args;
     FillFormOptions.packages := packages args;
     FillFormOptions.weight := weight args;
     FillFormOptions.earliestTime := Some (JS.orElse (earliestTime args) "12:00");
     FillFormOptions.latestTime := Some (JS.orElse (latestTime args) "18:00");
     FillFormOptions.doorCode := doorCode args;
     FillFormOptions.specialInstructions := specialInstructions args |}.

(** The table of commands: the handler registered under a name. *)
Definition commands (env : Env) (name : string) (args : Args) : option (M BookingResult) :=
  if String.eqb name "fill-form" then Some (fillForm env (formOptions args))
  else if String.eqb name "book" then Some (book env (formOptions args))
  else if String.eqb name "screenshot" then
    Some (takeScreenshot env
            (Some {| ScreenshotOptions.filename := filename args;
                     ScreenshotOptions.fullPage := fullPage args |}))
  else if String.eqb name "submit" then Some (submit env)
  else if String.eqb name "reset" then Some (reset env)
  else None.

Definition noArgs : Args :=
  {| date := None; packages := None; weight := None; earliestTime := None;
     latestTime := None; doorCode := None; specialInstructions := None;
     filename := None; fullPage := None |}.

End Cli.

(** The calls that [dismissCookieBanners] may issue. *)
Definition bannerCall (e : Event) : Prop :=
  match e with
  | EvWaitForTimeout _ _ | EvQuery _ _ | EvClick _
  | EvEvaluate _ RemoveOverlays | EvEvaluate _ RemoveRemainingOverlays => True
  | _ => False
  end.

(** A step that only issues calls: the files, the handles and the
    credentials are what they were, and the trace grew. *)
Definition onlyCalls (w w' : World) : Prop :=
  fs w' = fs w /\ sameHandles w w' /\ config w' = config w /\ extendsBy anyEvent w w'.

(** Between two worlds these calls were issued, in this order, possibly with
    others in between. *)
Definition issued (w w' : World) (calls : list Event) : Prop :=
  exists added, trace w' = (trace w ++ added)%list /\ sublist calls added.

(** The form state that [fillForm] reports for its options, at the wall
    clock it read. *)
Definition reportedState (tz : Z) (options : FillFormOptions.t) (uk : WallClock) : FormState.t :=
  {| FormState.date := JS.orElse (FillFormOptions.date options) (getSmartDate tz uk);
     FormState.packages := JS.orElseZ (FillFormOptions.packages options) 1;
     FormState.weight := JS.orElseZ (FillFormOptions.weight options) 10;
     FormState.earliestTime :=
       JS.orElse (FillFormOptions.earliestTime options) (getSmartEarliestTime tz uk);
     FormState.latestTime := JS.orElse (FillFormOptions.latestTime options) "18:00";
     FormState.specialInstructions := buildSpecialInstructions options;
     FormState.company := DEFAULTS.company;
     FormState.address := DEFAULTS.address;
     FormState.city := DEFAULTS.city;
     FormState.postalCode := DEFAULTS.postalCode |}.

(** No browser that the outside hands out reports an endpoint. *)
Definition noEndpoint (env : Env) : Prop :=
  forall t b, envBrowser env t = Ok b -> JS.truthy (browserWsEndpoint b) = false.

(** An outside that numbers the pages it opens by the calls made so far, so
    that two pages opened at different times differ. *)
Definition numberedPages (env : Env) : Env :=
  {| envTz := envTz env; envNow := envNow env; envUK := envUK env;
     envBrowser := envBrowser env; envContext := envContext env;
     envPage := fun t => Ok (length t);
     envUnit := envUnit env; envElement := envElement env;
     envAttribute := envAttribute env; envBool := envBool env;
     envExtracted := envExtracted env |}.

(** An outside on which the calls that [bad] picks throw. *)
Definition failingAt (bad : Event -> bool) (env : Env) : Env :=
  {| envTz := envTz env; envNow := envNow env; envUK := envUK env;
     envBrowser := envBrowser env; envContext := envContext env;
     envPage := envPage env;
     envUnit := fun t =>
       match last t with
       | Some e => if bad e then Throw "Execution context was destroyed" else envUnit env t
       | None => envUnit env t
       end;
     envElement := envElement env;
     envAttribute := envAttribute env; envBool := envBool env;
     envExtracted := envExtracted env |}.

(** The call that picks the date option of the form. *)
Definition picksDate (e : Event) : bool :=
  match e with
  | EvEvaluate _ (SelectDateOption _) => true
  | _ => false
  end.

(** No look-up on the page finds an element. *)
Definition noButtons (env : Env) : Prop :=
  forall t p selector, envElement env (t ++ [EvQuery p selector])%list = Ok None.

(** Every call that answers with nothing goes through. *)
Definition callsGoThrough (env : Env) : Prop := forall t, envUnit env t = Ok tt.

(** The check of [submit] lets the run pass: no descriptor, or one that
    says [formFilled]. *)
Definition passesCheck (w : World) : Prop :=
  fs w !! SESSION_PATH = None \/
  exists s, fs w !! SESSION_PATH = Some (Json s) /\ formFilled s = true.

(** The call that closes the browser. *)
Definition closesBrowser (e : Event) : bool :=
  match e with
  | EvBrowserClose => true
  | _ => false
  end.

(** The options with another latest time. *)
Definition withLatestTime (latest : option string) (o : FillFormOptions.t) : FillFormOptions.t :=
  {| FillFormOptions.date := FillFormOptions.date o;
     FillFormOptions.packages := FillFormOptions.packages o;
     FillFormOptions.weight := FillFormOptions.weight o;
     FillFormOptions.earliestTime := FillFormOptions.earliestTime o;
     FillFormOptions.latestTime := latest;
     FillFormOptions.doorCode := FillFormOptions.doorCode o;
     FillFormOptions.specialInstructions := FillFormOptions.specialInstructions o |}.

(** A result with another latest time in the form state it reports, if it
    reports one. *)
Definition reportingLatest (latest : string) (r : BookingResult) : BookingResult :=
  {| success := success r; error := error r; message := message r;
     screenshot := screenshot r;
     reviewScreenshot := reviewScreenshot r; fillScreenshot := fillScreenshot r;
     confirmationScreenshot := confirmationScreenshot r;
     errorScreenshot := errorScreenshot r;
     formState :=
       (fun st =>
          {| FormState.date := FormState.date st;
             FormState.packages := FormState.packages st;
             FormState.weight := FormState.weight st;
             FormState.earliestTime := FormState.earliestTime st;
             FormState.latestTime := latest;
             FormState.specialInstructions := FormState.specialInstructions st;
             FormState.company := FormState.company st;
             FormState.address := FormState.address st;
             FormState.city := FormState.city st;
             FormState.postalCode := FormState.postalCode st |}) <$> formState r;
     confirmation := confirmation r |}.

(** When [m] throws it has only issued calls. *)
Definition cleanThrow {A : Type} (m : M A) : Prop :=
  forall w msg w', m w = (Throw msg, w') -> onlyCalls w w'.


(** The error result of [submit], for what its [try] block threw. *)
Definition submitFailed (msg errorScreenshot : string) : BookingResult :=
  {| success := false; error := true;
     message := Some ("Submit failed: " +:+ msg);
     screenshot := Some errorScreenshot;
     reviewScreenshot := None; fillScreenshot := None;
     confirmationScreenshot := None; errorScreenshot := None;
     formState := None; confirmation := None |}.

(** ** Scheduler heuristics *)

Lemma getHours_parseLocal tz c : validTime c -> getHours tz (parseLocal tz c) = wcHour c.
Proof.
  intros (Hh & Hm & Hs).
  unfold getHours, parseLocal, LocalTime, UTC, HourFromTime, MakeDate, MakeTime.
  set (D := MakeDay _ _ _).
  replace (D * msPerDay + (wcHour c * msPerHour + wcMinute c * msPerMinute
             + wcSecond c * msPerSecond + 0) - tz + tz)
    with ((D * 24 + wcHour c) * msPerHour + (wcMinute c * 60000 + wcSecond c * 1000))
    by (unfold msPerDay, msPerHour, msPerMinute, msPerSecond; lia).
  unfold msPerHour.
  rewrite Z.div_add_l by lia.
  rewrite (Z.div_small (wcMinute c * 60000 + wcSecond c * 1000)) by lia.
  rewrite Z.add_0_r, Z.add_comm, Z.mod_add by lia.
  apply Z.mod_small; lia.
Qed.

(** C7.  [getSmartEarliestTime] depends on the Europe/London hour alone:
    for an hour in [12,17) it is the next hour followed by ":00", for any
    other hour it is "12:00"; so 14 gives "15:00", 9 and 18 give "12:00". *)
Theorem getSmartEarliestTime_by_hour tz uk :
  validTime uk ->
  (12 <= wcHour uk < 17 ->
     getSmartEarliestTime tz uk = JS.String_of_Z (wcHour uk + 1) +:+ ":00") /\
  (wcHour uk < 12 \/ 17 <= wcHour uk -> getSmartEarliestTime tz uk = "12:00") /\
  (wcHour uk = 14 -> getSmartEarliestTime tz uk = "15:00") /\
  (wcHour uk = 9 -> getSmartEarliestTime tz uk = "12:00") /\
  (wcHour uk = 18 -> getSmartEarliestTime tz uk = "12:00").
Proof.
  intros Hv. unfold getSmartEarliestTime.
  rewrite (getHours_parseLocal tz uk Hv).
  repeat split.
  - intros [H1 H2].
    destruct (Z.leb_spec 12 (wcHour uk)); [| lia].
    destruct (Z.ltb_spec (wcHour uk) 17); [reflexivity | lia].
  - intros [H | H].
    + destruct (Z.leb_spec 12 (wcHour uk)); [lia | reflexivity].
    + destruct (Z.ltb_spec (wcHour uk) 17); [lia |].
      now rewrite andb_false_r.
  - intros ->. reflexivity.
  - intros ->. reflexivity.
  - intros ->. reflexivity.
Qed.

Lemma getSmartEarliestTime_by_hour_witness :
  validTime (clockAt 2024 7 2 14 30) /\
  getSmartEarliestTime BST (clockAt 2024 7 2 14 30) = "15:00".
Proof.
  assert (Hv : validTime (clockAt 2024 7 2 14 30)) by (unfold validTime; simpl; lia).
  split; [exact Hv |].
  exact (proj1 (proj2 (proj2 (getSmartEarliestTime_by_hour BST _ Hv))) eq_refl).
Defined.

(** C5.  On a machine whose own zone is ahead of UTC the calendar day
    that [getSmartDate] returns is not the one of the Europe/London wall
    clock: under British Summer Time, at 00:30 on Tuesday 2 July 2024 (a
    weekday, hour below 13) it returns Monday "2024-07-01", because
    [toISOString] renders the target in UTC. *)
Theorem getSmartDate_bst_after_midnight :
  let uk := clockAt 2024 7 2 0 30 in
  wcHour uk < 13 /\
  getDay BST (parseLocal BST uk) = 2 /\
  isoDate (dayNumber uk) = "2024-07-02" /\
  getSmartDate BST uk = "2024-07-01".
Proof. vm_compute. repeat split; congruence. Qed.

(** ** Special instructions *)


Lemma truthy_false o : JS.truthy o = false -> o = None \/ o = Some "".
Proof.
  destruct o as [s |]; [| now left].
  unfold JS.truthy. destruct (String.eqb_spec s ""); [subst; now right | discriminate].
Qed.




(** ** Reasoning about runs *)

Lemma bind_Ok {A B : Type} (m : M A) (f : A -> M B) w b w' :
  bind m f w = (Ok b, w') ->
  exists a w1, m w = (Ok a, w1) /\ f a w1 = (Ok b, w').
Proof.
  unfold bind. destruct (m w) as [[a | msg] w1]; [eauto | discriminate].
Qed.

Lemma bind_run {A B : Type} (m : M A) (f : A -> M B) w a w1 :
  m w = (Ok a, w1) -> bind m f w = f a w1.
Proof. unfold bind. now intros ->. Qed.

Lemma bind_throw {A B : Type} (m : M A) (f : A -> M B) w msg w1 :
  m w = (Throw msg, w1) -> bind m f w = (Throw msg, w1).
Proof. unfold bind. now intros ->. Qed.

Section Returns.

Context {A B : Type}.

Lemma returns_ret (a : A) (P : A -> Prop) : P a -> returns (ret a) P.
Proof. intros H w a' w' [= <- _]. exact H. Qed.

Lemma returns_throw msg (P : A -> Prop) : returns (throw msg) P.
Proof. intros w a w' [=]. Qed.

Lemma returns_bind (m : M A) (f : A -> M B) (Q : A -> Prop) (P : B -> Prop) :
  returns m Q -> (forall a, Q a -> returns (f a) P) -> returns (bind m f) P.
Proof.
  intros Hm Hf w b w' H.
  apply bind_Ok in H as (a & w1 & H1 & H2).
  exact (Hf a (Hm _ _ _ H1) _ _ _ H2).
Qed.

Lemma returns_then (m : M A) (f : A -> M B) (P : B -> Prop) :
  (forall a, returns (f a) P) -> returns (bind m f) P.
Proof.
  intros Hf. apply (returns_bind m f (fun _ => True)); [easy | auto].
Qed.

Lemma returns_tryCatch (m : M A) (h : string -> M A) (P : A -> Prop) :
  returns m P -> (forall msg, returns (h msg) P) -> returns (tryCatch m h) P.
Proof.
  intros Hm Hh w a w'. unfold tryCatch.
  destruct (m w) as [[a1 | msg] w1] eqn:E.
  - intros [= <- <-]. exact (Hm _ _ _ E).
  - apply Hh.
Qed.

End Returns.

Section Total.

Context {A B : Type}.

Lemma total_ret (a : A) : total (ret a).
Proof. intros w. now exists a, w. Qed.

Lemma total_bind (m : M A) (f : A -> M B) :
  total m -> (forall a, total (f a)) -> total (bind m f).
Proof.
  intros Hm Hf w. destruct (Hm w) as (a & w1 & E).
  rewrite (bind_run m f w a w1 E). apply Hf.
Qed.

Lemma total_tryCatch (m : M A) (h : string -> M A) :
  (forall msg, total (h msg)) -> total (tryCatch m h).
Proof.
  intros Hh w. unfold tryCatch.
  destruct (m w) as [[a | msg] w1]; [now exists a, w1 | apply Hh].
Qed.

End Total.

(** Rules for [mono], for an order [le] on worlds that the steps of the
    client respect. *)
Section Monotone.

Variable le : World -> World -> Prop.
Hypothesis le_refl : forall w, le w w.
Hypothesis le_trans : forall a b c, le a b -> le b c -> le a c.

Lemma mono_ret {A : Type} (a : A) : mono le (ret a).
Proof. intros w r w' [= _ <-]. apply le_refl. Qed.

Lemma mono_throw {A : Type} msg : mono le (throw (A := A) msg).
Proof. intros w r w' [= _ <-]. apply le_refl. Qed.

Lemma mono_get {A : Type} (f : World -> A) : mono le (get f).
Proof. intros w r w' [= _ <-]. apply le_refl. Qed.

Lemma mono_bind {A B : Type} (m : M A) (f : A -> M B) :
  mono le m -> (forall a, mono le (f a)) -> mono le (bind m f).
Proof.
  intros Hm Hf w r w'. unfold bind.
  destruct (m w) as [[a | msg] w1] eqn:E.
  - intros H. exact (le_trans _ _ _ (Hm _ _ _ E) (Hf a _ _ _ H)).
  - intros [= _ <-]. exact (Hm _ _ _ E).
Qed.

Lemma mono_tryCatch {A : Type} (m : M A) (h : string -> M A) :
  mono le m -> (forall msg, mono le (h msg)) -> mono le (tryCatch m h).
Proof.
  intros Hm Hh w r w'. unfold tryCatch.
  destruct (m w) as [[a | msg] w1] eqn:E.
  - intros [= _ <-]. exact (Hm _ _ _ E).
  - intros H. exact (le_trans _ _ _ (Hm _ _ _ E) (Hh msg _ _ _ H)).
Qed.

Lemma mono_when (b : bool) (m : M unit) : mono le m -> mono le (when b m).
Proof. destruct b; [auto | intros _; apply mono_ret]. Qed.

Lemma mono_ignoreErrors (m : M unit) : mono le m -> mono le (ignoreErrors m).
Proof. intros H. apply mono_tryCatch; [exact H | intros; apply mono_ret]. Qed.

Variable okEvent : Event -> Prop.
Hypothesis le_record : forall e w, okEvent e -> le w (record e w).
Hypothesis le_setFs : forall f w, le w (setFs f w).
Hypothesis le_setBrowser : forall b w, le w (setBrowser b w).
Hypothesis le_setContext : forall c w, le w (setContext c w).
Hypothesis le_setPage : forall p w, le w (setPage (Some p) w).

Variable env : Env.

Lemma mono_perform {A : Type} (answer : Env -> list Event -> Res A) e :
  okEvent e -> mono le (perform env answer e).
Proof. intros H w r w' [= _ <-]. now apply le_record. Qed.

Lemma mono_mkdirSync path : okEvent (EvMkdir path) -> mono le (mkdirSync path).
Proof.
  intros H w r w' [= _ <-].
  eapply le_trans; [apply le_record, H | apply le_setFs].
Qed.

Lemma mono_unlinkSync path : okEvent (EvUnlink path) -> mono le (unlinkSync path).
Proof.
  intros H w r w'. unfold unlinkSync.
  destruct (fs w !! path); intros [= _ <-].
  - eapply le_trans; [apply le_record, H | apply le_setFs].
  - now apply le_record.
Qed.

Lemma mono_writeSession path s : okEvent (EvWriteFile path) -> mono le (writeSession path s).
Proof.
  intros H w r w' [= _ <-].
  eapply le_trans; [apply le_record, H | apply le_setFs].
Qed.

Lemma mono_readSession path : mono le (readSession path).
Proof.
  intros w r w'. unfold readSession.
  destruct (fs w !! path) as [[| | s] |]; intros [= _ <-]; apply le_refl.
Qed.

Lemma mono_setBrowser b : mono le (modify (setBrowser b)).
Proof. intros w r w' [= _ <-]. apply le_setBrowser. Qed.

Lemma mono_setContext c : mono le (modify (setContext c)).
Proof. intros w r w' [= _ <-]. apply le_setContext. Qed.

Lemma mono_setPage p : mono le (modify (setPage (Some p))).
Proof. intros w r w' [= _ <-]. apply le_setPage. Qed.

(** One step of a proof of [mono], by the shape of the code. *)
Ltac mono_step :=
  lazymatch goal with
  | |- mono _ (bind _ _) => apply mono_bind; [| intros ?]
  | |- mono _ (tryCatch _ _) => apply mono_tryCatch; [| intros ?]
  | |- mono _ (ret _) => apply mono_ret
  | |- mono _ (throw _) => apply mono_throw
  | |- mono _ (get _) => apply mono_get
  | |- mono _ (when _ _) => apply mono_when
  | |- mono _ (ignoreErrors _) => apply mono_ignoreErrors
  | |- mono _ (perform _ _ _) => apply mono_perform
  | |- mono _ (mkdirSync _) => apply mono_mkdirSync
  | |- mono _ (unlinkSync _) => apply mono_unlinkSync
  | |- mono _ (writeSession _ _) => apply mono_writeSession
  | |- mono _ (readSession _) => apply mono_readSession
  | |- mono _ (modify (setBrowser _)) => apply mono_setBrowser
  | |- mono _ (modify (setContext _)) => apply mono_setContext
  | |- mono _ (modify (setPage (Some _))) => apply mono_setPage
  | |- mono _ (existsSync _) => apply mono_get
  | |- mono _ (DateNow _) => apply mono_get
  | |- mono _ (ukWallClock _) => apply mono_get
  | |- mono _ (match ?x with _ => _ end) => destruct x
  end.

Section Store.

Hypothesis ok_store : forall e, offPage e -> okEvent e.

Lemma mono_cleanSingletons files : mono le (cleanSingletons files).
Proof.
  induction files as [| file rest IH]; simpl.
  - apply mono_ret.
  - repeat mono_step; try exact IH; now apply ok_store.
Qed.

Lemma mono_reconnect : mono le (reconnect env).
Proof. unfold reconnect. repeat mono_step. now apply ok_store. Qed.

Lemma mono_freshLaunch : mono le (freshLaunch env).
Proof.
  unfold freshLaunch.
  repeat mono_step; try apply mono_cleanSingletons; now apply ok_store.
Qed.

Lemma mono_ensureBrowser : mono le (ensureBrowser env).
Proof.
  unfold ensureBrowser.
  repeat mono_step;
    try apply mono_reconnect; try apply mono_freshLaunch; now apply ok_store.
Qed.

Lemma mono_updateSession u : mono le (updateSession u).
Proof. unfold updateSession. repeat mono_step. now apply ok_store. Qed.

End Store.

Section Pages.

Hypothesis ok_all : forall e, okEvent e.

Ltac page_step :=
  lazymatch goal with
  | |- mono _ (goto _ _ _) => apply mono_perform, ok_all
  | |- mono _ (waitForTimeout _ _ _) => apply mono_perform, ok_all
  | |- mono _ (waitForLoadState _ _ _) => apply mono_perform, ok_all
  | |- mono _ (evaluate _ _ _) => apply mono_perform, ok_all
  | |- mono _ (query _ _ _) => apply mono_perform, ok_all
  | |- mono _ (waitForSelector _ _ _ _) => apply mono_perform, ok_all
  | |- mono _ (pageScreenshot _ _ _ _) => apply mono_perform, ok_all
  | |- mono _ (elementQuery _ _ _) => apply mono_perform, ok_all
  | |- mono _ (getAttribute _ _ _) => apply mono_perform, ok_all
  | |- mono _ (isVisible _ _) => apply mono_perform, ok_all
  | |- mono _ (scrollIntoViewIfNeeded _ _) => apply mono_perform, ok_all
  | |- mono _ (click _ _) => apply mono_perform, ok_all
  | |- mono _ (fill _ _ _) => apply mono_perform, ok_all
  | |- mono _ (selectOptionByLabel _ _ _) => apply mono_perform, ok_all
  | |- mono _ (perform _ _ _) => apply mono_perform, ok_all
  | |- mono _ (ensureBrowser _) => apply mono_ensureBrowser; intros; apply ok_all
  | |- mono _ (updateSession _) => apply mono_updateSession; intros; apply ok_all
  | |- _ => mono_step
  end.

Lemma mono_stampedPath stem : mono le (stampedPath env stem).
Proof. unfold stampedPath. repeat page_step. Qed.

Lemma mono_clickCookieButton p selectors : mono le (clickCookieButton env p selectors).
Proof.
  induction selectors as [| selector rest IH]; simpl; repeat page_step; exact IH.
Qed.

Lemma mono_dismissCookieBanners p : mono le (dismissCookieBanners env p).
Proof.
  unfold dismissCookieBanners. repeat page_step. apply mono_clickCookieButton.
Qed.

Lemma mono_waitForFirst p selectors timeout : mono le (waitForFirst env p selectors timeout).
Proof.
  induction selectors as [| selector rest IH]; simpl; repeat page_step; exact IH.
Qed.

Lemma mono_failWithScreenshot {A : Type} p stem what :
  mono le (failWithScreenshot (A := A) env p stem what).
Proof. unfold failWithScreenshot. repeat page_step. apply mono_stampedPath. Qed.

Lemma mono_login : mono le (login env).
Proof.
  unfold login.
  repeat first
    [ apply mono_dismissCookieBanners | apply mono_stampedPath
    | apply mono_waitForFirst | apply mono_failWithScreenshot | page_step ].
Qed.

Lemma mono_fillIfFound field value : mono le (fillIfFound env field value).
Proof. unfold fillIfFound. repeat page_step. Qed.

Lemma mono_fillByLabel p label value : mono le (fillByLabel env p label value).
Proof. unfold fillByLabel. repeat first [apply mono_fillIfFound | page_step]. Qed.

Lemma mono_fillAny p labels value : mono le (fillAny env p labels value).
Proof.
  induction labels as [| label rest IH]; simpl;
    repeat first [apply mono_fillByLabel | page_step]; exact IH.
Qed.

Lemma mono_fillField p labels value : mono le (fillField env p labels value).
Proof. unfold fillField. repeat first [apply mono_fillAny | page_step]. Qed.

Lemma mono_selectByLabel p label value : mono le (selectByLabel env p label value).
Proof. unfold selectByLabel. repeat page_step. Qed.

Lemma mono_selectAny p labels value : mono le (selectAny env p labels value).
Proof.
  induction labels as [| label rest IH]; simpl;
    repeat first [apply mono_selectByLabel | page_step]; exact IH.
Qed.

Lemma mono_selectOption p labels value : mono le (selectOption env p labels value).
Proof. unfold selectOption. repeat first [apply mono_selectAny | page_step]. Qed.

Lemma mono_clickDifferentAddress p selectors flag :
  mono le (clickDifferentAddress env p selectors flag).
Proof.
  revert flag. induction selectors as [| selector rest IH]; intros flag; simpl.
  - apply mono_ret.
  - apply mono_bind; [repeat page_step |].
    intros [clicked stop]. simpl. destruct stop; [apply mono_ret | apply IH].
Qed.

Lemma mono_fillCollectionFields p packages weight text :
  mono le (fillCollectionFields env p packages weight text).
Proof.
  unfold fillCollectionFields.
  repeat first [apply mono_fillField | apply mono_selectOption | page_step].
Qed.

Lemma mono_fillFormBody p date earliest packages weight text :
  mono le (fillFormBody env p date earliest packages weight text).
Proof.
  unfold fillFormBody.
  repeat first
    [ apply mono_clickDifferentAddress | apply mono_fillCollectionFields | page_step ].
Qed.

Lemma mono_fillForm options : mono le (fillForm env options).
Proof.
  unfold fillForm.
  repeat first
    [ apply mono_login | apply mono_dismissCookieBanners | apply mono_stampedPath
    | apply mono_fillFormBody | page_step ].
Qed.

(** [fillByLabel] is its first look-up followed by steps that respect the
    order. *)
Lemma fillByLabel_after_query p label value :
  exists rest, fillByLabel env p label value = bind (query env p (byAriaLabel label)) rest /\
               forall field, mono le (rest field).
Proof.
  unfold fillByLabel. eexists. split; [reflexivity |].
  intros field. cbv beta. repeat first [apply mono_fillIfFound | page_step].
Qed.

(** [fillForm] is the acquisition of the page followed by steps that
    respect the order. *)
Lemma fillForm_after_acquire options :
  exists rest, fillForm env options = bind (ensureBrowser env) rest /\
               forall page, mono le (rest page).
Proof.
  unfold fillForm. eexists. split; [reflexivity |].
  intros page. cbv beta.
  repeat first
    [ apply mono_login | apply mono_dismissCookieBanners | apply mono_stampedPath
    | apply mono_fillFormBody | page_step ].
Qed.

End Pages.

End Monotone.

(** The two orders that are used: the trace grows by calls of one kind, and
    the page of the client stays. *)

Lemma extendsBy_same Q w w' : trace w' = trace w -> extendsBy Q w w'.
Proof. intros H. exists []. split; [now rewrite app_nil_r | constructor]. Qed.

Lemma extendsBy_refl Q w : extendsBy Q w w.
Proof. now apply extendsBy_same. Qed.

Lemma extendsBy_trans Q a b c : extendsBy Q a b -> extendsBy Q b c -> extendsBy Q a c.
Proof.
  intros (e1 & H1 & F1) (e2 & H2 & F2). exists (e1 ++ e2)%list. split.
  - now rewrite H2, H1, <- app_assoc.
  - apply Forall_app; auto.
Qed.

Lemma extendsBy_record (Q : Event -> Prop) e w : Q e -> extendsBy Q w (record e w).
Proof. intros H. exists [e]. split; [reflexivity | now constructor]. Qed.

Lemma ensureBrowser_off_page env w r w' :
  ensureBrowser env w = (r, w') -> extendsBy offPage w w'.
Proof.
  apply (mono_ensureBrowser (extendsBy offPage)
           (extendsBy_refl _) (extendsBy_trans _) offPage); auto.
  - apply extendsBy_record.
  - intros; now apply extendsBy_same.
  - intros; now apply extendsBy_same.
  - intros; now apply extendsBy_same.
  - intros; now apply extendsBy_same.
Qed.

Lemma fillForm_keeps_page env options w r w' :
  fillForm env options w = (r, w') -> keepsPage w w'.
Proof.
  apply (mono_fillForm keepsPage) with (okEvent := fun _ => True);
    unfold keepsPage; simpl; auto.
Qed.

(** ** Session store: the page of the client *)

Ltac run_cases :=
  repeat match goal with
         | |- context [match ?x with _ => _ end] =>
             let E := fresh "E" in destruct x eqn:E; try discriminate
         | H : context [match ?x with _ => _ end] |- _ =>
             let E := fresh "E" in destruct x eqn:E; try discriminate
         end.

Ltac run_done :=
  intros; repeat match goal with
                 | H : (_, _) = (_, _) |- _ => injection H as ?; subst
                 end.

Lemma cleanSingletons_page files w r w' :
  cleanSingletons files w = (r, w') -> this_page w' = this_page w.
Proof.
  revert w. induction files as [| file rest IH]; intros w; simpl.
  - now intros [= _ <-].
  - unfold bind, existsSync, get, when, ignoreErrors, tryCatch, unlinkSync, ret.
    destruct (present _); [destruct (fs w !! _) |]; intros H; apply IH in H; exact H.
Qed.

Lemma reconnect_page env w p w' :
  reconnect env w = (Ok (Some p), w') -> this_page w' = Some p.
Proof.
  unfold reconnect, bind, readSession, perform, modify, ret.
  run_cases; now intros [= <- <-].
Qed.

Lemma freshLaunch_page env w p w' :
  freshLaunch env w = (Ok p, w') -> this_page w' = Some p.
Proof.
  unfold freshLaunch. intros H.
  apply bind_Ok in H as ([] & w1 & _ & H). revert H.
  unfold bind, perform, modify, when, DateNow, get, writeSession, ret.
  run_cases; run_done; reflexivity.
Qed.

Lemma ensureBrowser_page env w p w' :
  ensureBrowser env w = (Ok p, w') -> this_page w' = Some p.
Proof.
  unfold ensureBrowser. intros H.
  apply bind_Ok in H as (there & w1 & _ & H).
  apply bind_Ok in H as ([] & w2 & _ & H).
  apply bind_Ok in H as (saved & w3 & _ & H).
  apply bind_Ok in H as (found & w4 & Hfound & H).
  destruct found as [q |].
  - injection H as <- <-.
    destruct saved; [| discriminate].
    unfold tryCatch in Hfound.
    destruct (reconnect env w3) as [[o | msg] w5] eqn:E.
    + injection Hfound as -> <-. now apply reconnect_page in E.
    + apply bind_Ok in Hfound as (? & ? & _ & [=]).
  - now apply freshLaunch_page in H.
Qed.

(** ** The precondition of [submit] *)

(** The check of [submit], where it is made.  When, once the page has been
    acquired, the descriptor on disk says [formFilled = false], [submit]
    returns the error result and has issued no call to the page: the trace
    grew by calls to the file system and the browser life cycle only. *)
Lemma submit_refuses_unfilled env w p w1 s :
  ensureBrowser env w = (Ok p, w1) ->
  fs w1 !! SESSION_PATH = Some (Json s) ->
  formFilled s = false ->
  submit env w = (Ok notFilledError, w1) /\
  error notFilledError = true /\
  extendsBy offPage w w1.
Proof.
  intros Hpage Hfile Hflag. split; [| split].
  - unfold submit. rewrite (bind_run _ _ _ _ _ Hpage).
    unfold bind, existsSync, get, readSession, ret.
    rewrite Hfile. simpl. rewrite Hfile, Hflag. reflexivity.
  - reflexivity.
  - exact (ensureBrowser_off_page _ _ _ _ Hpage).
Qed.

(** So it is on a first call in a fresh process, when the launched browser
    reports an endpoint: the descriptor that the launch writes says
    [formFilled = false]. *)
Example submit_refuses_after_launch :
  exists p w1 s,
    ensureBrowser (quietSite servedBrowser) freshWorld = (Ok p, w1) /\
    fs w1 !! SESSION_PATH = Some (Json s) /\
    formFilled s = false /\
    submit (quietSite servedBrowser) freshWorld = (Ok notFilledError, w1).
Proof.
  eexists _, _, _.
  assert (H1 : ensureBrowser (quietSite servedBrowser) freshWorld
               = (Ok 1%nat, snd (ensureBrowser (quietSite servedBrowser) freshWorld)))
    by (vm_compute; reflexivity).
  assert (H2 : fs (snd (ensureBrowser (quietSite servedBrowser) freshWorld)) !! SESSION_PATH
               = Some (Json {| wsEndpoint := "ws://127.0.0.1:9333/devtools/browser/new";
                               createdAt := "2024-07-01T23:30:00.000Z";
                               formFilled := false; loggedIn := false |}))
    by (vm_compute; reflexivity).
  split; [exact H1 | split; [exact H2 | split; [reflexivity |]]].
  exact (proj1 (submit_refuses_unfilled _ _ _ _ _ H1 H2 eq_refl)).
Qed.

(** C1.  The check is made only if a descriptor is on disk after the page
    has been acquired.  When the descriptor that says [formFilled = false]
    belongs to a browser that is gone, and the browser launched in its place
    reports no endpoint, the descriptor is deleted, none is written, the
    check is skipped: [submit] goes to the page, never filled, and reports
    success. *)
Theorem submit_runs_after_stale_session :
  fs staleWorld !! SESSION_PATH = Some (Json staleSession) /\
  formFilled staleSession = false /\
  exists r w',
    submit (quietSite plainBrowser) staleWorld = (Ok r, w') /\
    success r = true /\ error r = false /\
    fs w' !! SESSION_PATH = None /\
    In (EvQuery 1%nat nextButtonSelector) (trace w') /\
    In (EvEvaluate 1%nat ExtractConfirmation) (trace w').
Proof.
  split; [vm_compute; reflexivity | split; [reflexivity |]].
  eexists _, (snd (submit (quietSite plainBrowser) staleWorld)).
  split; [vm_compute; reflexivity |].
  split; [reflexivity | split; [reflexivity |]].
  split; [vm_compute; reflexivity |].
  split; vm_compute; tauto.
Qed.

(** The same on a first call in a fresh process, with no descriptor at all. *)
Example submit_runs_without_descriptor :
  exists r w',
    submit (quietSite plainBrowser) freshWorld = (Ok r, w') /\
    success r = true /\
    message r = Some "Collection submitted successfully.".
Proof.
  eexists _, (snd (submit (quietSite plainBrowser) freshWorld)).
  split; [vm_compute; reflexivity | split; reflexivity].
Qed.

(** ** Screenshots in results *)

Ltac returns_step :=
  lazymatch goal with
  | |- returns (bind _ _) _ => apply returns_then; intros ?
  | |- returns (tryCatch _ _) _ => apply returns_tryCatch; [| intros ?]
  | |- returns (ret _) _ => apply returns_ret
  | |- returns (throw _) _ => apply returns_throw
  | |- returns (match ?x with _ => _ end) _ => destruct x
  end.

(** What the [try] of [fillForm] leaves in [failed]: nothing, or the error
    result with its screenshot. *)
Lemma fillForm_failure env page date earliest packages weight text :
  returns
    (tryCatch
       (bind (fillFormBody env page date earliest packages weight text) (fun _ => ret None))
       (fun msg =>
          bind (stampedPath env "ups-form-error") (fun errorScreenshot =>
          bind (pageScreenshot env page errorScreenshot true) (fun _ =>
          ret (Some (fillError msg errorScreenshot))))))
    (fun failed => forall r, failed = Some r -> exists msg shot, r = fillError msg shot).
Proof.
  repeat returns_step.
  - discriminate.
  - intros r [= <-]. eauto.
Qed.

Lemma fillForm_screenshot env options :
  returns (fillForm env options) (fun r => hasScreenshot r = true).
Proof.
  unfold fillForm. cbv zeta.
  do 8 (apply returns_then; intros ?).
  eapply returns_bind; [apply fillForm_failure |].
  intros [failure |] Hf.
  - destruct (Hf failure eq_refl) as (msg & shot & ->). now apply returns_ret.
  - repeat returns_step. reflexivity.
Qed.

Lemma submit_screenshot env :
  returns (submit env) (fun r => hasScreenshot r = true \/ r = notFilledError).
Proof.
  unfold submit, submitBody. repeat returns_step; auto.
Qed.

Lemma fillForm_has_page env options w r w' :
  fillForm env options w = (Ok r, w') -> is_Some (this_page w').
Proof.
  destruct (fillForm_after_acquire keepsPage) with (okEvent := fun _ : Event => True)
    (env := env) (options := options) as (rest & -> & Hrest);
    try (unfold keepsPage; simpl; now auto).
  intros H. apply bind_Ok in H as (page & w1 & Hpage & H).
  apply (Hrest page _ _ _ H). rewrite (ensureBrowser_page _ _ _ _ Hpage). eauto.
Qed.

Lemma book_screenshot env options :
  returns (book env options) (fun r => hasScreenshot r = true).
Proof.
  intros w r w' H. unfold book in H.
  apply bind_Ok in H as (fillResult & w1 & Hfill & H).
  pose proof (fillForm_screenshot env options _ _ _ Hfill) as Hshot.
  destruct (fillForm_has_page _ _ _ _ _ Hfill) as [page Hpage].
  destruct (error fillResult).
  - now injection H as <- _.
  - apply bind_Ok in H as (current & w2 & [= <- <-] & H).
    rewrite Hpage in H.
    apply bind_Ok in H as ([] & w3 & Hwait & H).
    injection Hwait as _ <-.
    apply bind_Ok in H as (current & w4 & [= <- <-] & H).
    cbn [this_page record setTrace] in H. rewrite Hpage in H.
    match type of H with
    | ?m _ = _ =>
        assert (Hr : returns m (fun r => hasScreenshot r = true))
          by (unfold bookBody; repeat returns_step;
              unfold hasScreenshot; simpl; destruct (screenshot fillResult); reflexivity)
    end.
    exact (Hr _ _ _ H).
Qed.

(** C2, as the code has it.  Every result that [fillForm] returns and every
    result that [book] returns has a screenshot path, and so has every result
    that [submit] returns except the error of its precondition check, which
    has none. *)
Theorem results_carry_screenshot env options w r w' :
  (fillForm env options w = (Ok r, w') -> hasScreenshot r = true) /\
  (book env options w = (Ok r, w') -> hasScreenshot r = true) /\
  (submit env w = (Ok r, w') -> hasScreenshot r = true \/ r = notFilledError).
Proof.
  split; [| split].
  - apply fillForm_screenshot.
  - apply book_screenshot.
  - apply submit_screenshot.
Qed.

(** C2 as stated fails at the precondition check of [submit]: the page has
    been acquired, and the error that is returned names no screenshot. *)
Lemma submit_error_without_screenshot :
  exists r w',
    submit (quietSite servedBrowser) freshWorld = (Ok r, w') /\
    this_page w' = Some 1%nat /\
    error r = true /\
    hasScreenshot r = false.
Proof.
  eexists _, (snd (submit (quietSite servedBrowser) freshWorld)).
  split; [vm_compute; reflexivity |].
  split; [vm_compute; reflexivity |].
  split; reflexivity.
Qed.

Lemma results_carry_screenshot_witness :
  exists r w',
    fillForm (site None servedBrowser true) noOptions freshWorld = (Ok r, w') /\
    hasScreenshot r = true.
Proof.
  eexists _, (snd (fillForm (site None servedBrowser true) noOptions freshWorld)).
  assert (H : fillForm (site None servedBrowser true) noOptions freshWorld
              = (Ok (fillSuccess
                       "/home/USER/biz/.playwright-mcp/ups-form-preview-1719876600000.png"
                       {| FormState.date := "2024-07-01";
                          FormState.packages := 1;
                          FormState.weight := 10;
                          FormState.earliestTime := "12:00";
                          FormState.latestTime := "18:00";
                          FormState.specialInstructions := None;
                          FormState.company := DEFAULTS.company;
                          FormState.address := DEFAULTS.address;
                          FormState.city := DEFAULTS.city;
                          FormState.postalCode := DEFAULTS.postalCode |}),
                 snd (fillForm (site None servedBrowser true) noOptions freshWorld)))
    by (vm_compute; reflexivity).
  split; [exact H |].
  exact (proj1 (results_carry_screenshot _ _ _ _ _) H).
Defined.

(** ** The authenticator on a page without a login form *)

Lemma waitForFirst_none env p selectors :
  noLoginForm env ->
  returns (waitForFirst env p selectors 10000) (fun field => field = None).
Proof.
  intros Hno. induction selectors as [| selector rest IH]; simpl.
  - now apply returns_ret.
  - eapply returns_bind with (Q := fun field => field = None).
    + apply returns_tryCatch; [| intros; now apply returns_ret].
      intros w [el |] w' H; [| reflexivity].
      injection H as H _. now apply Hno in H.
    + intros field ->. exact IH.
Qed.

Lemma failWithScreenshot_throws {A : Type} env p stem what :
  returns (failWithScreenshot (A := A) env p stem what) (fun _ => False).
Proof. unfold failWithScreenshot. repeat returns_step. Qed.

(** On a page that shows no login form [login] never returns: it ends in a
    throw (of "Could not find username field." when the steps before it go
    through), and [fillForm], which logs in first, has no result either. *)
Lemma login_needs_login_form env :
  noLoginForm env ->
  returns (login env) (fun _ => False) /\
  forall options, returns (fillForm env options) (fun _ => False).
Proof.
  intros Hno.
  assert (Hlogin : returns (login env) (fun _ => False)).
  { unfold login. do 6 (apply returns_then; intros ?).
    eapply returns_bind; [apply (waitForFirst_none _ _ _ Hno) |].
    intros field ->. apply failWithScreenshot_throws. }
  split; [exact Hlogin |].
  intros options. unfold fillForm.
  apply returns_then; intros page.
  eapply returns_bind; [exact Hlogin | contradiction].
Qed.

(** C3.  [fillForm] on a session that is already logged in, where the site
    shows no login form: the client reconnects to the running browser, finds
    no username field, and throws "Could not find username field."; the
    caller gets no result at all, and the form page is never opened. *)
Theorem fillForm_throws_when_logged_in :
  loggedIn liveSession = true /\
  noLoginForm (site (Some runningBrowser) plainBrowser false) /\
  fst (fillForm (site (Some runningBrowser) plainBrowser false) noOptions loggedInWorld)
    = Throw ("Could not find username field. See screenshot: " +:+ SCREENSHOT_DIR +:+
             "/ups-login-error-no-username-1719876600000.png") /\
  ~ In (EvGoto 1%nat UPS_FORM_URL)
       (trace (snd (fillForm (site (Some runningBrowser) plainBrowser false)
                      noOptions loggedInWorld))).
Proof.
  split; [reflexivity | split; [| split]].
  - intros t p selector el. simpl. rewrite last_snoc. discriminate.
  - vm_compute. reflexivity.
  - vm_compute. intuition discriminate.
Qed.

(** ** Session store: falling through to a fresh launch *)

Lemma lockPath_not_session file : In file singletonFiles -> lockPath file <> SESSION_PATH.
Proof. intros [<- | [<- | [<- | []]]]; discriminate. Qed.

Lemma cleanSingletons_cons file rest w :
  cleanSingletons (file :: rest) w =
  cleanSingletons rest
    match fs w !! lockPath file with
    | Some _ => setFs (delete (lockPath file) (fs w)) (record (EvUnlink (lockPath file)) w)
    | None => w
    end.
Proof.
  simpl. unfold bind at 1. unfold existsSync, get, lockPath.
  destruct (fs w !! (USER_DATA_DIR +:+ "/" +:+ file)) as [d |] eqn:E; simpl; [| reflexivity].
  unfold bind, ignoreErrors, tryCatch, unlinkSync. now rewrite E.
Qed.

(** The clean-up removes every lock file and nothing else, and issues no
    call but [unlinkSync]. *)
Lemma cleanSingletons_spec files w :
  exists w1,
    cleanSingletons files w = (Ok tt, w1) /\
    (forall path : string,
       fs w1 !! path = if decide (path ∈ map lockPath files) then None else fs w !! path) /\
    extendsBy (fun e => exists path, e = EvUnlink path) w w1.
Proof.
  revert w. induction files as [| file rest IH]; intros w.
  - exists w. split; [reflexivity | split; [| apply extendsBy_refl]].
    intros path. simpl. destruct (decide (path ∈ [])) as [H |]; [| reflexivity].
    now apply elem_of_nil in H.
  - rewrite cleanSingletons_cons.
    set (wa := match fs w !! lockPath file with Some _ => _ | None => w end).
    assert (Hfs : forall path : string,
              fs wa !! path = if decide (path = lockPath file) then None else fs w !! path).
    { intros path. subst wa. destruct (fs w !! lockPath file) eqn:E; simpl.
      - destruct (decide (path = lockPath file)) as [-> | H];
          [apply lookup_delete_eq | now apply lookup_delete_ne].
      - destruct (decide (path = lockPath file)) as [-> |]; auto. }
    assert (Hext : extendsBy (fun e => exists path, e = EvUnlink path) w wa).
    { subst wa. destruct (fs w !! lockPath file).
      - apply extendsBy_trans with (record (EvUnlink (lockPath file)) w).
        + apply extendsBy_record. eauto.
        + now apply extendsBy_same.
      - apply extendsBy_refl. }
    destruct (IH wa) as (w1 & Hrest & Hfs1 & Hext1).
    exists w1. split; [exact Hrest | split].
    + intros path. rewrite Hfs1, Hfs. simpl.
      destruct (decide (path ∈ map lockPath rest)) as [Hin | Hout];
        destruct (decide (path ∈ lockPath file :: map lockPath rest)) as [Hin' | Hout'];
        destruct (decide (path = lockPath file)) as [-> | Hne]; try reflexivity;
        exfalso;
        first [ apply Hout', elem_of_cons; tauto
              | apply elem_of_cons in Hin' as [? | ?]; contradiction ].
    + exact (extendsBy_trans _ _ _ _ Hext Hext1).
Qed.



(** A fresh launch that returns has cleared the lock files before the
    launch, and has written a descriptor after it when, and only when, the
    launched browser reports an endpoint. *)
Lemma freshLaunch_spec env w0 p w' :
  freshLaunch env w0 = (Ok p, w') ->
  exists w1 b,
    (forall path : string,
       fs w1 !! path
       = if decide (path ∈ map lockPath singletonFiles) then None else fs w0 !! path) /\
    extendsBy (fun e => exists path, e = EvUnlink path) w0 w1 /\
    envBrowser env (trace w1 ++ [EvLaunch])%list = Ok b /\
    trace w' = (trace w1 ++ [EvLaunch; EvNewContext; EvNewPage] ++
                if JS.truthy (browserWsEndpoint b) then [EvWriteFile SESSION_PATH] else [])%list /\
    fs w' = if JS.truthy (browserWsEndpoint b)
            then <[SESSION_PATH :=
                     Json {| wsEndpoint := default "" (browserWsEndpoint b);
                             createdAt := toISOString
                               (envNow env (trace w1 ++ [EvLaunch; EvNewContext; EvNewPage])%list);
                             formFilled := false; loggedIn := false |}]> (fs w1)
            else fs w1.
Proof.
  unfold freshLaunch.
  destruct (cleanSingletons_spec singletonFiles w0) as (w1 & Hclean & Hfs & Hext).
  rewrite (bind_run _ _ _ _ _ Hclean).
  unfold bind, perform, modify, when, DateNow, get, writeSession, ret.
  destruct (envBrowser env (trace (record EvLaunch w1))) as [b | msg] eqn:Eb; [| discriminate].
  intros H. exists w1, b. split; [exact Hfs | split; [exact Hext | split; [exact Eb |]]].
  revert H. run_cases; run_done; simpl; rewrite <- ?app_assoc; simpl; auto.
Qed.





(** ** Element resolver: a miss is a skipped field *)

Ltac grows :=
  intros; unfold anyEvent;
  first [ apply extendsBy_record; exact I | now apply extendsBy_same | exact I ].

Lemma extendsBy_In Q w w' e : extendsBy Q w w' -> In e (trace w) -> In e (trace w').
Proof. intros (evs & -> & _) H. apply in_or_app. now left. Qed.

Lemma fillAny_grows env p labels value : mono (extendsBy anyEvent) (fillAny env p labels value).
Proof.
  apply (mono_fillAny (extendsBy anyEvent) (extendsBy_refl _) (extendsBy_trans _) anyEvent);
    grows.
Qed.

Lemma fillField_grows env p labels value :
  mono (extendsBy anyEvent) (fillField env p labels value).
Proof.
  apply (mono_fillField (extendsBy anyEvent) (extendsBy_refl _) (extendsBy_trans _) anyEvent);
    grows.
Qed.

Lemma selectOption_grows env p labels value :
  mono (extendsBy anyEvent) (selectOption env p labels value).
Proof.
  apply (mono_selectOption (extendsBy anyEvent) (extendsBy_refl _) (extendsBy_trans _) anyEvent);
    grows.
Qed.

Lemma fillAny_total env p labels value : total (fillAny env p labels value).
Proof.
  induction labels as [| label rest IH]; simpl.
  - apply total_ret.
  - apply total_bind.
    + apply total_tryCatch. intros; apply total_ret.
    + intros [|]; [apply total_ret | exact IH].
Qed.

Lemma selectAny_total env p labels value : total (selectAny env p labels value).
Proof.
  induction labels as [| label rest IH]; simpl.
  - apply total_ret.
  - apply total_bind.
    + apply total_tryCatch. intros; apply total_ret.
    + intros [|]; [apply total_ret | exact IH].
Qed.

(** [fillField] never throws, and what it returns is [undefined]. *)
Lemma fillField_undefined env p labels value w :
  exists w', fillField env p labels value w = (Ok JSUndefined, w').
Proof.
  unfold fillField.
  destruct (fillAny_total env p labels value w) as (done & w' & H).
  exists w'. now rewrite (bind_run _ _ _ _ _ H).
Qed.

Lemma selectOption_undefined env p labels value w :
  exists w', selectOption env p labels value w = (Ok JSUndefined, w').
Proof.
  unfold selectOption.
  destruct (selectAny_total env p labels value w) as (done & w' & H).
  exists w'. now rewrite (bind_run _ _ _ _ _ H).
Qed.

(** Whatever happens to it, a run of [fillByLabel] has issued the look-up by
    [aria-label]. *)
Lemma fillByLabel_first_query env p label value w r w' :
  fillByLabel env p label value w = (r, w') ->
  In (EvQuery p (byAriaLabel label)) (trace w').
Proof.
  destruct (fillByLabel_after_query (extendsBy anyEvent) (extendsBy_refl _)
              (extendsBy_trans _) anyEvent) with (env := env) (p := p) (label := label)
    (value := value) as (rest & -> & Hrest); try grows.
  unfold bind, query, perform.
  destruct (envElement env _) as [field | msg].
  - intros H. apply (extendsBy_In _ _ _ _ (Hrest field _ _ _ H)).
    simpl. apply in_or_app. right. now left.
  - intros [= _ <-]. simpl. apply in_or_app. right. now left.
Qed.

(** A call of [fillField] returns, keeps the trace it found, and has tried
    the first label variant. *)
Lemma fillField_run env p label rest value w :
  exists w',
    fillField env p (label :: rest) value w = (Ok JSUndefined, w') /\
    (forall e, In e (trace w) -> In e (trace w')) /\
    In (EvQuery p (byAriaLabel label)) (trace w').
Proof.
  destruct (fillField_undefined env p (label :: rest) value w) as (w' & H).
  exists w'. split; [exact H | split].
  - intros e. apply (extendsBy_In anyEvent). exact (fillField_grows _ _ _ _ _ _ _ H).
  - unfold fillField in H. apply bind_Ok in H as (done & w1 & H & [= <-]).
    simpl in H. apply bind_Ok in H as (first & w2 & Hfirst & H).
    assert (Hin : In (EvQuery p (byAriaLabel label)) (trace w2)).
    { unfold tryCatch in Hfirst.
      destruct (fillByLabel env p label value w) as [[b | msg] w3] eqn:E;
        injection Hfirst as _ <-; exact (fillByLabel_first_query _ _ _ _ _ _ _ E). }
    assert (Hgrow : extendsBy anyEvent w2 w1).
    { destruct first.
      - injection H as _ <-. apply extendsBy_refl.
      - exact (fillAny_grows _ _ _ _ _ _ _ H). }
    exact (extendsBy_In _ _ _ _ Hgrow Hin).
Qed.

Lemma selectOption_run env p labels value w :
  exists w',
    selectOption env p labels value w = (Ok JSUndefined, w') /\
    (forall e, In e (trace w) -> In e (trace w')).
Proof.
  destruct (selectOption_undefined env p labels value w) as (w' & H).
  exists w'. split; [exact H |].
  intros e. apply (extendsBy_In anyEvent). exact (selectOption_grows _ _ _ _ _ _ _ H).
Qed.

Lemma bind_assoc {A B C : Type} (m : M A) (f : A -> M B) (k : B -> M C) w :
  bind (bind m f) k w = bind m (fun a => bind (f a) k) w.
Proof. unfold bind. destruct (m w) as [[a | msg] w1]; reflexivity. Qed.

Lemma bind_ret_l {A B : Type} (a : A) (k : A -> M B) w : bind (ret a) k w = k a w.
Proof. reflexivity. Qed.

Ltac field_step :=
  lazymatch goal with
  | |- context [bind (fillField ?env ?p (?l :: ?rest) ?v) _ ?w] =>
      let w' := fresh "w" in
      let R := fresh "R" in
      let K := fresh "K" in
      let A := fresh "A" in
      destruct (fillField_run env p l rest v w) as (w' & R & K & A);
      rewrite (bind_run _ _ _ _ _ R); cbv beta
  | |- context [bind (selectOption ?env ?p ?ls ?v) _ ?w] =>
      let w' := fresh "w" in
      let R := fresh "R" in
      let K := fresh "K" in
      destruct (selectOption_run env p ls v w) as (w' & R & K);
      rewrite (bind_run _ _ _ _ _ R); cbv beta
  end.

(** The fields of the form are all tried, one after the other, whatever the
    resolver found for the ones before. *)
Lemma fillCollectionFields_run env p packages weight text w :
  exists w',
    fillCollectionFields env p packages weight text w = (Ok tt, w') /\
    forall label, In label fieldLabels -> In (EvQuery p (byAriaLabel label)) (trace w').
Proof.
  unfold fillCollectionFields.
  do 7 field_step.
  destruct (JS.truthy text); cbn [when].
  - rewrite bind_assoc. field_step. rewrite bind_ret_l. do 2 field_step.
    eexists. split; [reflexivity |].
    intros label Hin. simpl in Hin.
    repeat (destruct Hin as [<- | Hin]; [auto 20 |]). contradiction.
  - rewrite bind_ret_l. do 2 field_step.
    eexists. split; [reflexivity |].
    intros label Hin. simpl in Hin.
    repeat (destruct Hin as [<- | Hin]; [auto 20 |]). contradiction.
Qed.

Lemma fillByLabel_miss env p label value w :
  (forall t e, In e (lookups p label) -> envElement env (t ++ [e])%list = Ok None) ->
  exists w',
    fillByLabel env p label value w = (Ok false, w') /\
    trace w' = (trace w ++ lookups p label)%list.
Proof.
  intros H. unfold fillByLabel, bind, query, perform, fillIfFound, ret. simpl.
  repeat (rewrite H by (simpl; tauto); simpl).
  eexists. split; [reflexivity |]. simpl. now rewrite <- !app_assoc.
Qed.

Lemma fillAny_miss env p labels value w :
  noMatch env p labels ->
  exists w',
    fillAny env p labels value w = (Ok false, w') /\
    trace w' = (trace w ++ flat_map (lookups p) labels)%list.
Proof.
  revert w. induction labels as [| label rest IH]; intros w Hno.
  - exists w. split; [reflexivity |]. simpl. now rewrite app_nil_r.
  - destruct (fillByLabel_miss env p label value w) as (w1 & H1 & T1).
    { intros t e He. apply (Hno t label e); [now left | exact He]. }
    destruct (IH w1) as (w2 & H2 & T2).
    { intros t l e Hl He. apply (Hno t l e); [now right | exact He]. }
    exists w2. split.
    + simpl. unfold bind at 1. unfold tryCatch. rewrite H1. exact H2.
    + rewrite T2, T1. simpl flat_map. now rewrite <- app_assoc.
Qed.

(** C8, as the code has it.  [fillField] never throws and hands its caller
    [undefined], hit or miss; when no strategy matches any label variant it
    has issued the look-ups and nothing else, so no field was filled; and the
    form filler goes through all its fields whatever the resolver found. *)
Theorem fillField_miss_is_skipped env p :
  (forall labels value w,
     exists w', fillField env p labels value w = (Ok JSUndefined, w')) /\
  (forall labels value w,
     noMatch env p labels ->
     exists w',
       fillField env p labels value w = (Ok JSUndefined, w') /\
       trace w' = (trace w ++ flat_map (lookups p) labels)%list) /\
  (forall packages weight text w,
     exists w',
       fillCollectionFields env p packages weight text w = (Ok tt, w') /\
       forall label, In label fieldLabels -> In (EvQuery p (byAriaLabel label)) (trace w')).
Proof.
  split; [| split].
  - intros. apply fillField_undefined.
  - intros labels value w Hno.
    destruct (fillAny_miss env p labels value w Hno) as (w' & H & T).
    exists w'. split; [| exact T].
    unfold fillField. now rewrite (bind_run _ _ _ _ _ H).
  - intros. apply fillCollectionFields_run.
Qed.

Lemma quietSite_noMatch launched p labels : noMatch (quietSite launched) p labels.
Proof.
  intros t label e _ He. simpl. rewrite last_snoc.
  destruct He as [<- | [<- | [<- | [<- | []]]]]; reflexivity.
Defined.

Lemma fillField_miss_is_skipped_witness :
  noMatch (quietSite plainBrowser) 1%nat ["Weight"; "Total Weight"] /\
  exists w',
    fillField (quietSite plainBrowser) 1%nat ["Weight"; "Total Weight"] "10" freshWorld
      = (Ok JSUndefined, w') /\
    trace w' = (lookups 1%nat "Weight" ++ lookups 1%nat "Total Weight")%list.
Proof.
  split; [apply quietSite_noMatch |].
  destruct (proj1 (proj2 (fillField_miss_is_skipped (quietSite plainBrowser) 1%nat))
              ["Weight"; "Total Weight"] "10" freshWorld (quietSite_noMatch _ _ _))
    as (w' & H & T).
  exists w'. split; [exact H |]. rewrite T. reflexivity.
Defined.

(** On a page where only the e-mail field can be found, the eight fields
    before it are skipped and the e-mail is still typed in. *)
Example skipped_fields_do_not_stop_the_form :
  List.filter (fun e => match e with EvFill _ _ => true | _ => false end)
    (trace (snd (fillCollectionFields emailOnlySite 1%nat 1 10 (Some "Ring the bell")
                   freshWorld)))
  = [EvFill 42%nat DEFAULTS.email].
Proof. vm_compute. reflexivity. Qed.

(** C8 as stated fails on the value: on a miss [fillField] does not return
    [false]; its caller gets [undefined], as on a hit. *)
Lemma fillField_miss_is_not_false :
  noMatch (quietSite plainBrowser) 1%nat ["Company"; "Company Name"; "company"] /\
  fst (fillField (quietSite plainBrowser) 1%nat ["Company"; "Company Name"; "company"]
         DEFAULTS.company freshWorld) = Ok JSUndefined /\
  fst (fillField (quietSite plainBrowser) 1%nat ["Company"; "Company Name"; "company"]
         DEFAULTS.company freshWorld) <> Ok (JSBoolean false) /\
  fst (fillField emailOnlySite 1%nat ["Email"; "Notification Email"; "email"]
         DEFAULTS.email freshWorld) = Ok JSUndefined.
Proof.
  split; [apply quietSite_noMatch |].
  split; [vm_compute; reflexivity |].
  split; [vm_compute; discriminate | vm_compute; reflexivity].
Qed.

(** ** Reset *)

Lemma reset_run env w :
  this_browser w = None \/ envUnit env (trace w ++ [EvBrowserClose])%list = Ok tt ->
  reset env w = (Ok resetDone, afterReset w).
Proof.
  intros Hclose. unfold reset, afterReset, tryCatch.
  erewrite bind_run by reflexivity. cbv beta.
  destruct (this_browser w) as [b |] eqn:Hb.
  - destruct Hclose as [? | Hclose]; [discriminate |].
    erewrite bind_run; cycle 1.
    { unfold bind, perform, modify. simpl. rewrite Hclose. reflexivity. }
    erewrite bind_run by reflexivity. cbv beta. cbv zeta.
    cbn [fs setPage setContext setBrowser record setTrace].
    destruct (fs w !! SESSION_PATH) as [d |] eqn:Hfile; cbn [present when].
    + unfold bind, unlinkSync. simpl. now rewrite Hfile.
    + reflexivity.
  - erewrite bind_run by reflexivity.
    erewrite bind_run by reflexivity. cbv beta. cbv zeta.
    destruct (fs w !! SESSION_PATH) as [d |] eqn:Hfile; cbn [present when].
    + unfold bind, unlinkSync. now rewrite Hfile.
    + reflexivity.
Qed.

(** [reset] never throws: what goes wrong inside it comes back as an error
    result. *)
Lemma reset_total env : total (reset env).
Proof.
  unfold reset. apply total_tryCatch. intros msg. apply total_ret.
Qed.



(** With nothing to close and nothing to delete, [reset] is a successful
    no-op. *)
Example reset_without_session :
  reset (quietSite plainBrowser) freshWorld = (Ok resetDone, freshWorld).
Proof. reflexivity. Qed.

(** ** Zero packages, zero weight *)




(** With both options at zero, what is typed into the two fields is "1" and
    "10". *)
Example zero_options_fill_defaults :
  List.filter (fun e => match e with EvFill (5 | 6)%nat _ => true | _ => false end)
    (trace (snd (fillForm parcelSite
                   (withPackages (Some 0) (withWeight (Some 0) noOptions)) freshWorld)))
  = [EvFill 5%nat "1"; EvFill 6%nat "10"].
Proof. vm_compute. reflexivity. Qed.

(** ** Calendar arithmetic behind [getSmartDate] *)

Lemma yearOfEra_range doe : 0 <= doe < 146097 -> 0 <= yearOfEra doe < 400.
Proof. intros H. unfold yearOfEra. Z.div_mod_to_equations. lia. Qed.

Lemma dayOfYear_range doe : 0 <= doe < 146097 -> 0 <= dayOfYear doe < 366.
Proof.
  intros H. pose proof (yearOfEra_range doe H).
  unfold dayOfYear, yearOfEra in *. Z.div_mod_to_equations. lia.
Qed.

Lemma monthIndex_range doe : 0 <= doe < 146097 -> 0 <= monthIndex doe < 12.
Proof.
  intros H. pose proof (dayOfYear_range doe H).
  unfold monthIndex. Z.div_mod_to_equations. lia.
Qed.

(** Going from a day number to the calendar and back, [k] days further on
    in the month, lands [k] days further on. *)
Lemma MakeDay_civilFromDays n k :
  let '(y, m, d) := civilFromDays n in MakeDay y m (d + k) = n + k.
Proof.
  unfold civilFromDays, MakeDay, daysFromCivil.
  set (z := n + 719468). set (era := z / 146097). set (doe := z - era * 146097).
  assert (Hdoe : 0 <= doe < 146097).
  { subst doe era. pose proof (Z.mod_pos_bound z 146097 ltac:(lia)) as Hm.
    rewrite Z.mod_eq in Hm by lia. lia. }
  pose proof (yearOfEra_range doe Hdoe) as Hy.
  pose proof (monthIndex_range doe Hdoe) as Hm.
  fold (yearOfEra doe). fold (dayOfYear doe). fold (monthIndex doe).
  set (yoe := yearOfEra doe) in *. set (mp := monthIndex doe) in *.
  assert (Hdoy : dayOfYear doe = doe - (365 * yoe + yoe / 4 - yoe / 100)) by reflexivity.
  set (doy := dayOfYear doe) in *.
  set (m := if mp <? 10 then mp + 3 else mp - 9).
  assert (Hm' : (if 2 <? m then m - 3 else m + 9) = mp).
  { subst m. destruct (Z.ltb_spec mp 10).
    - destruct (Z.ltb_spec 2 (mp + 3)); lia.
    - destruct (Z.ltb_spec 2 (mp - 9)); lia. }
  assert (Hy' : (if m <=? 2
                 then (if m <=? 2 then yoe + era * 400 + 1 else yoe + era * 400) - 1
                 else (if m <=? 2 then yoe + era * 400 + 1 else yoe + era * 400))
                = yoe + era * 400)
    by (destruct (m <=? 2); lia).
  rewrite Hy', Hm'.
  replace ((yoe + era * 400) / 400) with era
    by (apply (Z.div_unique _ 400 era yoe); lia).
  replace (yoe + era * 400 - era * 400) with yoe by lia.
  rewrite Hdoy. subst doe z. lia.
Qed.

Lemma setDate_next tz t : setDate tz t (getDate tz t + 1) = t + msPerDay.
Proof.
  unfold setDate, getDate.
  pose proof (MakeDay_civilFromDays (Day (LocalTime tz t)) 1) as H.
  destruct (civilFromDays (Day (LocalTime tz t))) as [[y m] d]. simpl snd. rewrite H.
  unfold UTC, MakeDate, TimeWithinDay, Day, LocalTime, msPerDay.
  pose proof (Z.div_mod (t + tz) 86400000 ltac:(lia)). lia.
Qed.

Lemma getDay_range tz t : 0 <= getDay tz t < 7.
Proof. unfold getDay, WeekDay. apply Z.mod_pos_bound. lia. Qed.

Lemma getDay_next tz t : getDay tz (t + msPerDay) = (getDay tz t + 1) mod 7.
Proof.
  unfold getDay, WeekDay, Day, LocalTime, msPerDay.
  replace (t + 86400000 + tz) with (t + tz + 1 * 86400000) by lia.
  rewrite Z.div_add by lia.
  rewrite Zplus_mod_idemp_l. f_equal. lia.
Qed.

(** The loop over the weekend ends within two rounds, on a weekday: more
    fuel changes nothing. *)
Lemma skipWeekend_fuel tz n t :
  skipWeekend tz (S (S n)) t = skipWeekend tz 2 t /\
  getDay tz (skipWeekend tz 2 t) <> 0 /\
  getDay tz (skipWeekend tz 2 t) <> 6 /\
  skipWeekend tz 2 t
  = t + (if getDay tz t =? 6 then 2 else if getDay tz t =? 0 then 1 else 0) * msPerDay.
Proof.
  pose proof (getDay_range tz t) as Hr.
  pose proof (getDay_next tz t) as H1.
  pose proof (getDay_next tz (t + msPerDay)) as H2.
  cbn [skipWeekend]. rewrite !setDate_next.
  destruct (Z.eqb_spec (getDay tz t) 0) as [E0 | N0];
    destruct (Z.eqb_spec (getDay tz t) 6) as [E6 | N6]; cbn [orb]; try lia.
  - rewrite E0 in H1. change ((0 + 1) mod 7) with 1 in H1.
    rewrite !H1. change ((1 =? 0) || (1 =? 6))%bool with false. cbv iota.
    rewrite H1. repeat split; lia.
  - rewrite E6 in H1. change ((6 + 1) mod 7) with 0 in H1.
    rewrite H1 in H2. change ((0 + 1) mod 7) with 1 in H2.
    rewrite !H1. change ((0 =? 0) || (0 =? 6))%bool with true. cbv iota.
    assert (Hstop : skipWeekend tz n (t + msPerDay + msPerDay) = t + msPerDay + msPerDay).
    { destruct n; [reflexivity |]. cbn [skipWeekend]. rewrite H2. reflexivity. }
    rewrite Hstop, H2. repeat split; lia.
Qed.

(** ** The date that [getSmartDate] renders *)

Lemma hasT_app a b : hasT (a +:+ b) = hasT a || hasT b.
Proof.
  induction a as [| c a IH]; simpl; [reflexivity |].
  now rewrite IH, orb_assoc.
Qed.

Lemma beforeChar_app s r :
  hasT s = false -> JS.beforeChar "T" (s +:+ r) = s +:+ JS.beforeChar "T" r.
Proof.
  induction s as [| c s IH]; simpl; [reflexivity |].
  intros H. apply orb_false_iff in H as [Hc Hs].
  rewrite Hc. now rewrite IH.
Qed.

Lemma append_empty_r s : s +:+ "" = s.
Proof.
  induction s as [| c s IH]; [reflexivity |].
  change (String c s +:+ "") with (String c (s +:+ "")). now rewrite IH.
Qed.

Lemma hasT_uint d : hasT (NilEmpty.string_of_uint d) = false.
Proof. induction d; simpl; auto. Qed.

Lemma hasT_String_of_Z n : hasT (JS.String_of_Z n) = false.
Proof.
  unfold JS.String_of_Z, NilZero.string_of_int, NilZero.string_of_uint.
  destruct (Z.to_int n) as [d | d]; destruct d; simpl; auto using hasT_uint.
Qed.

Lemma hasT_pad width n : hasT (pad width n) = false.
Proof.
  unfold pad. rewrite hasT_app, hasT_String_of_Z, orb_false_r.
  induction (width - String.length (JS.String_of_Z n))%nat as [| k IH]; simpl; auto.
Qed.

Lemma hasT_isoDate day : hasT (isoDate day) = false.
Proof.
  unfold isoDate, isoYear. destruct (civilFromDays day) as [[y m] d].
  repeat rewrite hasT_app.
  destruct ((0 <=? y) && (y <=? 9999)); [| destruct (y <? 0)];
    repeat rewrite ?hasT_app, ?hasT_pad; reflexivity.
Qed.

(** The date part that [getSmartDate] cuts out of [toISOString] is the
    calendar day, in UTC, of the time value. *)
Lemma isoDate_of_toISOString t : JS.beforeChar "T" (toISOString t) = isoDate (Day t).
Proof.
  unfold toISOString. rewrite beforeChar_app by apply hasT_isoDate.
  change (JS.beforeChar "T" ("T" +:+ ?r)) with "". apply append_empty_r.
Qed.

Lemma timeOfDay_range c : validTime c -> 0 <= timeOfDay c < msPerDay.
Proof.
  intros (Hh & Hm & Hs).
  unfold timeOfDay, MakeTime, msPerDay, msPerHour, msPerMinute, msPerSecond. lia.
Qed.

Lemma getDay_parseLocal tz c :
  validTime c -> getDay tz (parseLocal tz c) = (dayNumber c + 4) mod 7.
Proof.
  intros Hv. pose proof (timeOfDay_range c Hv) as Ht.
  unfold getDay, WeekDay, Day, parseLocal, LocalTime, UTC, MakeDate.
  fold (dayNumber c). fold (timeOfDay c).
  replace (dayNumber c * msPerDay + timeOfDay c - tz + tz)
    with (timeOfDay c + dayNumber c * msPerDay) by lia.
  unfold msPerDay in *. rewrite Z.div_add by lia. rewrite Z.div_small by lia.
  reflexivity.
Qed.

(** The instant that [getSmartDate] renders: the wall clock read as a local
    time of the process, [daysAhead] days later. *)
Lemma getSmartDate_target tz uk :
  validTime uk ->
  getSmartDate tz uk
  = isoDate (Day (parseLocal tz uk
                  + daysAhead (wcHour uk) ((dayNumber uk + 4) mod 7) * msPerDay)).
Proof.
  intros Hv. unfold getSmartDate. rewrite isoDate_of_toISOString.
  rewrite (getHours_parseLocal tz uk Hv), setDate_next. do 2 f_equal.
  set (t := parseLocal tz uk).
  pose proof (getDay_parseLocal tz uk Hv) as Hd. fold t in Hd.
  unfold daysAhead.
  destruct (13 <=? wcHour uk).
  - destruct (skipWeekend_fuel tz 5 (t + msPerDay)) as (-> & _ & _ & ->).
    rewrite getDay_next, Hd, Zplus_mod_idemp_l. lia.
  - destruct (skipWeekend_fuel tz 5 t) as (-> & _ & _ & ->).
    rewrite Hd, Z.add_0_r, Z.mod_mod by lia. lia.
Qed.

(** When the process itself runs in UTC, [getSmartDate] is the function of
    the Europe/London wall clock that its documentation describes: the day of
    the wall clock before 13:00 and the next day from 13:00 on, moved past
    Saturday and Sunday. *)
Lemma getSmartDate_in_utc uk :
  validTime uk ->
  getSmartDate 0 uk
  = isoDate (dayNumber uk + daysAhead (wcHour uk) ((dayNumber uk + 4) mod 7)).
Proof.
  intros Hv. rewrite (getSmartDate_target 0 uk Hv). f_equal.
  pose proof (timeOfDay_range uk Hv) as Ht.
  unfold Day, parseLocal, UTC, MakeDate. fold (dayNumber uk). fold (timeOfDay uk).
  set (k := daysAhead _ _).
  replace (dayNumber uk * msPerDay + timeOfDay uk - 0 + k * msPerDay)
    with (timeOfDay uk + (dayNumber uk + k) * msPerDay) by lia.
  unfold msPerDay in *. rewrite Z.div_add by lia. rewrite Z.div_small by lia.
  reflexivity.
Qed.

(** Friday 5 July 2024, 14:00 in London, on a process in UTC: the following
    Monday. *)
Example getSmartDate_friday_afternoon :
  getSmartDate 0 (clockAt 2024 7 5 14 0) = "2024-07-08".
Proof. vm_compute. reflexivity. Qed.

(** * Beyond the claims: the rest of the client *)

(** ** Orders on worlds that the page steps respect *)

Lemma perform_inv env {A : Type} (answer : Env -> list Event -> Res A) e w r w' :
  perform env answer e w = (r, w') ->
  w' = record e w /\ r = answer env (trace w ++ [e])%list.
Proof. now intros [= <- <-]. Qed.

Lemma sameFiles_refl w : sameFiles w w.
Proof. reflexivity. Qed.

Lemma sameFiles_trans a b c : sameFiles a b -> sameFiles b c -> sameFiles a c.
Proof. unfold sameFiles. congruence. Qed.

Lemma sameFiles_record e w : sameFiles w (record e w).
Proof. reflexivity. Qed.

Lemma sameHandles_refl w : sameHandles w w.
Proof. repeat split. Qed.

Lemma sameHandles_trans a b c : sameHandles a b -> sameHandles b c -> sameHandles a c.
Proof. unfold sameHandles. intuition congruence. Qed.

Lemma sameHandles_record e w : sameHandles w (record e w).
Proof. repeat split. Qed.

Lemma grow_record e w : extendsBy anyEvent w (record e w).
Proof. apply extendsBy_record. exact I. Qed.

(** A proof of [mono] for code that only talks to the page, by the shape of
    the code: [R], [T] and [Rec] are the proofs that the order is reflexive,
    transitive and respected by every call. *)
Ltac page_mono R T Rec :=
  repeat lazymatch goal with
    | |- mono _ (bind _ _) => apply (mono_bind _ T); [| intros ?]
    | |- mono _ (tryCatch _ _) => apply (mono_tryCatch _ T); [| intros ?]
    | |- mono _ (ret _) => apply (mono_ret _ R)
    | |- mono _ (throw _) => apply (mono_throw _ R)
    | |- mono _ (get _) => apply (mono_get _ R)
    | |- mono _ (existsSync _) => apply (mono_get _ R)
    | |- mono _ (DateNow _) => apply (mono_get _ R)
    | |- mono _ (ukWallClock _) => apply (mono_get _ R)
    | |- mono _ (readSession _) => apply (mono_readSession _ R)
    | |- mono _ (when _ _) => apply (mono_when _ R)
    | |- mono _ (ignoreErrors _) => apply (mono_ignoreErrors _ R T)
    | |- mono _ (stampedPath _ _) => apply (mono_stampedPath _ R T)
    | |- mono _ (dismissCookieBanners _ _) =>
        apply (mono_dismissCookieBanners _ R T (fun _ => True) (fun e w _ => Rec e w));
        intros; exact I
    | |- mono _ (waitForFirst _ _ _ _) =>
        apply (mono_waitForFirst _ R T (fun _ => True) (fun e w _ => Rec e w));
        intros; exact I
    | |- mono _ (failWithScreenshot _ _ _ _) =>
        apply (mono_failWithScreenshot _ R T (fun _ => True) (fun e w _ => Rec e w));
        intros; exact I
    | |- mono _ (fillFormBody _ _ _ _ _ _ _) =>
        apply (mono_fillFormBody _ R T (fun _ => True) (fun e w _ => Rec e w));
        intros; exact I
    | |- mono _ (fillAny _ _ _ _) =>
        apply (mono_fillAny _ R T (fun _ => True) (fun e w _ => Rec e w));
        intros; exact I
    | |- mono _ (selectAny _ _ _ _) =>
        apply (mono_selectAny _ R T (fun _ => True) (fun e w _ => Rec e w));
        intros; exact I
    | |- mono _ (match ?x with _ => _ end) => destruct x
    | |- mono _ _ =>
        apply (mono_perform _ (fun _ => True) (fun e w _ => Rec e w)); exact I
    end.

Section PageOnly.

Variable le : World -> World -> Prop.
Hypothesis le_refl : forall w, le w w.
Hypothesis le_trans : forall a b c, le a b -> le b c -> le a c.
Hypothesis le_record : forall e w, le w (record e w).
Variable env : Env.

Lemma mono_extractConfirmation p : mono le (extractConfirmation env p).
Proof. unfold extractConfirmation. page_mono le_refl le_trans le_record. Qed.

Lemma mono_submitBody p : mono le (submitBody env p).
Proof.
  unfold submitBody.
  repeat first [apply mono_extractConfirmation | progress page_mono le_refl le_trans le_record].
Qed.

Lemma mono_clickFirstVisible p selectors : mono le (clickFirstVisible env p selectors).
Proof.
  induction selectors as [| selector rest IH]; simpl.
  - apply (mono_ret _ le_refl).
  - apply (mono_bind _ le_trans); [page_mono le_refl le_trans le_record |].
    intros [|]; [apply (mono_ret _ le_refl) | exact IH].
Qed.

(** [submit] is the acquisition of the page followed by steps that respect
    the order. *)
Lemma submit_after_acquire :
  exists rest, submit env = bind (ensureBrowser env) rest /\
               forall page, mono le (rest page).
Proof.
  unfold submit. eexists. split; [reflexivity |].
  intros page. cbv beta.
  repeat first [apply mono_submitBody | progress page_mono le_refl le_trans le_record].
Qed.

(** So is [takeScreenshot]. *)
Lemma takeScreenshot_after_acquire options :
  exists rest, takeScreenshot env options = bind (ensureBrowser env) rest /\
               forall page, mono le (rest page).
Proof.
  unfold takeScreenshot. eexists. split; [reflexivity |].
  intros page. cbv beta. page_mono le_refl le_trans le_record.
Qed.

End PageOnly.

(** ** [updateSession] *)

(** X1.  [updateSession] touches no file but the descriptor.  With no
    descriptor it does nothing and creates none; with a descriptor it writes
    the merge, in which a field that the update does not name keeps its
    value; with a descriptor that does not parse it throws and leaves the
    files as they are. *)
Theorem updateSession_merges u w r w' :
  updateSession u w = (r, w') ->
  (forall path : string, path <> SESSION_PATH -> fs w' !! path = fs w !! path) /\
  match fs w !! SESSION_PATH with
  | None => r = Ok tt /\ w' = w
  | Some (Json s) =>
      r = Ok tt /\
      exists s',
        fs w' !! SESSION_PATH = Some (Json s') /\
        wsEndpoint s' = default (wsEndpoint s) (updWsEndpoint u) /\
        createdAt s' = default (createdAt s) (updCreatedAt u) /\
        formFilled s' = default (formFilled s) (updFormFilled u) /\
        loggedIn s' = default (loggedIn s) (updLoggedIn u)
  | Some _ => (exists msg, r = Throw msg) /\ w' = w
  end.
Proof.
  unfold updateSession, bind, existsSync, get, when, readSession, writeSession, ret.
  destruct (fs w !! SESSION_PATH) as [[| | s] |] eqn:E; simpl; rewrite ?E;
    intros [= <- <-]; (split; [intros path Hne; simpl; rewrite ?lookup_insert_ne by congruence;
                                reflexivity |]).
  - split; [eauto | reflexivity].
  - split; [eauto | reflexivity].
  - split; [reflexivity |]. eexists. split; [simpl; apply lookup_insert_eq |].
    repeat split.
  - split; reflexivity.
Qed.

Lemma updateSession_merges_witness :
  exists w' s',
    updateSession onlyFormFilled loggedInWorld = (Ok tt, w') /\
    fs w' !! SESSION_PATH = Some (Json s') /\
    wsEndpoint s' = wsEndpoint liveSession /\
    loggedIn s' = true /\ formFilled s' = true.
Proof.
  destruct (updateSession onlyFormFilled loggedInWorld) as [r w'] eqn:E.
  pose proof (updateSession_merges _ _ _ _ E) as [_ H].
  replace (fs loggedInWorld !! SESSION_PATH) with (Some (Json liveSession)) in H
    by (vm_compute; reflexivity).
  destruct H as (-> & s' & H1 & H2 & _ & H3 & H4).
  exists w', s'. repeat split; assumption.
Defined.

Lemma applyUpdate_twice u s : applyUpdate u (applyUpdate u s) = applyUpdate u s.
Proof.
  unfold applyUpdate. simpl.
  destruct (updWsEndpoint u), (updCreatedAt u), (updFormFilled u), (updLoggedIn u);
    reflexivity.
Qed.

(** X2.  Updates compose on the descriptor: an update made twice leaves the
    files as the update made once, and the update that [login] makes followed
    by the one that [fillForm] makes leaves both flags set, whatever they
    were. *)
Theorem updateSession_composes w :
  (forall u, fs (snd (updateSession u (snd (updateSession u w))))
             = fs (snd (updateSession u w))) /\
  (forall s, fs w !! SESSION_PATH = Some (Json s) ->
     flagged (snd (updateSession onlyFormFilled (snd (updateSession onlyLoggedIn w))))
       true true).
Proof.
  split.
  - intros u.
    unfold updateSession, bind, existsSync, get, when, readSession, writeSession, ret.
    destruct (fs w !! SESSION_PATH) as [[| | s] |] eqn:E; simpl; rewrite ?E; simpl;
      rewrite ?E; simpl; rewrite ?E; try reflexivity.
    rewrite lookup_insert_eq. simpl. rewrite lookup_insert_eq. simpl.
    rewrite applyUpdate_twice. apply insert_insert_eq.
  - intros s Hs.
    unfold updateSession, bind, existsSync, get, when, readSession, writeSession, ret.
    rewrite Hs. simpl. rewrite Hs. simpl. rewrite lookup_insert_eq. simpl.
    rewrite lookup_insert_eq. simpl.
    eexists. split; [apply lookup_insert_eq | split; reflexivity].
Qed.

Lemma updateSession_composes_witness :
  flagged (snd (updateSession onlyFormFilled (snd (updateSession onlyLoggedIn staleWorld))))
    true true.
Proof.
  apply (proj2 (updateSession_composes staleWorld) staleSession).
  vm_compute. reflexivity.
Defined.

(** ** [ensureBrowser]: the other ways through it *)

Lemma withProfileDir_other w (path : string) :
  path <> USER_DATA_DIR -> fs (withProfileDir w) !! path = fs w !! path.
Proof.
  intros Hne. unfold withProfileDir. destruct (present _); [reflexivity |].
  simpl. now apply lookup_insert_ne.
Qed.

Lemma withProfileDir_there w : is_Some (fs (withProfileDir w) !! USER_DATA_DIR).
Proof.
  unfold withProfileDir. destruct (fs w !! USER_DATA_DIR) as [d |] eqn:E; simpl.
  - rewrite E. eauto.
  - rewrite lookup_insert_eq. eauto.
Qed.

(** [ensureBrowser] from the check for a saved session on, for every
    continuation [k] of what that check and the reconnection give. *)
Lemma ensureBrowser_prepare env w :
  ensureBrowser env w
  = bind (existsSync SESSION_PATH)
      (fun saved =>
         bind (if saved
               then tryCatch (reconnect env)
                      (fun _ => bind (ignoreErrors (unlinkSync SESSION_PATH))
                                  (fun _ => ret None))
               else ret None)
           (fun found => match found with
                         | Some p => ret p
                         | None => freshLaunch env
                         end))
      (withProfileDir w).
Proof.
  unfold ensureBrowser.
  erewrite bind_run by reflexivity. cbv beta.
  assert (Hprep : when (negb (present (fs w !! USER_DATA_DIR))) (mkdirSync USER_DATA_DIR) w
                  = (Ok tt, withProfileDir w))
    by (unfold withProfileDir; destruct (present _); reflexivity).
  now rewrite (bind_run _ _ _ _ _ Hprep).
Qed.

(** The run of [ensureBrowser] on a saved session that is alive. *)
Lemma ensureBrowser_reconnect_run env w s b p :
  fs w !! SESSION_PATH = Some (Json s) ->
  answersAt env (wsEndpoint s) b ->
  firstPage b = Some p ->
  exists w',
    ensureBrowser env w = (Ok p, w') /\
    fs w' = fs (withProfileDir w) /\
    fs w' !! SESSION_PATH = Some (Json s) /\
    this_browser w' = Some b /\
    this_page w' = Some p /\
    trace w' = (trace (withProfileDir w) ++ [EvConnectOverCDP (wsEndpoint s)])%list.
Proof.
  intros Hs Hb Hp.
  assert (HsA : fs (withProfileDir w) !! SESSION_PATH = Some (Json s))
    by (rewrite withProfileDir_other by discriminate; exact Hs).
  rewrite ensureBrowser_prepare. set (wA := withProfileDir w) in *.
  erewrite bind_run by reflexivity. cbv beta. rewrite HsA. cbn [present].
  unfold firstPage in Hp.
  destruct (contexts b) as [| c cs] eqn:Hc; [discriminate |].
  destruct (pages c) as [| q qs] eqn:Hq; [discriminate |]. injection Hp as ->.
  exists (setPage (Some p) (setContext (Some c) (setBrowser (Some b)
            (record (EvConnectOverCDP (wsEndpoint s)) wA)))).
  split.
  - erewrite bind_run; cycle 1.
    { unfold tryCatch, reconnect.
      erewrite bind_run by (unfold readSession; rewrite HsA; reflexivity).
      erewrite bind_run by (unfold perform; simpl; rewrite (Hb (trace wA)); reflexivity).
      erewrite bind_run by reflexivity.
      rewrite Hc. erewrite bind_run by reflexivity. rewrite Hq.
      erewrite bind_run by reflexivity. reflexivity. }
    reflexivity.
  - simpl. repeat split. exact HsA.
Qed.


(** X3.  When the saved session is alive (its descriptor parses, a browser
    answers at its endpoint and has a page), [ensureBrowser] returns that
    page and the client holds that browser; nothing is launched, and the
    files are untouched but for the profile directory, so that the descriptor
    and its two flags are what they were. *)
Theorem ensureBrowser_reconnects env w s b p :
  fs w !! SESSION_PATH = Some (Json s) ->
  answersAt env (wsEndpoint s) b ->
  firstPage b = Some p ->
  exists w',
    ensureBrowser env w = (Ok p, w') /\
    fs w' = fs (withProfileDir w) /\
    fs w' !! SESSION_PATH = Some (Json s) /\
    this_browser w' = Some b /\
    this_page w' = Some p /\
    trace w' = (trace (withProfileDir w) ++ [EvConnectOverCDP (wsEndpoint s)])%list.
Proof. exact (ensureBrowser_reconnect_run env w s b p). Qed.

Lemma ensureBrowser_reconnects_witness :
  exists w',
    ensureBrowser (site (Some runningBrowser) plainBrowser false) loggedInWorld = (Ok 1%nat, w') /\
    fs w' !! SESSION_PATH = Some (Json liveSession) /\
    ~ In EvLaunch (trace w').
Proof.
  destruct (ensureBrowser_reconnects (site (Some runningBrowser) plainBrowser false)
              loggedInWorld liveSession runningBrowser 1%nat)
    as (w' & H1 & _ & H2 & _ & _ & H3).
  - vm_compute. reflexivity.
  - intros t. simpl. rewrite last_snoc. reflexivity.
  - reflexivity.
  - exists w'. split; [exact H1 | split; [exact H2 |]].
    rewrite H3. vm_compute. intuition discriminate.
Defined.



Lemma reconnect_handles env w p w' :
  reconnect env w = (Ok (Some p), w') ->
  is_Some (this_browser w') /\ is_Some (this_context w').
Proof.
  unfold reconnect, bind, readSession, perform, modify, ret.
  run_cases; intros [= <- <-]; simpl; eauto.
Qed.

Lemma freshLaunch_handles env w p w' :
  freshLaunch env w = (Ok p, w') ->
  is_Some (this_browser w') /\ is_Some (this_context w').
Proof.
  unfold freshLaunch. intros H.
  apply bind_Ok in H as ([] & w1 & _ & H). revert H.
  unfold bind, perform, modify, when, DateNow, get, writeSession, ret.
  run_cases; run_done; simpl; eauto.
Qed.

Lemma reconnect_files env w r w' : reconnect env w = (r, w') -> fs w' = fs w.
Proof.
  apply (mono_reconnect sameFiles sameFiles_refl sameFiles_trans (fun _ => True)
           (fun e w _ => sameFiles_record e w)); intros; try reflexivity; exact I.
Qed.

(** What [ensureBrowser] hands to the launch, or returns from the
    reconnection: the profile directory is still there. *)
Lemma ensureBrowser_found env w found w4 :
  bind (existsSync SESSION_PATH)
    (fun saved =>
       if saved
       then tryCatch (reconnect env)
              (fun _ => bind (ignoreErrors (unlinkSync SESSION_PATH)) (fun _ => ret None))
       else ret None) (withProfileDir w) = (Ok found, w4) ->
  is_Some (fs w4 !! USER_DATA_DIR) /\
  forall p, found = Some p ->
            this_page w4 = Some p /\ is_Some (this_browser w4) /\ is_Some (this_context w4).
Proof.
  pose proof (withProfileDir_there w) as Hdir. set (wA := withProfileDir w) in *.
  intros H. apply bind_Ok in H as (saved & w3 & [= <- <-] & H).
  destruct (present (fs wA !! SESSION_PATH)).
  - unfold tryCatch in H.
    destruct (reconnect env wA) as [[o | msg] w5] eqn:E.
    + injection H as <- <-. split.
      * now rewrite (reconnect_files _ _ _ _ E).
      * intros p ->. split; [exact (reconnect_page _ _ _ _ E) |].
        exact (reconnect_handles _ _ _ _ E).
    + pose proof (reconnect_files _ _ _ _ E) as Hfs.
      revert H. unfold bind, ignoreErrors, tryCatch, unlinkSync, ret.
      destruct (fs w5 !! SESSION_PATH); intros [= <- <-]; simpl;
        (split; [| discriminate]).
      * rewrite lookup_delete_ne by discriminate. now rewrite Hfs.
      * now rewrite Hfs.
  - injection H as <- <-. split; [exact Hdir | discriminate].
Qed.

(** What a returned page comes with. *)
Lemma ensureBrowser_acquires env w p w' :
  ensureBrowser env w = (Ok p, w') ->
  this_page w' = Some p /\ is_Some (this_browser w') /\ is_Some (this_context w') /\
  is_Some (fs w' !! USER_DATA_DIR).
Proof.
  intros H. rewrite ensureBrowser_prepare in H.
  rewrite <- bind_assoc in H.
  apply bind_Ok in H as (found & w4 & Hfound & H).
  destruct (ensureBrowser_found _ _ _ _ Hfound) as [Hdir Hsome].
  destruct found as [q |].
  - injection H as <- <-. destruct (Hsome q eq_refl) as (? & ? & ?). auto.
  - split; [exact (freshLaunch_page _ _ _ _ H) |].
    destruct (freshLaunch_handles _ _ _ _ H) as [Hb Hc].
    split; [exact Hb | split; [exact Hc |]].
    destruct (freshLaunch_spec env w4 p w' H) as (w1 & b & Hfs & _ & _ & _ & Hfs').
    assert (H1 : is_Some (fs w1 !! USER_DATA_DIR)).
    { rewrite Hfs. destruct (decide _) as [Hin |]; [| exact Hdir].
      exfalso. apply list_elem_of_In in Hin. simpl in Hin.
      destruct Hin as [Hin | [Hin | [Hin | []]]]; discriminate. }
    rewrite Hfs'. destruct (JS.truthy _); [| exact H1].
    now rewrite lookup_insert_ne by discriminate.
Qed.

(** X5.  Whatever way [ensureBrowser] took, when it returns a page the
    client holds that page, a context and a browser, and the profile
    directory exists; and however it ends, it has issued no call to a
    page. *)
Theorem ensureBrowser_holds_page env w :
  (forall p w',
     ensureBrowser env w = (Ok p, w') ->
     this_page w' = Some p /\ is_Some (this_browser w') /\ is_Some (this_context w') /\
     is_Some (fs w' !! USER_DATA_DIR)) /\
  (forall r w', ensureBrowser env w = (r, w') -> extendsBy offPage w w').
Proof.
  split; [intros p w'; apply ensureBrowser_acquires | intros r w'; apply ensureBrowser_off_page].
Qed.

Lemma ensureBrowser_holds_page_witness :
  exists p w',
    ensureBrowser (quietSite servedBrowser) staleWorld = (Ok p, w') /\
    this_page w' = Some p /\ is_Some (fs w' !! USER_DATA_DIR).
Proof.
  assert (E : ensureBrowser (quietSite servedBrowser) staleWorld
              = (Ok 1%nat, snd (ensureBrowser (quietSite servedBrowser) staleWorld)))
    by (vm_compute; reflexivity).
  destruct (proj1 (ensureBrowser_holds_page _ _) _ _ E) as (H1 & _ & _ & H2).
  eexists _, _. split; [exact E | split; assumption].
Defined.

(** ** Consent handler *)

Lemma clickCookieButton_total env p selectors : total (clickCookieButton env p selectors).
Proof.
  induction selectors as [| selector rest IH]; simpl.
  - apply total_ret.
  - apply total_bind.
    + apply total_tryCatch. intros; apply total_ret.
    + intros [|]; [apply total_ret | exact IH].
Qed.

Lemma clickCookieButton_calls env p selectors :
  mono (extendsBy bannerCall) (clickCookieButton env p selectors).
Proof.
  induction selectors as [| selector rest IH]; simpl.
  - apply (mono_ret _ (extendsBy_refl _)).
  - apply (mono_bind _ (extendsBy_trans _)).
    + apply (mono_tryCatch _ (extendsBy_trans _)); [| intros; apply (mono_ret _ (extendsBy_refl _))].
      apply (mono_bind _ (extendsBy_trans _)).
      * apply (mono_perform _ bannerCall (extendsBy_record bannerCall)). exact I.
      * intros [b |]; [| apply (mono_ret _ (extendsBy_refl _))].
        apply (mono_bind _ (extendsBy_trans _));
          [apply (mono_perform _ bannerCall (extendsBy_record bannerCall)); exact I |].
        intros _. apply (mono_bind _ (extendsBy_trans _));
          [apply (mono_perform _ bannerCall (extendsBy_record bannerCall)); exact I |].
        intros _. apply (mono_ret _ (extendsBy_refl _)).
    + intros [|]; [apply (mono_ret _ (extendsBy_refl _)) | exact IH].
Qed.

(** X6.  [dismissCookieBanners] tolerates everything but a failure of its
    first wait: if that wait goes through it returns, whatever the page does
    with the scripts, the look-ups and the clicks; if it throws, that is what
    [dismissCookieBanners] throws, having done nothing else.  All it ever
    issues are waits, the two clean-up scripts, look-ups and clicks. *)
Theorem dismissCookieBanners_tolerant env p w :
  (envUnit env (trace w ++ [EvWaitForTimeout p 2000])%list = Ok tt ->
     exists w', dismissCookieBanners env p w = (Ok tt, w')) /\
  (forall msg,
     envUnit env (trace w ++ [EvWaitForTimeout p 2000])%list = Throw msg ->
     dismissCookieBanners env p w = (Throw msg, record (EvWaitForTimeout p 2000) w)) /\
  (forall r w', dismissCookieBanners env p w = (r, w') -> extendsBy bannerCall w w').
Proof.
  split; [| split].
  - intros Hwait. unfold dismissCookieBanners.
    erewrite bind_run by (unfold waitForTimeout, perform; simpl; rewrite Hwait; reflexivity).
    assert (Ht : total (bind (ignoreErrors (evaluate env p RemoveOverlays))
                          (fun _ => bind (clickCookieButton env p cookieButtonSelectors)
                                      (fun _ => ignoreErrors
                                                  (evaluate env p RemoveRemainingOverlays))))).
    { apply total_bind; [apply total_tryCatch; intros; apply total_ret |].
      intros _. apply total_bind; [apply clickCookieButton_total |].
      intros _. apply total_tryCatch; intros; apply total_ret. }
    destruct (Ht (record (EvWaitForTimeout p 2000) w)) as ([] & w' & H).
    exists w'. exact H.
  - intros msg Hwait. unfold dismissCookieBanners.
    apply bind_throw. unfold waitForTimeout, perform. simpl. now rewrite Hwait.
  - intros r w'. revert w r w'.
    change (mono (extendsBy bannerCall) (dismissCookieBanners env p)).
    unfold dismissCookieBanners.
    apply (mono_bind _ (extendsBy_trans _));
      [apply (mono_perform _ bannerCall (extendsBy_record bannerCall)); exact I |].
    intros _. apply (mono_bind _ (extendsBy_trans _)).
    { apply (mono_ignoreErrors _ (extendsBy_refl _) (extendsBy_trans _)).
      apply (mono_perform _ bannerCall (extendsBy_record bannerCall)). exact I. }
    intros _. apply (mono_bind _ (extendsBy_trans _)); [apply clickCookieButton_calls |].
    intros _. apply (mono_ignoreErrors _ (extendsBy_refl _) (extendsBy_trans _)).
    apply (mono_perform _ bannerCall (extendsBy_record bannerCall)). exact I.
Qed.

Lemma dismissCookieBanners_tolerant_witness :
  exists w', dismissCookieBanners (quietSite plainBrowser) 1%nat freshWorld = (Ok tt, w').
Proof.
  apply (proj1 (dismissCookieBanners_tolerant (quietSite plainBrowser) 1%nat freshWorld)).
  reflexivity.
Defined.

(** ** Steps that only issue calls *)

Lemma onlyCalls_refl w : onlyCalls w w.
Proof.
  split; [reflexivity | split; [apply sameHandles_refl | split; [reflexivity |]]].
  apply extendsBy_refl.
Qed.

Lemma onlyCalls_trans a b c : onlyCalls a b -> onlyCalls b c -> onlyCalls a c.
Proof.
  intros (F1 & H1 & C1 & T1) (F2 & H2 & C2 & T2).
  split; [congruence | split; [exact (sameHandles_trans _ _ _ H1 H2) | split; [congruence |]]].
  exact (extendsBy_trans _ _ _ _ T1 T2).
Qed.

Lemma onlyCalls_record e w : onlyCalls w (record e w).
Proof.
  split; [reflexivity | split; [apply sameHandles_record | split; [reflexivity |]]].
  apply grow_record.
Qed.

(** From a run of code that only talks to the page, the fact that it only
    issued calls. *)
Ltac page_fact_as H G :=
  lazymatch type of H with
  | ?m ?w = (?r, ?w') =>
      assert (G : onlyCalls w w')
        by (refine ((_ : mono onlyCalls m) w r w' H);
            solve [repeat first
                     [ apply (mono_clickFirstVisible _ onlyCalls_refl onlyCalls_trans
                                onlyCalls_record)
                     | apply (mono_extractConfirmation _ onlyCalls_refl onlyCalls_trans
                                onlyCalls_record)
                     | progress page_mono onlyCalls_refl onlyCalls_trans onlyCalls_record ]])
  end.

Ltac page_fact H := let G := fresh "G" in page_fact_as H G.

Lemma issued_nil w : issued w w [].
Proof. exists []. split; [now rewrite app_nil_r | constructor]. Qed.

Lemma issued_grow Q w w1 w2 calls :
  issued w w1 calls -> extendsBy Q w1 w2 -> issued w w2 calls.
Proof.
  intros (a & Ha & Hs) (b & Hb & _). exists (a ++ b)%list. split.
  - now rewrite Hb, Ha, <- app_assoc.
  - now apply sublist_inserts_r.
Qed.

Lemma issued_calls w w1 w2 calls : issued w w1 calls -> onlyCalls w1 w2 -> issued w w2 calls.
Proof. intros H (_ & _ & _ & G). exact (issued_grow _ _ _ _ _ H G). Qed.

Lemma issued_record w w1 calls e :
  issued w w1 calls -> issued w (record e w1) (calls ++ [e]).
Proof.
  intros (a & Ha & Hs). exists (a ++ [e])%list. split.
  - simpl. now rewrite Ha, <- app_assoc.
  - now apply sublist_app.
Qed.

Lemma issued_after Q w w1 w2 calls :
  extendsBy Q w w1 -> issued w1 w2 calls -> issued w w2 calls.
Proof.
  intros (a & Ha & _) (b & Hb & Hs). exists (a ++ b)%list. split.
  - now rewrite Hb, Ha, <- app_assoc.
  - now apply sublist_inserts_l.
Qed.

Lemma issued_app w w1 w2 calls calls' :
  issued w w1 calls -> issued w1 w2 calls' -> issued w w2 (calls ++ calls').
Proof.
  intros (a & Ha & Hs) (b & Hb & Hs'). exists (a ++ b)%list. split.
  - now rewrite Hb, Ha, <- app_assoc.
  - now apply sublist_app.
Qed.

(** Steps that only issue calls, one after the other. *)
Ltac onlyCalls_chain :=
  solve [ apply onlyCalls_refl
        | eassumption
        | eapply onlyCalls_trans; [eassumption | onlyCalls_chain] ].

Lemma ensureBrowser_config env w r w' : ensureBrowser env w = (r, w') -> config w' = config w.
Proof.
  apply (mono_ensureBrowser (fun a b => config b = config a)) with (okEvent := fun _ => True);
    simpl; auto; congruence.
Qed.

Lemma updateSession_run u w r w' :
  updateSession u w = (r, w') ->
  sameHandles w w' /\ config w' = config w /\ extendsBy anyEvent w w' /\
  (r = Ok tt ->
   (fs w !! SESSION_PATH = None /\ fs w' = fs w) \/
   exists s, fs w !! SESSION_PATH = Some (Json s) /\
             fs w' = <[SESSION_PATH := Json (applyUpdate u s)]> (fs w)).
Proof.
  unfold updateSession, bind, existsSync, get, when, readSession, writeSession, ret.
  destruct (fs w !! SESSION_PATH) as [[| | s] |] eqn:E; simpl; rewrite ?E;
    intros [= <- <-]; (split; [apply sameHandles_refl || (repeat split) |]);
    (split; [reflexivity |]);
    (split; [apply extendsBy_refl || apply grow_record |]);
    intros Hr; try discriminate; eauto.
Qed.

(** ** [login] *)

(** The run of a [login] that returns: the acquisition of a page, calls to
    the page among which the four of the log-in, and the update of the
    descriptor. *)
Lemma login_run env w b w' :
  login env w = (Ok b, w') ->
  exists page w1 w2 user pass,
    b = true /\
    ensureBrowser env w = (Ok page, w1) /\
    onlyCalls w1 w2 /\
    issued w1 w2 [EvGoto page UPS_LOGIN_URL; EvFill user (username (config w));
                  EvFill pass (password (config w)); EvWaitForLogin page] /\
    updateSession onlyLoggedIn w2 = (Ok tt, w').
Proof.
  unfold login. intros H.
  apply bind_Ok in H as (page & w1 & E1 & H).
  apply bind_Ok in H as ([] & w2 & E2 & H). apply perform_inv in E2 as [-> _].
  apply bind_Ok in H as ([] & w3 & E3 & H). page_fact E3.
  apply bind_Ok in H as ([] & w4 & E4 & H). page_fact E4.
  apply bind_Ok in H as (shot & w5 & E5 & H). page_fact E5.
  apply bind_Ok in H as ([] & w6 & E6 & H). page_fact E6.
  apply bind_Ok in H as (uf & w7 & E7 & H). page_fact E7.
  destruct uf as [user |]; [| now apply failWithScreenshot_throws in H].
  apply bind_Ok in H as (cfg & w8 & [= <- <-] & H).
  apply bind_Ok in H as ([] & w9 & E9 & H). apply perform_inv in E9 as [-> _].
  apply bind_Ok in H as (cb & w10 & E10 & H). page_fact E10.
  apply bind_Ok in H as ([] & w11 & E11 & H). page_fact E11.
  apply bind_Ok in H as (pf & w12 & E12 & H). page_fact E12.
  destruct pf as [pass |]; [| now apply failWithScreenshot_throws in H].
  apply bind_Ok in H as ([] & w13 & E13 & H). apply perform_inv in E13 as [-> _].
  apply bind_Ok in H as (lb & w14 & E14 & H). page_fact E14.
  apply bind_Ok in H as ([] & w15 & E15 & H). page_fact E15.
  apply bind_Ok in H as ([] & w16 & E16 & H).
  apply bind_Ok in H as ([] & w17 & E17 & H).
  injection H as <- <-.
  assert (E16' : w16 = record (EvWaitForLogin page) w15).
  { revert E16. unfold tryCatch, perform. simpl.
    destruct (envUnit env _) as [[] | msg]; [now intros [= <-] |].
    intros E16. now apply failWithScreenshot_throws in E16. }
  subst w16.
  pose proof (onlyCalls_record (EvGoto page UPS_LOGIN_URL) w1) as Ga.
  pose proof (onlyCalls_record (EvFill user (username (config w7))) w7) as Gb.
  pose proof (onlyCalls_record (EvFill pass (password (config w7))) w12) as Gc.
  pose proof (onlyCalls_record (EvWaitForLogin page) w15) as Gd.
  exists page, w1, (record (EvWaitForLogin page) w15), user, pass.
  split; [reflexivity | split; [exact E1 | split; [| split; [| exact E17]]]].
  - onlyCalls_chain.
  - assert (Hcfg : config w7 = config w).
    { rewrite (proj1 (proj2 (proj2 G3))), (proj1 (proj2 (proj2 G2))),
        (proj1 (proj2 (proj2 G1))), (proj1 (proj2 (proj2 G0))),
        (proj1 (proj2 (proj2 G))). simpl. exact (ensureBrowser_config _ _ _ _ E1). }
    rewrite <- Hcfg.
    apply (issued_record _ _ [_; _; _]).
    eapply issued_calls; [| exact G8]. eapply issued_calls; [| exact G7].
    apply (issued_record _ _ [_; _]).
    eapply issued_calls; [| exact G6]. eapply issued_calls; [| exact G5].
    eapply issued_calls; [| exact G4].
    apply (issued_record _ _ [_]).
    eapply issued_calls; [| exact G3]. eapply issued_calls; [| exact G2].
    eapply issued_calls; [| exact G1]. eapply issued_calls; [| exact G0].
    eapply issued_calls; [| exact G].
    apply (issued_record _ _ []). apply issued_nil.
Qed.



(** ** [fillForm] *)

(** The run of a [fillForm] that returns: the acquisition of a page, the
    log-in, calls to the page, and then either the error screenshot or the
    preview screenshot and the update of the descriptor. *)
Lemma fillForm_run env options w r w' :
  fillForm env options w = (Ok r, w') ->
  exists page w1 b w2 w3,
    ensureBrowser env w = (Ok page, w1) /\
    login env w1 = (Ok b, w2) /\
    onlyCalls (record (EvGoto page UPS_FORM_URL) w2) w3 /\
    ((exists msg shot,
        r = fillError msg shot /\ w' = record (EvScreenshot page shot true) w3) \/
     (exists shot t,
        r = fillSuccess shot (reportedState (envTz env) options (envUK env t)) /\
        updateSession onlyFormFilled (record (EvScreenshot page shot true) w3) = (Ok tt, w'))).
Proof.
  unfold fillForm. intros H.
  apply bind_Ok in H as (page & w1 & E1 & H).
  apply bind_Ok in H as (b & w2 & E2 & H).
  apply bind_Ok in H as ([] & w3 & E3 & H). apply perform_inv in E3 as [-> _].
  apply bind_Ok in H as ([] & w4 & E4 & H). page_fact E4.
  apply bind_Ok in H as ([] & w5 & E5 & H). page_fact E5.
  apply bind_Ok in H as (uk & w6 & [= <- <-] & H). cbv zeta in H.
  apply bind_Ok in H as (shot0 & w7 & E7 & H). page_fact E7.
  apply bind_Ok in H as ([] & w8 & E8 & H). page_fact E8.
  apply bind_Ok in H as (failed & w9 & E9 & H).
  exists page, w1, b, w2.
  unfold tryCatch in E9.
  match type of E9 with
  | match ?m w8 with _ => _ end = _ => destruct (m w8) as [[x | msg] wb] eqn:Eb
  end.
  - injection E9 as <- <-.
    apply bind_Ok in Eb as ([] & wc & Ebody & [= <- <-]). page_fact Ebody.
    apply bind_Ok in H as (shot & w10 & E10 & H). page_fact E10.
    apply bind_Ok in H as ([] & w11 & E11 & H). apply perform_inv in E11 as [-> _].
    apply bind_Ok in H as ([] & w12 & E12 & H). injection H as <- <-.
    exists w10. split; [exact E1 | split; [exact E2 | split; [onlyCalls_chain |]]].
    right. exists shot, (trace w5). split; [reflexivity | exact E12].
  - page_fact Eb.
    apply bind_Ok in E9 as (shot & wd & E10 & E9). page_fact E10.
    apply bind_Ok in E9 as ([] & we & E11 & E9). apply perform_inv in E11 as [-> _].
    injection E9 as <- <-. injection H as <- <-.
    exists wd. split; [exact E1 | split; [exact E2 | split; [onlyCalls_chain |]]].
    left. exists msg, shot. split; reflexivity.
Qed.

Lemma withProfileDir_grows w : extendsBy anyEvent w (withProfileDir w).
Proof.
  unfold withProfileDir. destruct (present _); [apply extendsBy_refl |].
  eapply extendsBy_trans; [apply grow_record | now apply extendsBy_same].
Qed.

Lemma issued_sub w w1 calls calls' :
  issued w w1 calls -> sublist calls' calls -> issued w w1 calls'.
Proof.
  intros (a & Ha & Hs) H. exists a. split; [exact Ha |].
  now transitivity calls.
Qed.

Lemma In_record e w : In e (trace (record e w)).
Proof. simpl. apply in_or_app. right. now left. Qed.

(** With no descriptor on disk [ensureBrowser] launches a browser; if that
    browser reports no endpoint there is still no descriptor afterwards. *)
Lemma ensureBrowser_unsaved env w p w' :
  fs w !! SESSION_PATH = None ->
  ensureBrowser env w = (Ok p, w') ->
  issued w w' [EvLaunch; EvNewContext; EvNewPage] /\
  (noEndpoint env -> fs w' !! SESSION_PATH = None).
Proof.
  intros Hnone H. rewrite ensureBrowser_prepare in H.
  assert (HA : fs (withProfileDir w) !! SESSION_PATH = None)
    by (rewrite withProfileDir_other by discriminate; exact Hnone).
  pose proof (withProfileDir_grows w) as GA. set (wA := withProfileDir w) in *.
  unfold bind at 1 in H. unfold existsSync, get in H. rewrite HA in H. simpl in H.
  rewrite bind_ret_l in H.
  destruct (freshLaunch_spec env wA p w' H) as (w1 & b & Hfs & Hext & Eb & Htrace & Hfs').
  split.
  - apply (issued_after _ _ _ _ _ GA). apply (issued_after _ _ _ _ _ Hext).
    eexists. split; [exact Htrace |]. now apply sublist_inserts_r.
  - intros Hno. rewrite Hfs', (Hno _ _ Eb), Hfs.
    destruct (decide _); [reflexivity | exact HA].
Qed.

(** X8.  [fillForm] acquires a page and then lets [login] acquire one of
    its own.  With no descriptor on disk and a browser that reports no
    endpoint, nothing tells the second acquisition of the first: a browser
    is launched twice, [login] signs in on the page of the second, which is
    the page the client holds afterwards, and the form is opened on the page
    of the first; no descriptor is written on the way. *)
Theorem fillForm_launches_twice env options w r w' :
  fs w !! SESSION_PATH = None ->
  noEndpoint env ->
  fillForm env options w = (Ok r, w') ->
  exists p1 w1 p2,
    ensureBrowser env w = (Ok p1, w1) /\
    issued w w' [EvLaunch; EvNewContext; EvNewPage; EvLaunch; EvNewContext; EvNewPage;
                 EvGoto p2 UPS_LOGIN_URL; EvGoto p1 UPS_FORM_URL] /\
    this_page w' = Some p2 /\
    fs w' !! SESSION_PATH = None.
Proof.
  intros Hnone Hno H.
  destruct (fillForm_run _ _ _ _ _ H) as (p1 & w1 & b & w2 & w3 & E1 & E2 & G3 & Hend).
  destruct (ensureBrowser_unsaved _ _ _ _ Hnone E1) as [I1 F1]. specialize (F1 Hno).
  destruct (login_run _ _ _ _ E2) as (p2 & w1' & w2' & user & pass & _ & E1' & G' & Hi & EU).
  destruct (ensureBrowser_unsaved _ _ _ _ F1 E1') as [I2 F2]. specialize (F2 Hno).
  destruct (ensureBrowser_acquires _ _ _ _ E1') as (P2 & _).
  destruct G' as (Gfs & (_ & _ & Gpage) & _ & Ggrow).
  destruct (updateSession_run _ _ _ _ EU) as ((_ & _ & Upage) & _ & Ugrow & Ufs).
  assert (F2' : fs w2 !! SESSION_PATH = None).
  { destruct (Ufs eq_refl) as [[_ ->] | (s & Hs & _)]; [| congruence]. now rewrite Gfs. }
  assert (P2' : this_page w2 = Some p2) by congruence.
  destruct G3 as (G3fs & (_ & _ & G3page) & _ & G3grow). simpl in G3fs, G3page.
  assert (I3 : issued w w3 [EvLaunch; EvNewContext; EvNewPage; EvLaunch; EvNewContext;
                            EvNewPage; EvGoto p2 UPS_LOGIN_URL; EvGoto p1 UPS_FORM_URL]).
  { apply (issued_grow _ _ _ _ _ (issued_record _ _ _ (EvGoto p1 UPS_FORM_URL)
             (issued_grow _ _ _ _ _
                (issued_app _ _ _ _ _ (issued_app _ _ _ _ _ I1 I2)
                   (issued_sub _ _ _ [EvGoto p2 UPS_LOGIN_URL] Hi
                      ltac:(apply sublist_skip; apply sublist_nil_l)))
                Ugrow)) G3grow). }
  exists p1, w1, p2. split; [exact E1 |].
  destruct Hend as [(msg & shot & -> & ->) | (shot & t & -> & EF)].
  - split; [exact (issued_grow _ _ _ _ _ I3 (grow_record _ _)) |].
    simpl. split; congruence.
  - destruct (updateSession_run _ _ _ _ EF) as ((_ & _ & Fpage) & _ & Fgrow & Ffs).
    simpl in Fpage.
    split; [exact (issued_grow _ _ _ _ _ (issued_grow _ _ _ _ _ I3 (grow_record _ _)) Fgrow) |].
    split; [congruence |].
    destruct (Ffs eq_refl) as [[_ ->] | (s & Hs & _)]; simpl in *; congruence.
Qed.

Lemma fillForm_launches_twice_witness :
  exists r w',
    fillForm (numberedPages (site None plainBrowser true)) noOptions freshWorld = (Ok r, w') /\
    issued freshWorld w'
      [EvLaunch; EvNewContext; EvNewPage; EvLaunch; EvNewContext; EvNewPage;
       EvGoto 7%nat UPS_LOGIN_URL; EvGoto 4%nat UPS_FORM_URL] /\
    this_page w' = Some 7%nat.
Proof.
  set (env := numberedPages (site None plainBrowser true)).
  assert (E : fillForm env noOptions freshWorld
              = (Ok (match fst (fillForm env noOptions freshWorld) with
                     | Ok r => r
                     | Throw _ => notFilledError
                     end),
                 snd (fillForm env noOptions freshWorld)))
    by (vm_compute; reflexivity).
  assert (Hno : noEndpoint env).
  { intros t b. simpl. destruct (last t) as [[] |]; intros [= <-]; reflexivity. }
  assert (Hnone : fs freshWorld !! SESSION_PATH = None) by (vm_compute; reflexivity).
  assert (E1 : ensureBrowser env freshWorld
               = (Ok 4%nat, snd (ensureBrowser env freshWorld)))
    by (vm_compute; reflexivity).
  assert (E2 : this_page (snd (fillForm env noOptions freshWorld)) = Some 7%nat)
    by (vm_compute; reflexivity).
  lazymatch type of E with
  | _ = (Ok ?r, ?w') =>
      destruct (fillForm_launches_twice env noOptions freshWorld r w' Hnone Hno E)
        as (p1 & w1 & p2 & H1 & Hi & Hp & _);
      exists r, w'
  end.
  rewrite E1 in H1. injection H1 as <- _.
  rewrite E2 in Hp. injection Hp as <-.
  split; [exact E | split; [exact Hi | exact E2]].
Defined.

(** X9.  A [fillForm] that reports no error took the preview screenshot it
    names, reports the form state computed from its options, and leaves a
    descriptor, if there is one, with both [loggedIn] and [formFilled]
    set. *)
Theorem fillForm_success_marks_session env options w r w' :
  fillForm env options w = (Ok r, w') ->
  error r = false ->
  exists page shot t,
    r = fillSuccess shot (reportedState (envTz env) options (envUK env t)) /\
    In (EvScreenshot page shot true) (trace w') /\
    (fs w' !! SESSION_PATH = None \/ flagged w' true true).
Proof.
  intros H Herr.
  destruct (fillForm_run _ _ _ _ _ H) as (page & w1 & b & w2 & w3 & E1 & E2 & G3 & Hend).
  destruct Hend as [(msg & shot & -> & _) | (shot & t & -> & EF)]; [discriminate |].
  exists page, shot, t. split; [reflexivity |].
  destruct (updateSession_run _ _ _ _ EF) as (_ & _ & Fgrow & Ffs).
  split; [exact (extendsBy_In _ _ _ _ Fgrow (In_record _ _)) |].
  destruct (login_run _ _ _ _ E2) as (p2 & w1' & w2' & user & pass & _ & _ & _ & _ & EU).
  destruct (updateSession_run _ _ _ _ EU) as (_ & _ & _ & Ufs).
  destruct G3 as (G3fs & _). simpl in G3fs.
  destruct (Ffs eq_refl) as [[Hn Hfs'] | (s & Hs & Hfs')].
  - left. rewrite Hfs'. exact Hn.
  - right. exists (applyUpdate onlyFormFilled s).
    split; [rewrite Hfs'; apply lookup_insert_eq | split; [reflexivity |]].
    simpl in Hs |- *. rewrite G3fs in Hs.
    destruct (Ufs eq_refl) as [[Hn Hfs] | (s0 & Hs0 & Hfs)]; rewrite Hfs in Hs.
    + congruence.
    + rewrite lookup_insert_eq in Hs. injection Hs as <-. reflexivity.
Qed.

Lemma fillForm_success_marks_session_witness :
  exists r w',
    fillForm (site None servedBrowser true) noOptions freshWorld = (Ok r, w') /\
    (fs w' !! SESSION_PATH = None \/ flagged w' true true).
Proof.
  set (env := site None servedBrowser true).
  assert (E : fillForm env noOptions freshWorld
              = (Ok (match fst (fillForm env noOptions freshWorld) with
                     | Ok r => r
                     | Throw _ => notFilledError
                     end),
                 snd (fillForm env noOptions freshWorld)))
    by (vm_compute; reflexivity).
  lazymatch type of E with
  | _ = (Ok ?r, ?w') =>
      assert (Herr : error r = false) by (vm_compute; reflexivity);
      destruct (fillForm_success_marks_session env noOptions freshWorld r w' E Herr)
        as (page & shot & t & _ & _ & Hf);
      exists r, w'
  end.
  split; [exact E | exact Hf].
Defined.

(** X10.  A [fillForm] that reports an error reports the error of the fill
    with a screenshot, the taking of which was its last call; the files are
    as [login] left them, so [formFilled] is not set by this call. *)
Theorem fillForm_failure_keeps_flag env options w r w' :
  fillForm env options w = (Ok r, w') ->
  error r = true ->
  exists page w1 b w2 msg shot,
    ensureBrowser env w = (Ok page, w1) /\
    login env w1 = (Ok b, w2) /\
    r = fillError msg shot /\
    fs w' = fs w2 /\
    last (trace w') = Some (EvScreenshot page shot true).
Proof.
  intros H Herr.
  destruct (fillForm_run _ _ _ _ _ H) as (page & w1 & b & w2 & w3 & E1 & E2 & G3 & Hend).
  destruct Hend as [(msg & shot & -> & ->) | (shot & t & -> & _)]; [| discriminate].
  exists page, w1, b, w2, msg, shot.
  split; [exact E1 | split; [exact E2 | split; [reflexivity | split]]].
  - destruct G3 as (G3fs & _). exact G3fs.
  - simpl. apply last_snoc.
Qed.

Lemma fillForm_failure_keeps_flag_witness :
  exists r w' msg shot,
    fillForm (failingAt picksDate (site None servedBrowser true)) noOptions freshWorld
    = (Ok r, w') /\
    r = fillError msg shot.
Proof.
  set (env := failingAt picksDate (site None servedBrowser true)).
  assert (E : fillForm env noOptions freshWorld
              = (Ok (match fst (fillForm env noOptions freshWorld) with
                     | Ok r => r
                     | Throw _ => notFilledError
                     end),
                 snd (fillForm env noOptions freshWorld)))
    by (vm_compute; reflexivity).
  lazymatch type of E with
  | _ = (Ok ?r, ?w') =>
      assert (Herr : error r = true) by (vm_compute; reflexivity);
      destruct (fillForm_failure_keeps_flag env noOptions freshWorld r w' E Herr)
        as (page & w1 & b & w2 & msg & shot & _ & _ & Hr & _);
      exists r, w', msg, shot
  end.
  split; [exact E | exact Hr].
Defined.

(** ** [submit] and [takeScreenshot] after the acquisition of the page *)

(** X11.  [submit] writes nothing: after it, however it ends, the files are
    what they were once the page was acquired, and the client holds the same
    page.  A descriptor that said [formFilled] still says so, and a second
    [submit] passes the check again. *)
Theorem submit_leaves_descriptor env w p w1 r w' :
  ensureBrowser env w = (Ok p, w1) ->
  submit env w = (r, w') ->
  fs w' = fs w1 /\ this_page w' = Some p /\
  (passesCheck w1 -> passesCheck w').
Proof.
  intros E1 H.
  destruct (submit_after_acquire onlyCalls onlyCalls_refl onlyCalls_trans onlyCalls_record env)
    as (rest & Heq & Hmono).
  rewrite Heq, (bind_run _ _ _ _ _ E1) in H.
  destruct (Hmono _ _ _ _ H) as (Hfs & (_ & _ & Hp) & _).
  split; [exact Hfs | split].
  - rewrite Hp. exact (ensureBrowser_page _ _ _ _ E1).
  - unfold passesCheck. now rewrite Hfs.
Qed.

Lemma submit_leaves_descriptor_witness :
  exists w1 r w',
    ensureBrowser (quietSite servedBrowser) freshWorld = (Ok 1%nat, w1) /\
    submit (quietSite servedBrowser) freshWorld = (r, w') /\
    fs w' = fs w1.
Proof.
  assert (E1 : ensureBrowser (quietSite servedBrowser) freshWorld
               = (Ok 1%nat, snd (ensureBrowser (quietSite servedBrowser) freshWorld)))
    by (vm_compute; reflexivity).
  assert (E2 : submit (quietSite servedBrowser) freshWorld
               = (fst (submit (quietSite servedBrowser) freshWorld),
                  snd (submit (quietSite servedBrowser) freshWorld)))
    by (destruct (submit _ _); reflexivity).
  lazymatch type of E1 with
  | _ = (_, ?w1) =>
      lazymatch type of E2 with
      | _ = (?r, ?w') =>
          destruct (submit_leaves_descriptor (quietSite servedBrowser) freshWorld
                      1%nat w1 r w' E1 E2) as (Hfs & _);
          exists w1, r, w'
      end
  end.
  split; [exact E1 | split; [exact E2 | exact Hfs]].
Defined.

(** Past its check, [submit] is its [try] block on the page it acquired. *)
Lemma submit_past_check env w p w1 :
  ensureBrowser env w = (Ok p, w1) ->
  passesCheck w1 ->
  submit env w
  = tryCatch (submitBody env p)
      (fun msg =>
         bind (stampedPath env "ups-submit-error") (fun errorScreenshot =>
         bind (pageScreenshot env p errorScreenshot true) (fun _ =>
         ret (submitFailed msg errorScreenshot)))) w1.
Proof.
  intros E1 Hpass. unfold submit.
  rewrite (bind_run _ _ _ _ _ E1).
  unfold bind at 1. unfold existsSync, get.
  destruct Hpass as [Hn | (s & Hs & Hf)].
  - rewrite Hn. reflexivity.
  - rewrite Hs. cbn [present]. unfold bind at 1. unfold bind at 1.
    unfold readSession. rewrite Hs. unfold ret at 1. rewrite Hf. reflexivity.
Qed.

(** X12.  [submit] reports success without having clicked anything.  On a
    page where neither button is found, and past the check, it takes its two
    screenshots, reads the page and returns the success result: the calls
    it issued are two look-ups, two screenshots and the extraction, and a
    failed extraction changes the confirmation only. *)
Theorem submit_succeeds_without_buttons env w p w1 :
  noButtons env ->
  callsGoThrough env ->
  ensureBrowser env w = (Ok p, w1) ->
  passesCheck w1 ->
  exists r w' review final,
    submit env w = (Ok r, w') /\
    success r = true /\
    message r = Some "Collection submitted successfully." /\
    reviewScreenshot r = Some review /\
    screenshot r = Some final /\
    trace w' = (trace w1 ++ [EvQuery p nextButtonSelector; EvScreenshot p review true;
                             EvQuery p submitButtonSelector; EvScreenshot p final true;
                             EvEvaluate p ExtractConfirmation])%list.
Proof.
  intros Hq Hu E1 Hpass.
  rewrite (submit_past_check _ _ _ _ E1 Hpass).
  assert (Hquery : forall selector v,
            query env p selector v = (Ok None, record (EvQuery p selector) v)).
  { intros selector v. unfold query, perform. cbn [trace record setTrace]. now rewrite Hq. }
  assert (Hshot : forall path v,
            pageScreenshot env p path true v = (Ok tt, record (EvScreenshot p path true) v)).
  { intros path v. unfold pageScreenshot, perform. now rewrite Hu. }
  unfold tryCatch, submitBody.
  rewrite (bind_run _ _ _ _ _ (Hquery _ _)), bind_ret_l.
  erewrite bind_run by reflexivity.
  rewrite (bind_run _ _ _ _ _ (Hshot _ _)).
  rewrite (bind_run _ _ _ _ _ (Hquery _ _)), bind_ret_l.
  erewrite bind_run by reflexivity.
  rewrite (bind_run _ _ _ _ _ (Hshot _ _)).
  unfold extractConfirmation, tryCatch, bind, perform, ret.
  match goal with
  | |- context [envExtracted env ?t] => destruct (envExtracted env t) as [e | msg]
  end;
    eexists _, _, _, _;
    (split; [reflexivity |]); cbn [success message reviewScreenshot screenshot];
    repeat split; cbn [trace record setTrace]; rewrite <- ?app_assoc; reflexivity.
Qed.

Lemma submit_succeeds_without_buttons_witness :
  exists r w',
    submit (quietSite plainBrowser) freshWorld = (Ok r, w') /\ success r = true.
Proof.
  assert (E1 : ensureBrowser (quietSite plainBrowser) freshWorld
               = (Ok 1%nat, snd (ensureBrowser (quietSite plainBrowser) freshWorld)))
    by (vm_compute; reflexivity).
  assert (Hq : noButtons (quietSite plainBrowser)).
  { intros t p selector. simpl. now rewrite last_snoc. }
  assert (Hu : callsGoThrough (quietSite plainBrowser)) by (intros t; reflexivity).
  assert (Hp : passesCheck (snd (ensureBrowser (quietSite plainBrowser) freshWorld)))
    by (left; vm_compute; reflexivity).
  destruct (submit_succeeds_without_buttons (quietSite plainBrowser) freshWorld 1%nat
              (snd (ensureBrowser (quietSite plainBrowser) freshWorld)) Hq Hu E1 Hp)
    as (r & w' & review & final & H & Hs & _).
  exists r, w'. split; assumption.
Defined.

(** X13.  [takeScreenshot] makes one call to the page it acquired: a
    screenshot into the screenshot directory, under the file name it was
    given or, when that is missing or empty, under a name made of the time.
    It has no error result: it succeeds, or it throws what the screenshot
    threw. *)
Theorem takeScreenshot_shoots_once env options w p w1 r w' :
  ensureBrowser env w = (Ok p, w1) ->
  takeScreenshot env options w = (r, w') ->
  exists name,
    name = JS.orElse (options ≫= ScreenshotOptions.filename)
             ("ups-" +:+ JS.String_of_Z (envNow env (trace w1)) +:+ ".png") /\
    w' = record (EvScreenshot p (SCREENSHOT_DIR +:+ "/" +:+ name)
                   (default false (options ≫= ScreenshotOptions.fullPage))) w1 /\
    match r with
    | Ok result =>
        success result = true /\ error result = false /\
        screenshot result = Some (SCREENSHOT_DIR +:+ "/" +:+ name)
    | Throw msg => envUnit env (trace w') = Throw msg
    end.
Proof.
  intros E1 H. unfold takeScreenshot in H.
  rewrite (bind_run _ _ _ _ _ E1) in H.
  erewrite bind_run in H by reflexivity. cbv beta zeta in H.
  eexists. split; [reflexivity |].
  revert H. unfold bind, pageScreenshot, perform, ret.
  destruct (envUnit env _) as [[] | msg] eqn:Eu; intros [= <- <-];
    (split; [reflexivity |]); [repeat split | exact Eu].
Qed.

Lemma takeScreenshot_shoots_once_witness :
  exists w',
    takeScreenshot (quietSite plainBrowser) None freshWorld
    = (Ok {| success := true; error := false; message := None;
             screenshot := Some (SCREENSHOT_DIR +:+ "/ups-1719876600000.png");
             reviewScreenshot := None; fillScreenshot := None;
             confirmationScreenshot := None; errorScreenshot := None;
             formState := None; confirmation := None |}, w') /\
    last (trace w')
    = Some (EvScreenshot 1%nat (SCREENSHOT_DIR +:+ "/ups-1719876600000.png") false).
Proof.
  assert (E1 : ensureBrowser (quietSite plainBrowser) freshWorld
               = (Ok 1%nat, snd (ensureBrowser (quietSite plainBrowser) freshWorld)))
    by (vm_compute; reflexivity).
  assert (E2 : takeScreenshot (quietSite plainBrowser) None freshWorld
               = (Ok {| success := true; error := false; message := None;
                        screenshot := Some (SCREENSHOT_DIR +:+ "/ups-1719876600000.png");
                        reviewScreenshot := None; fillScreenshot := None;
                        confirmationScreenshot := None; errorScreenshot := None;
                        formState := None; confirmation := None |},
                  snd (takeScreenshot (quietSite plainBrowser) None freshWorld)))
    by (vm_compute; reflexivity).
  lazymatch type of E1 with
  | _ = (_, ?w1) =>
      lazymatch type of E2 with
      | _ = (?r, ?w') =>
          destruct (takeScreenshot_shoots_once (quietSite plainBrowser) None freshWorld
                      1%nat w1 r w' E1 E2) as (name & Hname & Hw & _);
          exists w'
      end
  end.
  split; [exact E2 |].
  rewrite Hw, Hname. cbn [trace record setTrace]. apply last_snoc.
Defined.

(** ** [reset] when the browser does not close *)

(** X14.  When closing the browser throws, [reset] does not throw: it
    returns an error result that quotes the message.  The only thing it has
    done is the attempt: the client still holds its handles and the
    descriptor, if there is one, is still on disk. *)
Theorem reset_failed_close env w b msg :
  this_browser w = Some b ->
  envUnit env (trace w ++ [EvBrowserClose])%list = Throw msg ->
  exists r,
    reset env w = (Ok r, record EvBrowserClose w) /\
    success r = false /\ error r = true /\
    message r = Some ("Reset failed: " +:+ msg).
Proof.
  intros Hb Hclose. unfold reset, tryCatch.
  erewrite bind_run by reflexivity. cbv beta. rewrite Hb.
  unfold bind at 1. unfold bind at 1. unfold perform. cbn [trace record setTrace].
  rewrite Hclose. eexists. split; [reflexivity | repeat split].
Qed.

Lemma reset_failed_close_witness :
  exists r,
    reset (failingAt closesBrowser (quietSite plainBrowser)) busyWorld
    = (Ok r, record EvBrowserClose busyWorld) /\
    message r = Some "Reset failed: Execution context was destroyed".
Proof.
  destruct (reset_failed_close (failingAt closesBrowser (quietSite plainBrowser)) busyWorld
              runningBrowser "Execution context was destroyed" eq_refl eq_refl)
    as (r & H & _ & _ & Hm).
  exists r. split; assumption.
Defined.

(** A [reset] of a client that holds a browser tries to close it. *)
Lemma reset_attempts env w r w' :
  is_Some (this_browser w) -> reset env w = (r, w') -> issued w w' [EvBrowserClose].
Proof.
  intros [b Hb].
  destruct (envUnit env (trace w ++ [EvBrowserClose])%list) as [[] | msg] eqn:Hclose.
  - rewrite (reset_run env w (or_intror Hclose)). intros [= _ <-].
    unfold afterReset. rewrite Hb.
    destruct (fs _ !! SESSION_PATH); cbn [trace record setTrace setFs setPage setContext
                                            setBrowser].
    + exists [EvBrowserClose; EvUnlink SESSION_PATH].
      split; [simpl; now rewrite <- app_assoc | apply sublist_skip, sublist_nil_l].
    + exists [EvBrowserClose]. split; reflexivity.
  - unfold reset, tryCatch.
    erewrite bind_run by reflexivity. cbv beta. rewrite Hb.
    unfold bind at 1. unfold bind at 1. unfold perform. cbn [trace record setTrace].
    rewrite Hclose. intros [= _ <-]. exists [EvBrowserClose]. split; reflexivity.
Qed.

(** ** Throws that leave the session alone *)

Lemma cleanThrow_mono {A : Type} (m : M A) : mono onlyCalls m -> cleanThrow m.
Proof. intros H w msg w' E. exact (H _ _ _ E). Qed.

Lemma cleanThrow_bind {A B : Type} (m : M A) (f : A -> M B) :
  mono onlyCalls m -> (forall a, cleanThrow (f a)) -> cleanThrow (bind m f).
Proof.
  intros Hm Hf w msg w'. unfold bind.
  destruct (m w) as [[a | msg'] v] eqn:E.
  - intros H. exact (onlyCalls_trans _ _ _ (Hm _ _ _ E) (Hf a _ _ _ H)).
  - intros [= _ <-]. exact (Hm _ _ _ E).
Qed.

(** Proofs of [mono onlyCalls] for code that only talks to the page. *)
Ltac calls_only :=
  solve [repeat first
           [ apply (mono_clickFirstVisible _ onlyCalls_refl onlyCalls_trans onlyCalls_record)
           | apply (mono_extractConfirmation _ onlyCalls_refl onlyCalls_trans
                      onlyCalls_record)
           | progress page_mono onlyCalls_refl onlyCalls_trans onlyCalls_record ]].

Ltac clean_step :=
  first [ apply cleanThrow_bind; [calls_only | intros ?]
        | lazymatch goal with
          | |- cleanThrow (match ?x with _ => _ end) => destruct x
          end
        | apply cleanThrow_mono; calls_only ].

Lemma updateSession_throw u w msg w' : updateSession u w = (Throw msg, w') -> w' = w.
Proof.
  unfold updateSession, bind, existsSync, get, when, readSession, writeSession, ret.
  destruct (fs w !! SESSION_PATH) as [[| | s] |] eqn:E; simpl; rewrite ?E;
    now intros [= _ <-].
Qed.

(** [login] is the acquisition of the page followed by steps that, when
    they throw, have only issued calls. *)
Lemma login_cleanThrow env :
  exists rest, login env = bind (ensureBrowser env) rest /\
               forall page, cleanThrow (rest page).
Proof.
  unfold login. eexists. split; [reflexivity |].
  intros page. cbv beta. repeat clean_step.
  intros w msg w' H. unfold bind in H.
  destruct (updateSession _ w) as [[[] | msg'] v] eqn:E; [discriminate |].
  injection H as _ <-. rewrite (updateSession_throw _ _ _ _ E). apply onlyCalls_refl.
Qed.

(** X22.  A [login] that throws has not touched the files: from the
    acquisition of the page on it has only issued calls, so the descriptor is
    not marked [loggedIn], and the client holds what it held. *)
Theorem login_failure_leaves_files env w p w1 msg w' :
  ensureBrowser env w = (Ok p, w1) ->
  login env w = (Throw msg, w') ->
  fs w' = fs w1 /\ sameHandles w1 w'.
Proof.
  intros E1 H.
  destruct (login_cleanThrow env) as (rest & Heq & Hclean).
  rewrite Heq, (bind_run _ _ _ _ _ E1) in H.
  destruct (Hclean _ _ _ _ H) as (Hfs & Hh & _). now split.
Qed.

Lemma login_failure_leaves_files_witness :
  exists w1 msg w',
    ensureBrowser (quietSite servedBrowser) freshWorld = (Ok 1%nat, w1) /\
    login (quietSite servedBrowser) freshWorld = (Throw msg, w') /\
    fs w' = fs w1.
Proof.
  set (env := quietSite servedBrowser).
  assert (E1 : ensureBrowser env freshWorld = (Ok 1%nat, snd (ensureBrowser env freshWorld)))
    by (vm_compute; reflexivity).
  assert (E2 : login env freshWorld
               = (Throw (match fst (login env freshWorld) with
                         | Throw msg => msg
                         | Ok _ => ""%string
                         end),
                  snd (login env freshWorld)))
    by (vm_compute; reflexivity).
  lazymatch type of E1 with
  | _ = (_, ?w1) =>
      lazymatch type of E2 with
      | _ = (Throw ?msg, ?w') =>
          destruct (login_failure_leaves_files env freshWorld 1%nat w1 msg w' E1 E2)
            as (Hfs & _);
          exists w1, msg, w'
      end
  end.
  split; [exact E1 | split; [exact E2 | exact Hfs]].
Defined.

Lemma reset_never_throws env w msg w' : reset env w = (Throw msg, w') -> False.
Proof.
  intros H. destruct (reset_total env w) as (a & v & E). congruence.
Qed.

Lemma bookBody_cleanThrow env page filled : cleanThrow (bookBody env page filled).
Proof.
  unfold bookBody. repeat clean_step.
  intros w msg w' H. unfold bind in H.
  destruct (reset env w) as [[done | msg'] v] eqn:E; [discriminate |].
  now apply reset_never_throws in E.
Qed.

(** ** [book] *)

(** After a [fillForm] that returned, the client holds a browser and a
    page. *)
Lemma fillForm_holds_browser env options w r w' :
  fillForm env options w = (Ok r, w') ->
  is_Some (this_browser w') /\ is_Some (this_page w').
Proof.
  intros H.
  destruct (fillForm_run _ _ _ _ _ H) as (p1 & w1 & b & w2 & w3 & _ & E2 & G3 & Hend).
  destruct (login_run _ _ _ _ E2) as (p2 & w1' & w2' & user & pass & _ & E1' & G' & _ & EU).
  destruct (ensureBrowser_acquires _ _ _ _ E1') as (P2 & B2 & _).
  destruct G' as (_ & (Gb & _ & Gp) & _).
  destruct (updateSession_run _ _ _ _ EU) as ((Ub & _ & Up) & _).
  destruct G3 as (_ & (G3b & _ & G3p) & _). simpl in G3b, G3p.
  assert (B3 : is_Some (this_browser w3)) by (rewrite G3b, Ub, Gb; exact B2).
  assert (P3 : is_Some (this_page w3)) by (rewrite G3p, Up, Gp, P2; eauto).
  destruct Hend as [(msg & shot & _ & ->) | (shot & t & _ & EF)]; [now split |].
  destruct (updateSession_run _ _ _ _ EF) as ((Fb & _ & Fp) & _). simpl in Fb, Fp.
  rewrite Fb, Fp. now split.
Qed.

(** X15.  [book] stops at a fill that failed: the error result of
    [fillForm] is returned as it is, and nothing more is done; and what
    [fillForm] throws, [book] throws. *)
Theorem book_returns_fill_failure env options w :
  (forall r w', fillForm env options w = (Ok r, w') -> error r = true ->
                book env options w = (Ok r, w')) /\
  (forall msg w', fillForm env options w = (Throw msg, w') ->
                  book env options w = (Throw msg, w')).
Proof.
  split.
  - intros r w' H Herr. unfold book. rewrite (bind_run _ _ _ _ _ H). now rewrite Herr.
  - intros msg w' H. unfold book. now apply bind_throw.
Qed.

Lemma book_returns_fill_failure_witness :
  exists r w',
    book (failingAt picksDate (site None servedBrowser true)) noOptions freshWorld = (Ok r, w') /\
    fillForm (failingAt picksDate (site None servedBrowser true)) noOptions freshWorld
    = (Ok r, w').
Proof.
  set (env := failingAt picksDate (site None servedBrowser true)).
  assert (E : fillForm env noOptions freshWorld
              = (Ok (match fst (fillForm env noOptions freshWorld) with
                     | Ok r => r
                     | Throw _ => notFilledError
                     end),
                 snd (fillForm env noOptions freshWorld)))
    by (vm_compute; reflexivity).
  lazymatch type of E with
  | _ = (Ok ?r, ?w') =>
      assert (Herr : error r = true) by (vm_compute; reflexivity);
      pose proof (proj1 (book_returns_fill_failure env noOptions freshWorld) r w' E Herr) as H;
      exists r, w'
  end.
  split; [exact H | exact E].
Defined.

Ltac peel H :=
  let a := fresh "a" in
  let v := fresh "v" in
  let E := fresh "E" in
  apply bind_Ok in H as (a & v & E & H); page_fact E.

(** The ways through a [book] that returns: the fill failed and its result
    is passed on; the fill went through and what followed failed; or all of
    it went through, on the page that the client held after the fill. *)
Lemma book_run env options w r w' :
  book env options w = (Ok r, w') ->
  exists filled w1,
    fillForm env options w = (Ok filled, w1) /\
    ((error filled = true /\ r = filled /\ w' = w1) \/
     (error filled = false /\ success r = false /\ formState r = None /\
      onlyCalls w1 w') \/
     (error filled = false /\ success r = true /\
      fillScreenshot r = screenshot filled /\
      formState r = formState filled /\
      present (reviewScreenshot r) = true /\
      present (confirmationScreenshot r) = true /\
      present (confirmation r) = true /\
      exists page,
        this_page w1 = Some page /\
        issued w1 w' [EvWaitForTimeout page 2000; EvEvaluate page ScrollToBottom;
                      EvBrowserClose])).
Proof.
  unfold book. intros H.
  apply bind_Ok in H as (filled & w1 & E1 & H).
  destruct (fillForm_holds_browser _ _ _ _ _ E1) as [B1 [page P1]].
  exists filled, w1. split; [exact E1 |].
  destruct (error filled) eqn:Herr.
  - left. injection H as <- <-. auto.
  - right.
    apply bind_Ok in H as (cur & w2 & [= <- <-] & H). rewrite P1 in H.
    apply bind_Ok in H as ([] & v & Ewait & H). apply perform_inv in Ewait as [-> _].
    apply bind_Ok in H as (cur & w4 & [= <- <-] & H).
    cbn [this_page record setTrace] in H. rewrite P1 in H.
    pose proof (onlyCalls_record (EvWaitForTimeout page 2000) w1) as Gwait.
    unfold tryCatch in H.
    pose proof (bookBody_cleanThrow env page filled) as Hclean.
    destruct (bookBody env page filled (record (EvWaitForTimeout page 2000) w1))
      as [[x | msg] wb] eqn:Eb.
    + right. injection H as <- <-. unfold bookBody in Eb.
      apply bind_Ok in Eb as ([] & vd & Ed & Eb). page_fact_as Ed Gd.
      apply bind_Ok in Eb as ([] & vs & Es & Eb). apply perform_inv in Es as [-> _].
      do 17 (peel Eb).
      apply bind_Ok in Eb as (done & wr & Er & Eb). injection Eb as <- <-.
      cbn [success fillScreenshot formState reviewScreenshot confirmationScreenshot
             confirmation present].
      repeat (split; [reflexivity |]).
      exists page. split; [exact P1 |].
      assert (Hc : onlyCalls (record (EvEvaluate page ScrollToBottom) vd) v15)
        by onlyCalls_chain.
      assert (Hb : is_Some (this_browser v15)).
      { destruct Hc as (_ & (Hb & _) & _). destruct Gd as (_ & (Hd & _) & _).
        rewrite Hb. cbn [this_browser record setTrace]. rewrite Hd. exact B1. }
      apply (issued_app _ v15 _ [_; _] [_]); [| exact (reset_attempts _ _ _ _ Hb Er)].
      eapply issued_calls; [| exact Hc].
      apply (issued_record _ _ [_]).
      eapply issued_calls; [| exact Gd].
      apply (issued_record _ _ []). apply issued_nil.
    + left. apply Hclean in Eb.
      peel H. peel H.
      injection H as <- <-. repeat (split; [reflexivity |]). onlyCalls_chain.
Qed.

(** X16.  A [book] that reports success went through a fill without error,
    whose screenshot and form state it passes on, and took the review and the
    confirmation screenshot and read the confirmation.  What followed the
    fill it did on the page that the client held after the fill, which is
    the page of the log-in, and before it returned it tried to close the
    browser. *)
Theorem book_success_closes_browser env options w r w' :
  book env options w = (Ok r, w') ->
  success r = true ->
  exists filled w1 page,
    fillForm env options w = (Ok filled, w1) /\
    error filled = false /\
    fillScreenshot r = screenshot filled /\
    formState r = formState filled /\
    present (reviewScreenshot r) = true /\
    present (confirmationScreenshot r) = true /\
    present (confirmation r) = true /\
    this_page w1 = Some page /\
    issued w1 w' [EvWaitForTimeout page 2000; EvEvaluate page ScrollToBottom;
                  EvBrowserClose].
Proof.
  intros H Hs.
  destruct (book_run _ _ _ _ _ H) as (filled & w1 & E1 & Hways).
  destruct Hways as [(Herr & -> & _) | [(_ & Hf & _) | Hall]].
  - exfalso.
    destruct (fillForm_run _ _ _ _ _ E1) as (? & ? & ? & ? & ? & _ & _ & _ & Hend).
    destruct Hend as [(? & ? & -> & _) | (? & ? & -> & _)]; discriminate.
  - congruence.
  - destruct Hall as (Herr & _ & H1 & H2 & H3 & H4 & H5 & page & Hp & Hi).
    exists filled, w1, page. auto 10.
Qed.

Lemma book_success_closes_browser_witness :
  exists r w' w1,
    book (numberedPages (site None plainBrowser true)) noOptions freshWorld = (Ok r, w') /\
    success r = true /\
    In (EvGoto 4%nat UPS_FORM_URL) (trace w1) /\
    issued w1 w' [EvWaitForTimeout 7%nat 2000; EvEvaluate 7%nat ScrollToBottom;
                  EvBrowserClose].
Proof.
  set (env := numberedPages (site None plainBrowser true)).
  assert (E : book env noOptions freshWorld
              = (Ok (match fst (book env noOptions freshWorld) with
                     | Ok r => r
                     | Throw _ => notFilledError
                     end),
                 snd (book env noOptions freshWorld)))
    by (vm_compute; reflexivity).
  assert (E1 : fillForm env noOptions freshWorld
               = (Ok (match fst (fillForm env noOptions freshWorld) with
                      | Ok r => r
                      | Throw _ => notFilledError
                      end),
                  snd (fillForm env noOptions freshWorld)))
    by (vm_compute; reflexivity).
  assert (P1 : this_page (snd (fillForm env noOptions freshWorld)) = Some 7%nat)
    by (vm_compute; reflexivity).
  assert (G1 : In (EvGoto 4%nat UPS_FORM_URL) (trace (snd (fillForm env noOptions freshWorld))))
    by (vm_compute; tauto).
  lazymatch type of E with
  | _ = (Ok ?r, ?w') =>
      assert (Hs : success r = true) by (vm_compute; reflexivity);
      destruct (book_success_closes_browser env noOptions freshWorld r w' E Hs)
        as (filled & w1 & page & E1' & _ & _ & _ & _ & _ & _ & Hp & Hi);
      exists r, w', w1
  end.
  assert (Hw1 : w1 = snd (fillForm env noOptions freshWorld))
    by (rewrite E1'; reflexivity).
  subst w1. rewrite P1 in Hp. injection Hp as <-.
  split; [exact E | split; [exact Hs | split; [exact G1 | exact Hi]]].
Defined.

(** ** Element resolver: a hit ends the search *)

Lemma fillIfFound_hit env field value w w' :
  fillIfFound env field value w = (Ok true, w') ->
  exists el, last (trace w') = Some (EvFill el value).
Proof.
  destruct field as [f |]; simpl; [| discriminate].
  intros H. apply bind_Ok in H as ([] & w1 & E & [= <-]).
  apply perform_inv in E as [-> _]. exists f. simpl. apply last_snoc.
Qed.

(** Take a run of resolver code that returned [true] apart, down to the
    [fillIfFound] that returned it. *)
Ltac hit_cases H :=
  repeat lazymatch type of H with
    | bind _ _ _ = (Ok _, _) =>
        let a := fresh "a" in
        let v := fresh "v" in
        let E := fresh "E" in
        apply bind_Ok in H as (a & v & E & H)
    | (if ?d then _ else _) _ = (Ok _, _) => destruct d eqn:?
    | match ?x with Some _ => _ | None => _ end _ = (Ok _, _) => destruct x eqn:?
    | ret _ _ = (Ok _, _) => injection H as ? ?; subst
    end.

Lemma fillByLabel_hit env p label value w w' :
  fillByLabel env p label value w = (Ok true, w') ->
  exists el, last (trace w') = Some (EvFill el value).
Proof.
  unfold fillByLabel. intros H.
  apply bind_Ok in H as (f1 & v1 & _ & H).
  apply bind_Ok in H as (d1 & v2 & E1 & H).
  destruct d1; [injection H as <-; exact (fillIfFound_hit _ _ _ _ _ E1) |].
  apply bind_Ok in H as (f2 & v3 & _ & H).
  apply bind_Ok in H as (d2 & v4 & E2 & H).
  destruct d2; [injection H as <-; exact (fillIfFound_hit _ _ _ _ _ E2) |].
  apply bind_Ok in H as (labelEl & v5 & _ & H).
  apply bind_Ok in H as (d3 & v6 & E3 & H).
  destruct d3.
  - injection H as <-. destruct labelEl as [labelEl |]; [| discriminate].
    apply bind_Ok in E3 as (forAttr & v7 & _ & E3).
    apply bind_Ok in E3 as (d4 & v8 & E4 & E3).
    destruct d4.
    + injection E3 as <-. destruct (JS.truthy forAttr); [| discriminate].
      apply bind_Ok in E4 as (f3 & v9 & _ & E4).
      exact (fillIfFound_hit _ _ _ _ _ E4).
    + apply bind_Ok in E3 as (f4 & v9 & _ & E3).
      exact (fillIfFound_hit _ _ _ _ _ E3).
  - apply bind_Ok in H as (f5 & v7 & _ & H).
    exact (fillIfFound_hit _ _ _ _ _ H).
Qed.

Lemma selectByLabel_hit env p label value w w' :
  selectByLabel env p label value w = (Ok true, w') ->
  exists el, last (trace w') = Some (EvSelectOption el value) \/
             last (trace w') = Some (EvClick el).
Proof.
  unfold selectByLabel. intros H.
  apply bind_Ok in H as ([sel |] & v1 & _ & H).
  - apply bind_Ok in H as ([] & v2 & E & [= <-]).
    apply perform_inv in E as [-> _]. exists sel. left. simpl. apply last_snoc.
  - apply bind_Ok in H as ([radio |] & v2 & _ & H); [| discriminate].
    apply bind_Ok in H as ([] & v3 & E & [= <-]).
    apply perform_inv in E as [-> _]. exists radio. right. simpl. apply last_snoc.
Qed.

(** X17.  The loops of [fillField] and [selectOption] stop at the first
    hit: when one of them has found its element, the last call it issued is
    the one that filled the value in, selected the option or clicked the
    radio button, and that call went through. *)
Theorem resolver_stops_at_first_hit env p labels value w w' :
  (fillAny env p labels value w = (Ok true, w') ->
   exists el, last (trace w') = Some (EvFill el value)) /\
  (selectAny env p labels value w = (Ok true, w') ->
   exists el, last (trace w') = Some (EvSelectOption el value) \/
              last (trace w') = Some (EvClick el)).
Proof.
  split; revert w; induction labels as [| label rest IH]; intros w; simpl;
    try discriminate; intros H;
    apply bind_Ok in H as (done & v & E & H);
    (destruct done; [injection H as <- | exact (IH _ H)]);
    unfold tryCatch in E.
  - destruct (fillByLabel env p label value w) as [[d | msg] v'] eqn:Eb;
      [| discriminate].
    injection E as -> ->. exact (fillByLabel_hit _ _ _ _ _ _ Eb).
  - destruct (selectByLabel env p label value w) as [[d | msg] v'] eqn:Eb;
      [| discriminate].
    injection E as -> ->. exact (selectByLabel_hit _ _ _ _ _ _ Eb).
Qed.

Lemma resolver_stops_at_first_hit_witness :
  exists w',
    fillAny emailOnlySite 1%nat ["Email"; "Notification Email"; "email"] DEFAULTS.email
      freshWorld = (Ok true, w') /\
    exists el, last (trace w') = Some (EvFill el DEFAULTS.email).
Proof.
  assert (E : fillAny emailOnlySite 1%nat ["Email"; "Notification Email"; "email"]
                DEFAULTS.email freshWorld
              = (Ok true,
                 snd (fillAny emailOnlySite 1%nat ["Email"; "Notification Email"; "email"]
                        DEFAULTS.email freshWorld)))
    by (vm_compute; reflexivity).
  lazymatch type of E with
  | _ = (_, ?w') =>
      pose proof (proj1 (resolver_stops_at_first_hit emailOnlySite 1%nat
                           ["Email"; "Notification Email"; "email"] DEFAULTS.email
                           freshWorld w') E) as H;
      exists w'
  end.
  split; [exact E | exact H].
Defined.

(** ** Scheduler heuristics: the day that is named *)



Lemma daysAhead_weekday hour weekday :
  0 <= weekday < 7 ->
  0 <= daysAhead hour weekday <= 3 /\
  (weekday + daysAhead hour weekday) mod 7 <> 0 /\
  (weekday + daysAhead hour weekday) mod 7 <> 6.
Proof.
  intros Hr. unfold daysAhead.
  assert (Hcases : weekday = 0 \/ weekday = 1 \/ weekday = 2 \/ weekday = 3 \/
                   weekday = 4 \/ weekday = 5 \/ weekday = 6) by lia.
  destruct (13 <=? hour);
    destruct Hcases as [-> | [-> | [-> | [-> | [-> | [-> | ->]]]]]];
    vm_compute; intuition discriminate.
Qed.

(** X19.  In a process that runs in UTC, [getSmartDate] names a day from
    Monday to Friday that is at most three days after the day of the wall
    clock. *)
Theorem getSmartDate_names_a_weekday uk :
  validTime uk ->
  exists day,
    getSmartDate 0 uk = isoDate day /\
    dayNumber uk <= day <= dayNumber uk + 3 /\
    (day + 4) mod 7 <> 0 /\ (day + 4) mod 7 <> 6.
Proof.
  intros Hv. eexists. split; [exact (getSmartDate_in_utc uk Hv) |].
  set (d := dayNumber uk).
  pose proof (Z.mod_pos_bound (d + 4) 7 ltac:(lia)) as Hr.
  destruct (daysAhead_weekday (wcHour uk) ((d + 4) mod 7) Hr) as (Hk & H0 & H6).
  set (k := daysAhead _ _) in *.
  replace ((d + k + 4) mod 7) with (((d + 4) mod 7 + k) mod 7)
    by (rewrite Zplus_mod_idemp_l; f_equal; lia).
  repeat split; try lia; assumption.
Qed.

Lemma getSmartDate_names_a_weekday_witness :
  exists day,
    getSmartDate 0 (clockAt 2024 7 5 14 0) = isoDate day /\
    (day + 4) mod 7 <> 0 /\ (day + 4) mod 7 <> 6.
Proof.
  destruct (getSmartDate_names_a_weekday (clockAt 2024 7 5 14 0)) as (day & H1 & _ & H2 & H3).
  - vm_compute. intuition discriminate.
  - exists day. auto.
Defined.

(** ** The collection window *)

(** X20.  The latest collection time is never entered into the form.
    Whatever [latestTime] is, [fillForm] issues the same calls, leaves the
    same files and returns the same result, but for the latest time in the
    form state that a successful result reports. *)
Theorem latestTime_is_only_reported env options latest w :
  fillForm env (withLatestTime latest options) w
  = (match fst (fillForm env options w) with
     | Ok r => Ok (reportingLatest (JS.orElse latest "18:00") r)
     | Throw msg => Throw msg
     end,
     snd (fillForm env options w)).
Proof.
  unfold fillForm.
  change (buildSpecialInstructions (withLatestTime latest options))
    with (buildSpecialInstructions options).
  cbn [withLatestTime FillFormOptions.date FillFormOptions.packages FillFormOptions.weight
         FillFormOptions.earliestTime FillFormOptions.latestTime].
  unfold bind, tryCatch, ret.
  repeat match goal with
         | |- context [match ?x with _ => _ end] =>
             lazymatch x with
             | context [match _ with _ => _ end] => fail
             | _ => destruct x; cbn [fst snd]
             end
         end;
    reflexivity.
Qed.

Lemma orElse_default a b c : b <> "" -> JS.orElse (Some (JS.orElse a b)) c = JS.orElse a b.
Proof.
  intros Hb. unfold JS.orElse.
  destruct a as [s |]; [destruct (String.eqb s "") eqn:E |]; rewrite ?E;
    try reflexivity; now apply String.eqb_neq in Hb as ->.
Qed.

(** ** The command line *)

(** X21.  From the command line the earliest collection time is never the
    one that [getSmartEarliestTime] computes: the handlers of [fill-form]
    and [book] pass "12:00" when the argument is missing, so the form state
    of a result reports the argument or "12:00", and the argument or "18:00"
    for the latest time. *)
Theorem cli_fixes_the_times env name args m w r w' st :
  name = "fill-form" \/ name = "book" ->
  Cli.commands env name args = Some m ->
  m w = (Ok r, w') ->
  formState r = Some st ->
  FormState.earliestTime st = JS.orElse (Cli.earliestTime args) "12:00" /\
  FormState.latestTime st = JS.orElse (Cli.latestTime args) "18:00".
Proof.
  intros Hname Hcmd Hrun Hst.
  assert (Hfill : forall filled w1,
            fillForm env (Cli.formOptions args) w = (Ok filled, w1) ->
            formState filled = Some st ->
            FormState.earliestTime st = JS.orElse (Cli.earliestTime args) "12:00" /\
            FormState.latestTime st = JS.orElse (Cli.latestTime args) "18:00").
  { intros filled w1 H Hf.
    destruct (fillForm_run _ _ _ _ _ H) as (? & ? & ? & ? & ? & _ & _ & _ & Hend).
    destruct Hend as [(? & ? & -> & _) | (? & ? & -> & _)]; [discriminate |].
    injection Hf as <-. cbn [reportedState FormState.earliestTime FormState.latestTime
                               Cli.formOptions FillFormOptions.earliestTime
                               FillFormOptions.latestTime].
    split; apply orElse_default; discriminate. }
  unfold Cli.commands in Hcmd.
  destruct Hname as [-> | ->].
  - rewrite String.eqb_refl in Hcmd. injection Hcmd as <-. exact (Hfill _ _ Hrun Hst).
  - change (String.eqb "book" "fill-form") with false in Hcmd.
    rewrite String.eqb_refl in Hcmd. injection Hcmd as <-.
    destruct (book_run _ _ _ _ _ Hrun) as (filled & w1 & E1 & Hways).
    destruct Hways as [(_ & -> & _) | [(_ & _ & Hn & _) | (_ & _ & _ & Hf & _)]].
    + exact (Hfill _ _ E1 Hst).
    + congruence.
    + rewrite Hf in Hst. exact (Hfill _ _ E1 Hst).
Qed.

Lemma cli_fixes_the_times_witness :
  exists r w' st,
    fillForm (site None servedBrowser true) (Cli.formOptions Cli.noArgs) freshWorld
    = (Ok r, w') /\
    formState r = Some st /\
    FormState.earliestTime st = "12:00" /\ FormState.latestTime st = "18:00".
Proof.
  set (env := site None servedBrowser true).
  assert (E : fillForm env (Cli.formOptions Cli.noArgs) freshWorld
              = (Ok (match fst (fillForm env (Cli.formOptions Cli.noArgs) freshWorld) with
                     | Ok r => r
                     | Throw _ => notFilledError
                     end),
                 snd (fillForm env (Cli.formOptions Cli.noArgs) freshWorld)))
    by (vm_compute; reflexivity).
  lazymatch type of E with
  | _ = (Ok ?r, ?w') =>
      assert (Hst : formState r
                    = Some (match formState r with
                            | Some st => st
                            | None => reportedState 0 noOptions (clockAt 2024 7 2 0 30)
                            end)) by (vm_compute; reflexivity);
      lazymatch type of Hst with
      | _ = Some ?st =>
          destruct (cli_fixes_the_times env "fill-form" Cli.noArgs
                      (fillForm env (Cli.formOptions Cli.noArgs)) freshWorld r w' st
                      (or_introl eq_refl) eq_refl E Hst) as [H1 H2];
          exists r, w', st
      end
  end.
  split; [exact E | split; [exact Hst | split; [exact H1 | exact H2]]].
Defined.

(** X23.  A [book] that reports an error has left the session as the fill
    left it: it has not closed the browser, the client still holds the
    page, and the files are untouched, so the descriptor still says what it
    said. *)
Theorem book_failure_keeps_session env options w r w' :
  book env options w = (Ok r, w') ->
  success r = false ->
  exists filled w1,
    fillForm env options w = (Ok filled, w1) /\
    fs w' = fs w1 /\ sameHandles w1 w' /\
    is_Some (this_browser w') /\ is_Some (this_page w').
Proof.
  intros H Hs.
  destruct (book_run _ _ _ _ _ H) as (filled & w1 & E1 & Hways).
  destruct (fillForm_holds_browser _ _ _ _ _ E1) as [B1 P1].
  exists filled, w1. split; [exact E1 |].
  destruct Hways as [(_ & _ & ->) | [(_ & _ & _ & Hc) | (_ & Hok & _)]].
  - split; [reflexivity | split; [apply sameHandles_refl | now split]].
  - destruct Hc as (Hfs & Hh & _). split; [exact Hfs | split; [exact Hh |]].
    destruct Hh as (Hb & _ & Hp). rewrite Hb, Hp. now split.
  - congruence.
Qed.

Lemma book_failure_keeps_session_witness :
  exists r w',
    book (failingAt picksDate (site None servedBrowser true)) noOptions freshWorld = (Ok r, w') /\
    is_Some (this_browser w').
Proof.
  set (env := failingAt picksDate (site None servedBrowser true)).
  assert (E : book env noOptions freshWorld
              = (Ok (match fst (book env noOptions freshWorld) with
                     | Ok r => r
                     | Throw _ => notFilledError
                     end),
                 snd (book env noOptions freshWorld)))
    by (vm_compute; reflexivity).
  lazymatch type of E with
  | _ = (Ok ?r, ?w') =>
      assert (Hs : success r = false) by (vm_compute; reflexivity);
      destruct (book_failure_keeps_session env noOptions freshWorld r w' E Hs)
        as (filled & w1 & _ & _ & _ & Hb & _);
      exists r, w'
  end.
  split; [exact E | exact Hb].
Defined.

(** ** The loops over selectors *)




(** X25.  The loop of [login] over the selectors of a field waits for them
    in their order, once each, and stops at the first wait that hands back
    an element; when it finds none it has waited for every one of them. *)
Theorem waitForFirst_in_order env p selectors timeout w :
  exists found w' n,
    waitForFirst env p selectors timeout w = (Ok found, w') /\
    trace w' = (trace w ++ map (fun s => EvWaitForSelector p s timeout)
                             (firstn n selectors))%list /\
    (found = None -> n = length selectors) /\
    (forall el, found = Some el -> envElement env (trace w') = Ok (Some el)).
Proof.
  revert w. induction selectors as [| selector rest IH]; intros w.
  - exists None, w, 0%nat. simpl. rewrite app_nil_r.
    split; [reflexivity | split; [reflexivity | split; [reflexivity | discriminate]]].
  - simpl. unfold bind at 1. unfold tryCatch, waitForSelector, perform, ret.
    cbn [trace record setTrace].
    destruct (envElement env (trace w ++ [EvWaitForSelector p selector timeout])%list)
      as [[el |] | msg] eqn:Ea.
    + exists (Some el), (record (EvWaitForSelector p selector timeout) w), 1%nat.
      split; [reflexivity | split; [reflexivity | split; [discriminate |]]].
      intros el' [= <-]. exact Ea.
    + destruct (IH (record (EvWaitForSelector p selector timeout) w))
        as (found & w' & n & H & Ht & Hn & He).
      exists found, w', (S n). split; [exact H | split; [| split]].
      * rewrite Ht. simpl. now rewrite <- app_assoc.
      * intros Hf. now rewrite (Hn Hf).
      * exact He.
    + destruct (IH (record (EvWaitForSelector p selector timeout) w))
        as (found & w' & n & H & Ht & Hn & He).
      exists found, w', (S n). split; [exact H | split; [| split]].
      * rewrite Ht. simpl. now rewrite <- app_assoc.
      * intros Hf. now rewrite (Hn Hf).
      * exact He.
Qed.

(** ** The two-step flow, and what follows a reset *)





Lemma afterReset_no_descriptor w : fs (afterReset w) !! SESSION_PATH = None.
Proof.
  unfold afterReset. destruct (this_browser w); cbn [fs setPage setContext setBrowser record
                                                      setTrace];
    destruct (fs w !! SESSION_PATH) eqn:E; simpl; rewrite ?lookup_delete_eq; auto.
Qed.

(** X27.  After a [reset] that succeeded the session is forgotten: the
    next acquisition of a page finds no descriptor, connects to nothing and
    launches a new browser. *)
Theorem reset_then_acquire_launches env w r w1 p w' :
  reset env w = (Ok r, w1) ->
  success r = true ->
  ensureBrowser env w1 = (Ok p, w') ->
  fs w1 !! SESSION_PATH = None /\
  issued w1 w' [EvLaunch; EvNewContext; EvNewPage].
Proof.
  intros H Hs E.
  assert (Hw1 : w1 = afterReset w).
  { destruct (this_browser w) as [b |] eqn:Hb.
    - destruct (envUnit env (trace w ++ [EvBrowserClose])%list) as [[] | msg] eqn:Hclose.
      + rewrite (reset_run env w (or_intror Hclose)) in H. now injection H as _ <-.
      + exfalso. revert H. unfold reset, tryCatch.
        erewrite bind_run by reflexivity. cbv beta. rewrite Hb.
        unfold bind at 1. unfold bind at 1. unfold perform. cbn [trace record setTrace].
        rewrite Hclose. intros [= <- _]. discriminate.
    - rewrite (reset_run env w (or_introl Hb)) in H. now injection H as _ <-. }
  subst w1. pose proof (afterReset_no_descriptor w) as Hnone.
  split; [exact Hnone |].
  exact (proj1 (ensureBrowser_unsaved _ _ _ _ Hnone E)).
Qed.

Lemma reset_then_acquire_launches_witness :
  exists r w1 p w',
    reset (quietSite plainBrowser) busyWorld = (Ok r, w1) /\
    ensureBrowser (quietSite plainBrowser) w1 = (Ok p, w') /\
    issued w1 w' [EvLaunch; EvNewContext; EvNewPage].
Proof.
  set (env := quietSite plainBrowser).
  assert (E1 : reset env busyWorld = (Ok resetDone, snd (reset env busyWorld)))
    by (vm_compute; reflexivity).
  lazymatch type of E1 with
  | _ = (_, ?w1) =>
      assert (E2 : ensureBrowser env w1 = (Ok 1%nat, snd (ensureBrowser env w1)))
        by (vm_compute; reflexivity);
      lazymatch type of E2 with
      | _ = (_, ?w') =>
          destruct (reset_then_acquire_launches env busyWorld resetDone w1 1%nat w'
                      E1 eq_refl E2) as (_ & Hi);
          exists resetDone, w1, 1%nat, w'
      end
  end.
  split; [exact E1 | split; [exact E2 | exact Hi]].
Defined.
